(** * Text-analytics core of legis-sentiment-spark

    A shallow embedding of the three analysis components of the dashboard
    (stance classifier, word-frequency ranking, corpus summary) together with
    the properties of the written specification that concern them.

    Modelling conventions.
    - A JavaScript string is a Rocq [string]; the character with number [n]
      stands for the UTF-16 code unit U+00nn, so the model covers the comments
      whose code units lie in U+0000..U+00FF (ASCII and Latin-1).
    - A JavaScript number is an exact rational or one of the three special
      values [NaN], [+Infinity], [-Infinity]; the rounding error of IEEE
      doubles is not modelled.
    - [Math.random] reads an explicit random source. *)

From Stdlib Require Import String Ascii List Bool Arith ZArith QArith Qround Qabs Qminmax.
From Stdlib Require Import Lia Lqa Permutation Sorted ListSet.
Import ListNotations.

Local Open Scope string_scope.
Local Open Scope list_scope.

(** ** JavaScript primitives used by the components *)

Module JS.

Definition code (c : ascii) : nat := nat_of_ascii c.

Definition between (lo hi n : nat) : bool := Nat.leb lo n && Nat.leb n hi.

(** Code units changed by [toLowerCase]: A-Z and the Latin-1 capitals
    U+00C0..U+00DE without the multiplication sign U+00D7. *)
Definition isUpper (c : ascii) : bool :=
  between 65 90 (code c) || (between 192 222 (code c) && negb (Nat.eqb (code c) 215)).

Definition toLowerChar (c : ascii) : ascii :=
  if isUpper c then ascii_of_nat (code c + 32) else c.

Fixpoint mapString (f : ascii -> ascii) (s : string) : string :=
  match s with
  | EmptyString => EmptyString
  | String c s' => String (f c) (mapString f s')
  end.

(** [s.toLowerCase()] *)
Definition toLowerCase (s : string) : string := mapString toLowerChar s.

(** The class [\d]. *)
Definition isDigit (c : ascii) : bool := between 48 57 (code c).

(** The class [[a-zA-Z]]. *)
Definition isAlpha (c : ascii) : bool :=
  between 65 90 (code c) || between 97 122 (code c).

(** The class [\w]: letters, digits and the underscore. *)
Definition isWordChar (c : ascii) : bool :=
  isAlpha c || isDigit c || Nat.eqb (code c) 95.

(** The class [\s] below U+0100: TAB, LF, VT, FF, CR, SPACE and NBSP. *)
Definition isSpace (c : ascii) : bool :=
  between 9 13 (code c) || Nat.eqb (code c) 32 || Nat.eqb (code c) 160.

(** [s.includes(w)] *)
Fixpoint includes (s w : string) : bool :=
  prefix w s ||
  match s with
  | EmptyString => false
  | String _ s' => includes s' w
  end.

(** [l.join(sep)] *)
Fixpoint join (sep : string) (l : list string) : string :=
  match l with
  | [] => ""
  | [x] => x
  | x :: l' => x ++ sep ++ join sep l'
  end.

Fixpoint allChars (p : ascii -> bool) (s : string) : bool :=
  match s with
  | EmptyString => true
  | String c s' => p c && allChars p s'
  end.

Fixpoint anyChar (p : ascii -> bool) (s : string) : bool :=
  match s with
  | EmptyString => false
  | String c s' => p c || anyChar p s'
  end.

(** [s.replace(/<class>/g, '')] for a one-character class. *)
Fixpoint removeChars (p : ascii -> bool) (s : string) : string :=
  match s with
  | EmptyString => EmptyString
  | String c s' => if p c then removeChars p s' else String c (removeChars p s')
  end.

(** [s.split(/\s+/)]: the pieces between the maximal runs of white space.
    [cur] is the piece being read and [inRun] tells that the previous
    character was white space.  A run at either end of the text leaves an
    empty piece there, as in JavaScript. *)
Fixpoint splitRuns (s cur : string) (inRun : bool) : list string :=
  match s with
  | EmptyString => [cur]
  | String c s' =>
      if isSpace c
      then (if inRun then splitRuns s' cur true else cur :: splitRuns s' "" true)
      else splitRuns s' (cur ++ String c "") false
  end.

Definition splitWhitespace (s : string) : list string := splitRuns s "" false.

(** Numbers. *)
Inductive number : Type :=
| Fin (q : Q)
| PosInf
| NegInf
| NaN.

Definition ofZ (z : Z) : number := Fin (inject_Z z).

Definition sub (x y : number) : number :=
  match x, y with
  | Fin a, Fin b => Fin (a - b)
  | NaN, _ | _, NaN => NaN
  | PosInf, PosInf | NegInf, NegInf => NaN
  | PosInf, _ | _, NegInf => PosInf
  | NegInf, _ | _, PosInf => NegInf
  end.

Definition add (x y : number) : number :=
  match x, y with
  | Fin a, Fin b => Fin (a + b)
  | NaN, _ | _, NaN => NaN
  | PosInf, NegInf | NegInf, PosInf => NaN
  | PosInf, _ | _, PosInf => PosInf
  | NegInf, _ | _, NegInf => NegInf
  end.

Definition sign (q : Q) : comparison := (q ?= 0)%Q.

Definition mul (x y : number) : number :=
  match x, y with
  | Fin a, Fin b => Fin (a * b)
  | NaN, _ | _, NaN => NaN
  | Fin a, PosInf | PosInf, Fin a =>
      match sign a with Eq => NaN | Gt => PosInf | Lt => NegInf end
  | Fin a, NegInf | NegInf, Fin a =>
      match sign a with Eq => NaN | Gt => NegInf | Lt => PosInf end
  | PosInf, PosInf | NegInf, NegInf => PosInf
  | PosInf, NegInf | NegInf, PosInf => NegInf
  end.

(** Division; a zero divisor is taken as [+0], the only zero an integer
    subtraction produces. *)
Definition div (x y : number) : number :=
  match x, y with
  | Fin a, Fin b =>
      match sign b with
      | Eq => match sign a with Eq => NaN | Gt => PosInf | Lt => NegInf end
      | _ => Fin (a / b)
      end
  | NaN, _ | _, NaN => NaN
  | Fin _, _ => Fin 0
  | PosInf, Fin b => match sign b with Lt => NegInf | _ => PosInf end
  | NegInf, Fin b => match sign b with Lt => PosInf | _ => NegInf end
  | _, _ => NaN
  end.

(** [Math.round]: the nearest integer, halves upwards. *)
Definition round (x : number) : number :=
  match x with
  | Fin a => ofZ (Qfloor (a + (1 # 2)))
  | _ => x
  end.

(** [Math.min] of two finite numbers. *)
Definition min (a b : Q) : Q := if Qle_bool a b then a else b.

(** [x > y]; a comparison with [NaN] is false. *)
Definition gt (x y : number) : bool :=
  match x, y with
  | NaN, _ | _, NaN => false
  | Fin a, Fin b => match (a ?= b)%Q with Gt => true | _ => false end
  | PosInf, PosInf => false
  | PosInf, _ => true
  | _, NegInf => match x with NegInf => false | _ => true end
  | _, _ => false
  end.

(** [Math.max] of two numbers. *)
Definition max2 (x y : number) : number :=
  match x, y with
  | NaN, _ | _, NaN => NaN
  | _, _ => if gt y x then y else x
  end.

(** [Math.max(...l)]; the maximum of no number is [-Infinity]. *)
Definition max (l : list number) : number := fold_left max2 l NegInf.

(** [s.trimStart()] and [s.trimEnd()]: white space and line terminators
    are removed, below U+0100 the characters of the class [\s]. *)
Fixpoint trimStart (s : string) : string :=
  match s with
  | EmptyString => EmptyString
  | String c s' => if isSpace c then trimStart s' else s
  end.

Fixpoint trimEnd (s : string) : string :=
  match s with
  | EmptyString => EmptyString
  | String c s' =>
      match trimEnd s' with
      | EmptyString => if isSpace c then EmptyString else String c EmptyString
      | t => String c t
      end
  end.

(** [s.trim()] *)
Definition trim (s : string) : string := trimEnd (trimStart s).

(** [s.split(sep)] for a separator of one character; [cur] is the piece
    being read. *)
Fixpoint splitAt (sep : ascii) (s cur : string) : list string :=
  match s with
  | EmptyString => [cur]
  | String c s' =>
      if Ascii.eqb c sep then cur :: splitAt sep s' "" else splitAt sep s' (cur ++ String c "")
  end.

(** [s.replace(a, b)] for texts [a] and [b] of one character: the first
    occurrence is replaced. *)
Fixpoint replaceFirst (a b : ascii) (s : string) : string :=
  match s with
  | EmptyString => EmptyString
  | String c s' => if Ascii.eqb c a then String b s' else String c (replaceFirst a b s')
  end.

End JS.

(** ** Stance classifier ([SentimentAnalysis.sentimentResults]) *)

(** The source of the values that [Math.random] returns: [random k] is the
    result of call number [k].  A computation takes the number of calls made
    so far and returns its result with the new number. *)
Module Rand.

Definition M (A : Type) : Type := nat -> A * nat.

Definition ret {A : Type} (a : A) : M A := fun k => (a, k).

Definition bind {A B : Type} (m : M A) (f : A -> M B) : M B :=
  fun k => let (a, k') := m k in f a k'.

(** [l.map(f)]: the callback runs on the elements from left to right. *)
Fixpoint mapM {A B : Type} (f : A -> M B) (l : list A) : M (list B) :=
  match l with
  | [] => ret []
  | x :: l' => bind (f x) (fun y => bind (mapM f l') (fun ys => ret (y :: ys)))
  end.

End Rand.

Module SentimentAnalysis.

Inductive Sentiment : Type := agreement | removal | modification.

Record SentimentResult : Type := mkResult {
  comment : string;
  sentiment : Sentiment;
  confidence : Q
}.

Definition positiveWords : list string :=
  ["support"; "excellent"; "good"; "positive"; "appreciate"; "well";
   "strengthen"; "improve"; "comprehensive"].

Definition negativeWords : list string :=
  ["concern"; "poor"; "harm"; "restrict"; "serious"; "drive away"; "burden";
   "against"].

Definition positiveMatches (c : string) : nat :=
  length (filter (fun word => JS.includes (JS.toLowerCase c) word) positiveWords).

Definition negativeMatches (c : string) : nat :=
  length (filter (fun word => JS.includes (JS.toLowerCase c) word) negativeWords).

Section WithRandom.

Variable random : nat -> Q.

Definition Math_random : Rand.M Q := fun k => (random k, S k).

(** The callback of [comments.map] in [sentimentResults]. *)
Definition classify (c : string) : Rand.M SentimentResult :=
  let positiveMatches := positiveMatches c in
  let negativeMatches := negativeMatches c in
  if (negativeMatches <? positiveMatches)%nat then
    Rand.ret (mkResult c agreement
                (JS.min (95 # 100) ((6 # 10) + inject_Z (Z.of_nat positiveMatches) * (1 # 10))))
  else if (positiveMatches <? negativeMatches)%nat then
    Rand.ret (mkResult c removal
                (JS.min (95 # 100) ((6 # 10) + inject_Z (Z.of_nat negativeMatches) * (1 # 10))))
  else
    Rand.bind Math_random (fun r =>
    Rand.ret (mkResult c modification ((7 # 10) + r * (2 # 10)))).

Definition sentimentResults (comments : list string) : Rand.M (list SentimentResult) :=
  Rand.mapM classify comments.

End WithRandom.

End SentimentAnalysis.

(** The copy of the component that labels the three outcomes [positive],
    [negative] and [neutral]; the keyword lists and the arithmetic are the
    same. *)
Module SentimentAnalysisPolar.

Inductive Sentiment : Type := positive | negative | neutral.

Record SentimentResult : Type := mkResult {
  comment : string;
  sentiment : Sentiment;
  confidence : Q
}.

Definition positiveWords : list string :=
  ["support"; "excellent"; "good"; "positive"; "appreciate"; "well";
   "strengthen"; "improve"; "comprehensive"].

Definition negativeWords : list string :=
  ["concern"; "poor"; "harm"; "restrict"; "serious"; "drive away"; "burden";
   "against"].

Section WithRandom.

Variable random : nat -> Q.

Definition classify (c : string) : Rand.M SentimentResult :=
  let lowerComment := JS.toLowerCase c in
  let positiveMatches :=
    length (filter (fun word => JS.includes lowerComment word) positiveWords) in
  let negativeMatches :=
    length (filter (fun word => JS.includes lowerComment word) negativeWords) in
  if (negativeMatches <? positiveMatches)%nat then
    Rand.ret (mkResult c positive
                (JS.min (95 # 100) ((6 # 10) + inject_Z (Z.of_nat positiveMatches) * (1 # 10))))
  else if (positiveMatches <? negativeMatches)%nat then
    Rand.ret (mkResult c negative
                (JS.min (95 # 100) ((6 # 10) + inject_Z (Z.of_nat negativeMatches) * (1 # 10))))
  else
    Rand.bind (SentimentAnalysis.Math_random random) (fun r =>
    Rand.ret (mkResult c neutral ((7 # 10) + r * (2 # 10)))).

Definition sentimentResults (comments : list string) : Rand.M (list SentimentResult) :=
  Rand.mapM classify comments.

End WithRandom.

End SentimentAnalysisPolar.

(** The correspondence of the two label sets. *)
Definition relabel (s : SentimentAnalysis.Sentiment) : SentimentAnalysisPolar.Sentiment :=
  match s with
  | SentimentAnalysis.agreement => SentimentAnalysisPolar.positive
  | SentimentAnalysis.removal => SentimentAnalysisPolar.negative
  | SentimentAnalysis.modification => SentimentAnalysisPolar.neutral
  end.

Definition relabelResult (r : SentimentAnalysis.SentimentResult) :
    SentimentAnalysisPolar.SentimentResult :=
  SentimentAnalysisPolar.mkResult (SentimentAnalysis.comment r)
    (relabel (SentimentAnalysis.sentiment r)) (SentimentAnalysis.confidence r).

(** ** Corpus summary ([SummaryGeneration.summary]) *)

Module SummaryGeneration.

Inductive Overall : Type := positive | negative | mixed.

Record Summary : Type := mkSummary {
  totalComments : nat;
  sentimentDistribution : nat * nat * nat;   (* positive, negative, neutral *)
  overallSentiment : Overall;
  keyThemes : list string;
  mainConcerns : list string;
  suggestions : list string
}.

Definition positiveKeywords : list string :=
  ["support"; "excellent"; "good"; "positive"; "appreciate"; "well";
   "strengthen"; "improve"; "comprehensive"; "initiative"].

Definition negativeKeywords : list string :=
  ["concern"; "poor"; "harm"; "restrict"; "serious"; "drive away"; "burden";
   "against"; "oppose"; "problematic"].

Definition neutralKeywords : list string :=
  ["suggest"; "recommend"; "consider"; "clarify"; "modify"; "reasonable";
   "adequate"].

(** The variables that the loop over the comments updates.  A [Set] keeps
    its elements in the order of their first insertion, which is the order
    [Array.from] returns. *)
Record Acc : Type := mkAcc {
  positiveCount : nat;
  negativeCount : nat;
  neutralCount : nat;
  themesSet : list string;
  concernsSet : list string;
  suggestionsSet : list string
}.

Definition init : Acc := mkAcc 0 0 0 [] [] [].

(** [set.add(x)] *)
Definition setAdd (x : string) (s : list string) : list string :=
  set_add string_dec x s.

(** [if (lc.includes(t1) || lc.includes(t2)) set.add(tag)] *)
Definition rule (lc t1 t2 tag : string) (s : list string) : list string :=
  if JS.includes lc t1 || JS.includes lc t2 then setAdd tag s else s.

Definition hasAny (keywords : list string) (lc : string) : bool :=
  existsb (fun word => JS.includes lc word) keywords.

(** The body of [comments.forEach]. *)
Definition step (a : Acc) (c : string) : Acc :=
  let lowerComment := JS.toLowerCase c in
  let hasPositive := hasAny positiveKeywords lowerComment in
  let hasNegative := hasAny negativeKeywords lowerComment in
  let hasNeutral := hasAny neutralKeywords lowerComment in
  let '(p, n, u) :=
    if hasPositive && negb hasNegative then
      (S (positiveCount a), negativeCount a, neutralCount a)
    else if hasNegative && negb hasPositive then
      (positiveCount a, S (negativeCount a), neutralCount a)
    else (positiveCount a, negativeCount a, S (neutralCount a)) in
  let keyThemes := themesSet a in
  let keyThemes :=
    rule lowerComment "transparency" "accountability"
      "Corporate Transparency & Accountability" keyThemes in
  let keyThemes :=
    rule lowerComment "compliance" "regulation" "Regulatory Compliance" keyThemes in
  let keyThemes :=
    rule lowerComment "small business" "startup" "Impact on Small Businesses" keyThemes in
  let keyThemes :=
    rule lowerComment "implementation" "timeline" "Implementation Concerns" keyThemes in
  let keyThemes :=
    rule lowerComment "privacy" "data" "Data Privacy & Security" keyThemes in
  let keyThemes :=
    rule lowerComment "governance" "oversight" "Corporate Governance" keyThemes in
  let concerns := concernsSet a in
  let concerns :=
    rule lowerComment "burden" "cost" "Increased compliance burden and costs" concerns in
  let concerns :=
    rule lowerComment "privacy" "confidential"
      "Privacy and confidentiality implications" concerns in
  let concerns :=
    rule lowerComment "small" "startup"
      "Disproportionate impact on small businesses" concerns in
  let concerns :=
    rule lowerComment "unclear" "confusing"
      "Lack of clarity in implementation guidelines" concerns in
  let suggestions := suggestionsSet a in
  let suggestions :=
    rule lowerComment "phased" "gradual" "Implement changes in phases" suggestions in
  let suggestions :=
    rule lowerComment "clarify" "clearer"
      "Provide clearer implementation guidelines" suggestions in
  let suggestions :=
    rule lowerComment "exemption" "exception"
      "Consider exemptions for specific business categories" suggestions in
  let suggestions :=
    rule lowerComment "consultation" "stakeholder"
      "Conduct additional stakeholder consultations" suggestions in
  mkAcc p n u keyThemes concerns suggestions.

Definition overall (positiveCount negativeCount neutralCount : nat) : Overall :=
  if (negativeCount <? positiveCount)%nat && (neutralCount <? positiveCount)%nat then positive
  else if (positiveCount <? negativeCount)%nat && (neutralCount <? negativeCount)%nat then negative
  else mixed.

(** [summary]; [None] is the [null] returned for an empty comment list. *)
Definition summary (comments : list string) : option Summary :=
  match comments with
  | [] => None
  | _ =>
      let a := fold_left step comments init in
      Some (mkSummary (length comments)
              (positiveCount a, negativeCount a, neutralCount a)
              (overall (positiveCount a) (negativeCount a) (neutralCount a))
              (themesSet a) (concernsSet a) (suggestionsSet a))
  end.

End SummaryGeneration.

(** ** Word-frequency ranking ([WordCloud.wordFrequencies]) *)

Module WordCloud.

(** The values met in the word-count object: [undefined] for a missing
    property, an integer count, a string, and the function [Object] that
    [Object.prototype.constructor] holds. *)
Inductive value : Type :=
| Undefined
| Num (n : Z)
| Str (s : string)
| ObjectFunction.

Record WordFrequency : Type := mkWord {
  word : string;
  frequency : value;
  size : JS.number
}.

Definition stopWords : list string :=
  ["the"; "a"; "an"; "and"; "or"; "but"; "in"; "on"; "at"; "to"; "for"; "of"; "with";
   "by"; "is"; "are"; "was"; "were"; "be"; "been"; "have"; "has"; "had"; "do"; "does";
   "did"; "will"; "would"; "could"; "should"; "may"; "might"; "must"; "can"; "this";
   "that"; "these"; "those"; "i"; "you"; "he"; "she"; "it"; "we"; "they"; "me"; "him";
   "her"; "us"; "them"; "my"; "your"; "his"; "its"; "our"; "their"; "as"; "if"; "than";
   "so"; "very"; "just"; "now"; "then"; "here"; "there"; "when"; "where"; "why"; "how";
   "all"; "any"; "both"; "each"; "few"; "more"; "most"; "other"; "some"; "such"; "no";
   "nor"; "not"; "only"; "own"; "same"; "so"; "than"; "too"; "very"; "s"; "t"; "can";
   "don"; "should"; "ve"; "ll"; "d"; "m"; "re"; "also"; "like"; "get"; "go"; "one";
   "two"; "first"; "last"; "new"; "old"; "good"; "bad"; "big"; "small"; "long"; "short";
   "high"; "low"; "right"; "left"; "next"; "previous"; "said"; "say"; "come"; "came";
   "give"; "take"; "make"; "know"; "think"; "see"; "look"; "want"; "use"; "find";
   "tell"; "ask"; "seem"; "feel"; "try"; "leave"; "call"; "back"; "way"; "even";
   "well"; "still"; "however"; "therefore"; "thus"; "hence"; "accordingly"; "consequently";
   "provision"; "section"; "clause"; "draft"; "amendment"; "legislation"; "act"; "rule";
   "regulation"; "ministry"; "department"; "government"; "india"; "indian"; "public";
   "consultation"; "comment"; "suggestion"; "proposal"; "recommendation"; "request";
   "regarding"; "concerning"; "respect"; "matter"; "issue"; "subject"; "mentioned";
   "stated"; "provided"; "specified"; "considered"; "proposed"; "suggested"; "requested"].

(** [stopWords.has(w)], [array.includes(w)] *)
Definition has (l : list string) (w : string) : bool :=
  existsb (String.eqb w) l.

(** The maximal prefix of digits and the rest of the text. *)
Fixpoint spanDigits (s : string) : string * string :=
  match s with
  | EmptyString => ("", "")
  | String c s' =>
      if JS.isDigit c
      then let (d, r) := spanDigits s' in (String c d, r)
      else ("", s)
  end.

(** The class [[\/\-]]. *)
Definition isDateSep (c : ascii) : bool :=
  Nat.eqb (JS.code c) 47 || Nat.eqb (JS.code c) 45.

(** [/^\d+$/] *)
Definition pureNumber (w : string) : bool :=
  negb (String.eqb w "") && JS.allChars JS.isDigit w.

(** [/^(19|20)\d{2}$/] *)
Definition yearPattern (w : string) : bool :=
  match w with
  | String a (String b (String c (String d EmptyString))) =>
      (String.eqb (String a (String b "")) "19" || String.eqb (String a (String b "")) "20")
      && JS.isDigit c && JS.isDigit d
  | _ => false
  end.

(** [/^\d{1,2}[\/\-]\d{1,2}[\/\-]\d{2,4}$/]: the three groups of digits are
    maximal because a separator follows each of the first two and the end of
    the text the third. *)
Definition datePattern (w : string) : bool :=
  let (d1, r1) := spanDigits w in
  JS.between 1 2 (String.length d1) &&
  match r1 with
  | String s1 r2 =>
      isDateSep s1 &&
      let (d2, r3) := spanDigits r2 in
      JS.between 1 2 (String.length d2) &&
      match r3 with
      | String s2 r4 =>
          isDateSep s2 &&
          let (d3, r5) := spanDigits r4 in
          JS.between 2 4 (String.length d3) && String.eqb r5 ""
      | EmptyString => false
      end
  | EmptyString => false
  end.

Definition isNumericOrDate (w : string) : bool :=
  if pureNumber w then true
  else if yearPattern w then true
  else if datePattern w then true
  else if (2 <? String.length w)%nat && JS.anyChar JS.isDigit w
          && (String.length (JS.removeChars JS.isDigit w) <? 2)%nat then true
  else false.

Definition suffixes : list string :=
  ["ing"; "ion"; "tion"; "ness"; "ment"; "able"; "ible"; "ful"; "less"].

Definition isMeaningfulWord (w : string) : bool :=
  if (String.length w <? 3)%nat then false
  else if has stopWords w then false
  else if isNumericOrDate w then false
  else if negb (negb (String.eqb w "") && JS.allChars JS.isAlpha w) then false
  else if has suffixes w then false
  else true.

(** [.replace(/[^\w\s]/g, ' ')] *)
Definition blankNonWord (s : string) : string :=
  JS.mapString (fun c => if JS.isWordChar c || JS.isSpace c then c else " "%char) s.

Definition allText (comments : list string) : string :=
  JS.toLowerCase (JS.join " " comments).

(** The pieces that [split] returns, before the filter. *)
Definition candidates (comments : list string) : list string :=
  JS.splitWhitespace (blankNonWord (allText comments)).

Definition words (comments : list string) : list string :=
  filter isMeaningfulWord (candidates comments).

(** The word-count object: its own properties in the order of their
    creation, which is the order [Object.entries] lists them in (no key is
    an array index, the keys being words of letters). *)
Definition object : Type := list (string * value).

Fixpoint own (o : object) (k : string) : option value :=
  match o with
  | [] => None
  | (k', v) :: o' => if String.eqb k k' then Some v else own o' k
  end.

(** [acc[k]]: an own property, or else the property of [Object.prototype]
    of that name.  Among the names that pass [isMeaningfulWord] (lower-case
    letters only) the prototype has one, [constructor]. *)
Definition get (o : object) (k : string) : value :=
  match own o k with
  | Some v => v
  | None => if String.eqb k "constructor" then ObjectFunction else Undefined
  end.

(** [acc[k] = v] *)
Fixpoint set (o : object) (k : string) (v : value) : object :=
  match o with
  | [] => [(k, v)]
  | (k', v') :: o' =>
      if String.eqb k k' then (k', v) :: o' else (k', v') :: set o' k v
  end.

Definition truthy (v : value) : bool :=
  match v with
  | Undefined => false
  | Num n => negb (n =? 0)%Z
  | Str s => negb (String.eqb s "")
  | ObjectFunction => true
  end.

(** [v || d] *)
Definition orElse (v d : value) : value := if truthy v then v else d.

(** The text of [String(Object)]. *)
Definition objectText : string := "function Object() { [native code] }".

(** [v + 1] for a value [v] that is not [undefined]: a number is
    incremented, to anything else the text [1] is appended. *)
Definition plusOne (v : value) : value :=
  match v with
  | Num n => Num (n + 1)
  | Str s => Str (s ++ "1")
  | ObjectFunction => Str (objectText ++ "1")
  | Undefined => Undefined
  end.

(** The callback of [words.reduce]. *)
Definition countWord (acc : object) (w : string) : object :=
  set acc w (plusOne (orElse (get acc w) (Num 0))).

Definition wordCount (ws : list string) : object := fold_left countWord ws [].

(** [ToNumber]; the texts stored in the word-count object start with
    [function] and are not numerals. *)
Definition toNumber (v : value) : JS.number :=
  match v with
  | Num n => JS.ofZ n
  | _ => JS.NaN
  end.

(** The comparator [([, a], [, b]) => b - a]. *)
Definition compareFn (x y : string * value) : JS.number :=
  JS.sub (toNumber (snd y)) (toNumber (snd x)).

(** [x] has to come after [y]: the comparator is positive ([NaN] counts as
    zero). *)
Definition after (x y : string * value) : bool :=
  match compareFn x y with
  | JS.Fin q => match JS.sign q with Gt => true | _ => false end
  | JS.PosInf => true
  | _ => false
  end.

(** [Array.prototype.sort] is stable; for a consistent comparator every
    stable sort returns the list that insertion sort returns. *)
Fixpoint insert (x : string * value) (l : list (string * value)) : list (string * value) :=
  match l with
  | [] => [x]
  | y :: l' => if after x y then y :: insert x l' else x :: l
  end.

Fixpoint sort (l : list (string * value)) : list (string * value) :=
  match l with
  | [] => []
  | x :: l' => insert x (sort l')
  end.

Definition sortedWords (ws : list string) : list (string * value) :=
  firstn 50 (sort (wordCount ws)).

(** [a?.[1]] *)
Definition second (e : option (string * value)) : value :=
  match e with
  | Some (_, v) => v
  | None => Undefined
  end.

Definition scale (minFreq maxFreq : value) (e : string * value) : WordFrequency :=
  let (w, frequency) := e in
  let normalizedFreq :=
    JS.div (JS.sub (toNumber frequency) (toNumber minFreq))
           (JS.sub (toNumber maxFreq) (toNumber minFreq)) in
  let size := JS.add (JS.ofZ 12) (JS.mul normalizedFreq (JS.ofZ 24)) in
  mkWord w frequency (JS.round size).

Definition wordFrequencies (comments : list string) : list WordFrequency :=
  match comments with
  | [] => []
  | _ =>
      let sortedWords := sortedWords (words comments) in
      let maxFreq := orElse (second (hd_error sortedWords)) (Num 1) in
      let minFreq := orElse (second (last (map Some sortedWords) None)) (Num 1) in
      map (scale minFreq maxFreq) sortedWords
  end.

End WordCloud.

(** ** The page ([Index]) *)

(** The page hands the same comment list to the three components.  One
    rendering runs them in the order of the page; only the classifier
    reads the random source. *)
Module Index.

Record Analyses : Type := mkAnalyses {
  sentiment : list SentimentAnalysis.SentimentResult;
  summary : option SummaryGeneration.Summary;
  wordCloud : list WordCloud.WordFrequency
}.

Definition render (random : nat -> Q) (comments : list string) : Rand.M Analyses :=
  Rand.bind (SentimentAnalysis.sentimentResults random comments) (fun results =>
  Rand.ret (mkAnalyses results
              (SummaryGeneration.summary comments)
              (WordCloud.wordFrequencies comments))).

End Index.

(** ** The charts of the classifier ([SentimentAnalysis], the copy with
    stakeholder types) *)

Module SentimentCharts.

Import SentimentAnalysis.

Record SentimentResult : Type := mkResult {
  comment : string;
  sentiment : Sentiment;
  confidence : Q;
  stakeholderType : string
}.

Definition stakeholderTypes : list string :=
  ["Corporate Entity"; "Professional Body"; "Individual Practitioner";
   "Industry Association"; "Government Agency"; "Academic Institution"].

(** [stakeholderTypes[index % stakeholderTypes.length]]; the index is
    within the array. *)
Definition typeAt (index : nat) : string :=
  nth (index mod length stakeholderTypes) stakeholderTypes "".

Section WithRandom.

Variable random : nat -> Q.

(** The callback of [comments.map((comment, index) => ...)]. *)
Definition classify (index : nat) (c : string) : Rand.M SentimentResult :=
  let lowerComment := JS.toLowerCase c in
  let positiveMatches :=
    length (filter (fun word => JS.includes lowerComment word) positiveWords) in
  let negativeMatches :=
    length (filter (fun word => JS.includes lowerComment word) negativeWords) in
  if (negativeMatches <? positiveMatches)%nat then
    Rand.ret (mkResult c agreement
                (JS.min (95 # 100) ((6 # 10) + inject_Z (Z.of_nat positiveMatches) * (1 # 10)))
                (typeAt index))
  else if (positiveMatches <? negativeMatches)%nat then
    Rand.ret (mkResult c removal
                (JS.min (95 # 100) ((6 # 10) + inject_Z (Z.of_nat negativeMatches) * (1 # 10)))
                (typeAt index))
  else
    Rand.bind (Math_random random) (fun r =>
    Rand.ret (mkResult c modification ((7 # 10) + r * (2 # 10)) (typeAt index))).

(** [l.map((x, index) => ...)] from the index [i] on. *)
Fixpoint mapIndexed {A B : Type} (f : nat -> A -> Rand.M B) (i : nat) (l : list A)
    : Rand.M (list B) :=
  match l with
  | [] => Rand.ret []
  | x :: l' =>
      Rand.bind (f i x) (fun y =>
      Rand.bind (mapIndexed f (S i) l') (fun ys => Rand.ret (y :: ys)))
  end.

Definition sentimentResults (comments : list string) : Rand.M (list SentimentResult) :=
  mapIndexed classify 0 comments.

End WithRandom.

(** The counters [{ agreement: 0, removal: 0, modification: 0 }]. *)
Record Counts : Type := mkCounts {
  agreementCount : nat;
  removalCount : nat;
  modificationCount : nat
}.

(** [acc[s]++] *)
Definition bump (acc : Counts) (s : Sentiment) : Counts :=
  match s with
  | agreement => mkCounts (S (agreementCount acc)) (removalCount acc) (modificationCount acc)
  | removal => mkCounts (agreementCount acc) (S (removalCount acc)) (modificationCount acc)
  | modification => mkCounts (agreementCount acc) (removalCount acc) (S (modificationCount acc))
  end.

Record Share : Type := mkShare {
  count : nat;
  percentage : JS.number
}.

(** [{ count: c, percentage: (c / total) * 100 }] *)
Definition share (c total : nat) : Share :=
  mkShare c (JS.mul (JS.div (JS.ofZ (Z.of_nat c)) (JS.ofZ (Z.of_nat total))) (JS.ofZ 100)).

Record SentimentCounts : Type := mkSentimentCounts {
  agreementShare : Share;
  removalShare : Share;
  modificationShare : Share
}.

Definition sentimentCounts (sentimentResults : list SentimentResult) : SentimentCounts :=
  let counts :=
    fold_left (fun acc result => bump acc (sentiment result)) sentimentResults
      (mkCounts 0 0 0) in
  let total := length sentimentResults in
  mkSentimentCounts (share (agreementCount counts) total)
                    (share (removalCount counts) total)
                    (share (modificationCount counts) total).

(** The values of the pie chart, in the order agreement, modification,
    removal. *)
Definition pieChartData (c : SentimentCounts) : list (string * nat) :=
  [("In Agreement", count (agreementShare c));
   ("In Modification", count (modificationShare c));
   ("In Removal", count (removalShare c))].


(** The counters of one stakeholder group. *)
Record Group : Type := mkGroup {
  inAgreement : nat;
  inModification : nat;
  inRemoval : nat;
  total : nat
}.

(** The object of the groups: its properties in the order of their
    creation.  The keys are stakeholder types, none of which names a
    property of [Object.prototype]. *)
Definition groups : Type := list (string * Group).

Fixpoint lookup (g : groups) (k : string) : option Group :=
  match g with
  | [] => None
  | (k', v) :: g' => if String.eqb k k' then Some v else lookup g' k
  end.

(** The property [k] is created at the end or, when it exists, changed. *)
Fixpoint store (g : groups) (k : string) (v : Group) : groups :=
  match g with
  | [] => [(k, v)]
  | (k', v') :: g' =>
      if String.eqb k k' then (k', v) :: g' else (k', v') :: store g' k v
  end.

(** [group[s]++] *)
Definition bumpGroup (v : Group) (s : Sentiment) : Group :=
  match s with
  | agreement => mkGroup (S (inAgreement v)) (inModification v) (inRemoval v) (total v)
  | modification => mkGroup (inAgreement v) (S (inModification v)) (inRemoval v) (total v)
  | removal => mkGroup (inAgreement v) (inModification v) (S (inRemoval v)) (total v)
  end.

(** The callback of [sentimentResults.reduce] in [stakeholderData]. *)
Definition addResult (acc : groups) (result : SentimentResult) : groups :=
  let k := stakeholderType result in
  let acc :=
    match lookup acc k with
    | None => store acc k (mkGroup 0 0 0 0)
    | Some _ => acc
    end in
  let acc :=
    match lookup acc k with
    | Some v => store acc k (bumpGroup v (sentiment result))
    | None => acc
    end in
  match lookup acc k with
  | Some v => store acc k (mkGroup (inAgreement v) (inModification v) (inRemoval v) (S (total v)))
  | None => acc
  end.

Record Row : Type := mkRow {
  rowType : string;
  rowAgreement : nat;
  rowModification : nat;
  rowRemoval : nat;
  rowTotal : nat
}.

Definition stakeholderGroups (sentimentResults : list SentimentResult) : groups :=
  fold_left addResult sentimentResults [].

Definition stakeholderData (sentimentResults : list SentimentResult) : list Row :=
  map (fun e : string * Group =>
         let (type, counts) := e in
         mkRow (JS.replaceFirst " " "010" type)
               (inAgreement counts) (inModification counts) (inRemoval counts)
               (total counts))
      (stakeholderGroups sentimentResults).

End SentimentCharts.

(** ** The display of the ranking ([WordCloud], the rendering) *)

Module CloudView.

Definition getWordColor (frequency maxFreq : JS.number) : string :=
  let intensity := JS.div frequency maxFreq in
  if JS.gt intensity (JS.Fin (7 # 10)) then "text-primary"
  else if JS.gt intensity (JS.Fin (4 # 10)) then "text-primary/80"
  else if JS.gt intensity (JS.Fin (2 # 10)) then "text-primary/60"
  else "text-muted-foreground".

(** [Math.max(...wordFrequencies.map(w => w.frequency))] *)
Definition maxFreq (wordFrequencies : list WordCloud.WordFrequency) : JS.number :=
  JS.max (map (fun w => WordCloud.toNumber (WordCloud.frequency w)) wordFrequencies).

(** One word of the cloud: its text, colour class and font size. *)
Record Span : Type := mkSpan {
  text : string;
  className : string;
  fontSize : JS.number
}.

Record View : Type := mkView {
  cloud : list Span;
  topKeywords : list (string * WordCloud.value)
}.

(** The rendering; [None] is the card shown when there is no comment. *)
Definition render (comments : list string) : option View :=
  match comments with
  | [] => None
  | _ =>
      let wordFrequencies := WordCloud.wordFrequencies comments in
      let maxFreq := maxFreq wordFrequencies in
      Some (mkView
              (map (fun wordData =>
                      mkSpan (WordCloud.word wordData)
                             (getWordColor (WordCloud.toNumber (WordCloud.frequency wordData))
                                           maxFreq)
                             (WordCloud.size wordData))
                   (firstn 30 wordFrequencies))
              (map (fun wordData => (WordCloud.word wordData, WordCloud.frequency wordData))
                   (firstn 12 wordFrequencies)))
  end.

End CloudView.

(** ** The upload ([UploadSection.processFile]) *)

Module UploadSection.

(** The comments that [processFile] extracts from the text of a file. *)
Definition extract (text : string) : list string :=
  firstn 100
    (filter (fun line => (0 <? String.length line)%nat)
       (map JS.trim (JS.splitAt "010" text ""))).

(** [processFile] on the text of the file: [Some comments] when the
    comments are handed to [onCommentsUploaded], [None] when the error for
    a file without comments is thrown and caught, and nothing is handed
    on. *)
Definition processFile (text : string) : option (list string) :=
  let comments := extract text in
  if (length comments =? 0)%nat then None else Some comments.

End UploadSection.

(** ** Notions of the specification *)

(** [w] occurs in [text] as a substring. *)
Definition occursIn (w text : string) : Prop :=
  exists p q, text = (p ++ w ++ q)%string.

(** [w] occurs in the comment [c] in some spelling that differs from [w]
    in the case of its letters only. *)
Definition occursIgnoringCase (w c : string) : Prop :=
  exists w', occursIn w' c /\ JS.toLowerCase w' = JS.toLowerCase w.

(** [n] is the number of keywords of [keywords] that occur in the comment
    [c], each keyword counted once however often it occurs. *)
Definition countsAs (keywords : list string) (c : string) (n : nat) : Prop :=
  exists present,
    NoDup present /\ length present = n /\
    forall w, In w present <-> In w keywords /\ occursIgnoringCase w c.

(** The keywords are written in lower case. *)
Definition lowerCased (keywords : list string) : Prop :=
  Forall (fun w => JS.toLowerCase w = w) keywords.

(** The tokenizer step as the specification words it: every character that
    is neither a letter nor white space becomes a space, then the text is
    split at white space. *)
Definition specBlank (s : string) : string :=
  JS.mapString (fun c => if JS.isAlpha c || JS.isSpace c then c else " "%char) s.

Definition specCandidates (comments : list string) : list string :=
  JS.splitWhitespace (specBlank (WordCloud.allText comments)).

(** The number of times the token [w] occurs in the token sequence. *)
Definition occurrences (ws : list string) (w : string) : Z :=
  Z.of_nat (count_occ string_dec ws w).

(** The count that an entry of the word-count object holds. *)
Definition count (e : string * WordCloud.value) : Z :=
  match snd e with
  | WordCloud.Num n => n
  | _ => 0
  end.

(** All values of the entries are counts. *)
Definition numeric (l : list (string * WordCloud.value)) : Prop :=
  Forall (fun e => exists n, snd e = WordCloud.Num n) l.

(** The display size of the frequency [f] on the scale from [minFreq] to
    [maxFreq]: the position of [f] between the two, mapped linearly to the
    range from 12 to 36 and rounded to the nearest integer. *)
Definition specSize (minFreq maxFreq f : Z) : Z :=
  Qfloor (inject_Z 12
          + ((inject_Z f - inject_Z minFreq) / (inject_Z maxFreq - inject_Z minFreq))
            * inject_Z 24
          + (1 # 2)).

(** Descending order of integers, ties allowed. *)
Definition descending (l : list Z) : Prop :=
  StronglySorted (fun a b => (b <= a)%Z) l.


(** Some keyword of [keywords] occurs in the comment. *)
Definition signals (keywords : list string) (c : string) : Prop :=
  exists w, In w keywords /\ occursIgnoringCase w c.

(** [tally comments p n u]: of the comments, [p] carry a positive signal
    and no negative one, [n] a negative signal and no positive one, and [u]
    are the others. *)
Inductive tally : list string -> nat -> nat -> nat -> Prop :=
| tally_nil : tally [] 0 0 0
| tally_positive c l p n u :
    signals SummaryGeneration.positiveKeywords c ->
    ~ signals SummaryGeneration.negativeKeywords c ->
    tally l p n u -> tally (c :: l) (S p) n u
| tally_negative c l p n u :
    signals SummaryGeneration.negativeKeywords c ->
    ~ signals SummaryGeneration.positiveKeywords c ->
    tally l p n u -> tally (c :: l) p (S n) u
| tally_neutral c l p n u :
    (signals SummaryGeneration.positiveKeywords c <->
     signals SummaryGeneration.negativeKeywords c) ->
    tally l p n u -> tally (c :: l) p n (S u).

(** [x] is within [tol] of [y]. *)
Definition near (tol x y : Q) : Prop := Qabs (x - y) <= tol.

(** The maximal runs of characters that are not white space, from left to
    right; [cur] is the run being read. *)
Fixpoint runs (s cur : string) : list string :=
  match s with
  | EmptyString => if String.eqb cur "" then [] else [cur]
  | String c s' =>
      if JS.isSpace c
      then (if String.eqb cur "" then runs s' "" else cur :: runs s' "")
      else runs s' (cur ++ String c "")
  end.

(** The distinct elements of a sequence in the order of their first
    occurrence. *)
Fixpoint distinct (l : list string) : list string :=
  match l with
  | [] => []
  | x :: l' => x :: filter (fun y => negb (String.eqb y x)) (distinct l')
  end.

(** The detector rules of the summary: two triggers and the tag. *)
Definition themeRules : list (string * string * string) :=
  [("transparency", "accountability", "Corporate Transparency & Accountability");
   ("compliance", "regulation", "Regulatory Compliance");
   ("small business", "startup", "Impact on Small Businesses");
   ("implementation", "timeline", "Implementation Concerns");
   ("privacy", "data", "Data Privacy & Security");
   ("governance", "oversight", "Corporate Governance")].

Definition concernRules : list (string * string * string) :=
  [("burden", "cost", "Increased compliance burden and costs");
   ("privacy", "confidential", "Privacy and confidentiality implications");
   ("small", "startup", "Disproportionate impact on small businesses");
   ("unclear", "confusing", "Lack of clarity in implementation guidelines")].

Definition suggestionRules : list (string * string * string) :=
  [("phased", "gradual", "Implement changes in phases");
   ("clarify", "clearer", "Provide clearer implementation guidelines");
   ("exemption", "exception", "Consider exemptions for specific business categories");
   ("consultation", "stakeholder", "Conduct additional stakeholder consultations")].

(** The comment [c] triggers the rule. *)
Definition triggers (r : string * string * string) (c : string) : Prop :=
  occursIgnoringCase (fst (fst r)) c \/ occursIgnoringCase (snd (fst r)) c.

(** The tags of the rules, in the order of the table. *)
Definition tags (rules : list (string * string * string)) : list string :=
  map snd rules.

(** The sum of a list of natural numbers. *)
Definition total (l : list nat) : nat := fold_right Nat.add 0%nat l.

(** The text has white space at neither end. *)
Definition trimmed (s : string) : Prop := JS.trim s = s.

(** The characters a to z. *)
Definition isLower (c : ascii) : bool := JS.between 97 122 (JS.code c).

Definition isAgreement (s : SentimentAnalysis.Sentiment) : bool :=
  match s with SentimentAnalysis.agreement => true | _ => false end.

Definition isRemoval (s : SentimentAnalysis.Sentiment) : bool :=
  match s with SentimentAnalysis.removal => true | _ => false end.

Definition isModification (s : SentimentAnalysis.Sentiment) : bool :=
  match s with SentimentAnalysis.modification => true | _ => false end.

(** The number of results that carry a label selected by [p]. *)
Definition labelled (p : SentimentAnalysis.Sentiment -> bool)
    (results : list SentimentCharts.SentimentResult) : nat :=
  length (filter (fun r => p (SentimentCharts.sentiment r)) results).

(** The sum of the column [f] over the stakeholder groups. *)
Definition column (f : SentimentCharts.Group -> nat) (g : SentimentCharts.groups) : nat :=
  total (map (fun e => f (snd e)) g).

(** The group after one more result with the label [s]. *)
Definition counted (v : SentimentCharts.Group) (s : SentimentAnalysis.Sentiment)
    : SentimentCharts.Group :=
  let v' := SentimentCharts.bumpGroup v s in
  SentimentCharts.mkGroup (SentimentCharts.inAgreement v') (SentimentCharts.inModification v')
    (SentimentCharts.inRemoval v') (S (SentimentCharts.total v')).

(** A group's total is the sum of its three counters and is positive. *)
Definition balanced (v : SentimentCharts.Group) : Prop :=
  SentimentCharts.total v
  = (SentimentCharts.inAgreement v + SentimentCharts.inModification v
     + SentimentCharts.inRemoval v)%nat
  /\ (1 <= SentimentCharts.total v)%nat.

(** The rule finds one of its triggers in the lower-cased comment. *)
Definition fired (lc : string) (r : string * string * string) : bool :=
  JS.includes lc (fst (fst r)) || JS.includes lc (snd (fst r)).

(** The rules of a table applied in its order to a tag set. *)
Definition applyRules (lc : string) (rules : list (string * string * string))
    (s : list string) : list string :=
  fold_left (fun s r => SummaryGeneration.rule lc (fst (fst r)) (snd (fst r)) (snd r) s)
    rules s.

(** The triggers of the rules are written in lower case. *)
Definition lowerTriggers (rules : list (string * string * string)) : Prop :=
  Forall (fun r => JS.toLowerCase (fst (fst r)) = fst (fst r)
                   /\ JS.toLowerCase (snd (fst r)) = snd (fst r)) rules.

(** [l] is a beginning of [l']. *)
Definition prefixOf (l l' : list string) : Prop := exists t, l' = l ++ t.

(** The sum of a list of integers. *)
Definition sumZ (l : list Z) : Z := fold_right Z.add 0%Z l.

(** The count that an entry of the ranking shows. *)
Definition shown (e : WordCloud.WordFrequency) : Z :=
  match WordCloud.frequency e with
  | WordCloud.Num n => n
  | _ => 0%Z
  end.

(** The colour class of a word of count [f] when the highest count is
    [top]: by the tenths of [top] that [f] exceeds. *)
Definition shade (f top : Z) : string :=
  if (7 * top <? 10 * f)%Z then "text-primary"
  else if (4 * top <? 10 * f)%Z then "text-primary/80"
  else if (2 * top <? 10 * f)%Z then "text-primary/60"
  else "text-muted-foreground".

(** The words of the sequence that occur [n] times. *)
Definition withCount (ws : list string) (n : Z) (l : list string) : list string :=
  filter (fun w => (occurrences ws w =? n)%Z) l.

(** The character is not the line feed. *)
Definition notLF (c : ascii) : bool := negb (Ascii.eqb c "010").

(** The text consists of white space only. *)
Definition blank (s : string) : Prop := JS.allChars JS.isSpace s = true.

(** ** Inputs of the scenarios *)

Definition scenario : list string :=
  ["I strongly support this excellent amendment.";
   "This is a poor and harmful proposal that will drive away businesses.";
   "Please consider a phased rollout and clarify the timeline."].

(** A source that returns one half at every call. *)
Definition half : nat -> Q := fun _ => 1 # 2.

(** A source that returns one quarter at every call. *)
Definition quarter : nat -> Q := fun _ => 1 # 4.

(** Fifty-one different words, each of them once. *)
Definition fiftyOneWords : list string :=
  ["baa bab bac bbd bae baf bag bah bai baj bak bal bam ban bao bap baq bar bas bat bau bav baw bax bay baz caa cab cac cad cae caf cag cah cai caj cak cal cam ccn cao cap caq car cas cat cau cav caw cax cay"].

(** ** Facts about the primitives *)

Lemma prefix_spec (w s : string) :
  prefix w s = true <-> exists q, s = (w ++ q)%string.
Proof.
  revert s; induction w as [|a w IH]; intros s.
  - split; [exists s; reflexivity | now destruct s].
  - destruct s as [|b s]; simpl.
    + split; [discriminate | intros [q Hq]; discriminate].
    + destruct (ascii_dec a b) as [->|Hab].
      * rewrite IH. split; intros [q Hq]; exists q; [now rewrite Hq | congruence].
      * split; [discriminate | intros [q Hq]; congruence].
Qed.

Lemma includes_spec (s w : string) :
  JS.includes s w = true <-> occursIn w s.
Proof.
  unfold occursIn.
  induction s as [|c s IH]; cbn [JS.includes]; rewrite orb_true_iff, prefix_spec.
  - split.
    + intros [[q Hq]|H]; [exists "", q; exact Hq | discriminate].
    + intros [p [q H]]. left. exists q. destruct p; [exact H | discriminate].
  - rewrite IH. split.
    + intros [[q Hq]|[p [q H]]].
      * exists "", q; exact Hq.
      * exists (String c p), q. simpl. now rewrite H.
    + intros [p [q H]]. destruct p as [|c' p]; simpl in H.
      * left. now exists q.
      * right. exists p, q. congruence.
Qed.

Lemma mapString_app (f : ascii -> ascii) (s t : string) :
  JS.mapString f (s ++ t) = (JS.mapString f s ++ JS.mapString f t)%string.
Proof. induction s as [|c s IH]; simpl; [reflexivity | now rewrite IH]. Qed.

Lemma mapString_app_inv (f : ascii -> ascii) (s a b : string) :
  JS.mapString f s = (a ++ b)%string ->
  exists s1 s2, s = (s1 ++ s2)%string /\ JS.mapString f s1 = a /\ JS.mapString f s2 = b.
Proof.
  revert s. induction a as [|x a IH]; intros s H.
  - exists "", s. auto.
  - destruct s as [|c s]; [discriminate|]. simpl in H. injection H as Hx H.
    destruct (IH s H) as (s1 & s2 & -> & H1 & H2).
    exists (String c s1), s2. simpl. rewrite Hx, H1. auto.
Qed.

(** A lower-case keyword is found in the lower-cased comment exactly when
    the comment contains it in some letter case. *)
Lemma includes_ignoring_case (c w : string) :
  JS.toLowerCase w = w ->
  (JS.includes (JS.toLowerCase c) w = true <-> occursIgnoringCase w c).
Proof.
  intros Hw. rewrite includes_spec. unfold occursIgnoringCase, occursIn, JS.toLowerCase.
  split.
  - intros (p & q & H).
    apply mapString_app_inv in H. destruct H as (p' & r & -> & Hp & H).
    apply mapString_app_inv in H. destruct H as (w' & q' & -> & Hw' & Hq).
    exists w'. split; [now exists p', q'|]. unfold JS.toLowerCase in Hw. congruence.
  - intros (w' & (p & q & ->) & H). rewrite !mapString_app.
    unfold JS.toLowerCase in Hw. rewrite H, Hw. eauto.
Qed.

Lemma filter_NoDup {A : Type} (f : A -> bool) (l : list A) :
  NoDup l -> NoDup (filter f l).
Proof.
  induction 1 as [|x l Hx Hl IH]; simpl; [constructor|].
  destruct (f x); [constructor|]; trivial.
  rewrite filter_In. tauto.
Qed.

Lemma countsAs_filter (keywords : list string) (c : string) :
  NoDup keywords -> lowerCased keywords ->
  countsAs keywords c
    (length (filter (fun w => JS.includes (JS.toLowerCase c) w) keywords)).
Proof.
  intros Hnd Hlow. exists (filter (fun w => JS.includes (JS.toLowerCase c) w) keywords).
  split; [now apply filter_NoDup | split; [reflexivity|]].
  intros w. rewrite filter_In. unfold lowerCased in Hlow. rewrite Forall_forall in Hlow.
  split; intros [Hin H]; (split; [exact Hin|]);
    now apply (includes_ignoring_case c w (Hlow w Hin)).
Qed.

Lemma countsAs_unique (keywords : list string) (c : string) (n m : nat) :
  countsAs keywords c n -> countsAs keywords c m -> n = m.
Proof.
  intros [l [Hl [<- Hin]]] [l' [Hl' [<- Hin']]].
  apply Permutation_length, NoDup_Permutation; trivial.
  intros w. now rewrite Hin, Hin'.
Qed.

Lemma NoDup_positiveWords : NoDup SentimentAnalysis.positiveWords.
Proof.
  unfold SentimentAnalysis.positiveWords.
  repeat (constructor; [simpl; intuition discriminate|]). constructor.
Qed.

Lemma NoDup_negativeWords : NoDup SentimentAnalysis.negativeWords.
Proof.
  unfold SentimentAnalysis.negativeWords.
  repeat (constructor; [simpl; intuition discriminate|]). constructor.
Qed.

Lemma lowerCased_positiveWords : lowerCased SentimentAnalysis.positiveWords.
Proof. repeat constructor. Qed.

Lemma lowerCased_negativeWords : lowerCased SentimentAnalysis.negativeWords.
Proof. repeat constructor. Qed.

Lemma min_is_Qmin (a b : Q) : JS.min a b == Qmin a b.
Proof.
  unfold JS.min. destruct (Qle_bool a b) eqn:E.
  - apply Qle_bool_iff in E. now rewrite Q.min_l.
  - assert (b <= a) as H.
    { apply Qlt_le_weak, Qnot_le_lt. intros H. apply Qle_bool_iff in H. congruence. }
    now rewrite Q.min_r.
Qed.

(** ** The stance classifier *)

(** C4: a comment is labelled agreement when more agreement keywords than
    removal keywords occur in it, in whatever letter case, with confidence
    min(0.95, 0.6 + 0.1 * count); removal in the symmetric case; and
    modification on every tie, with a confidence in [0.7, 0.9).  Every
    keyword counts once, by its presence as a substring. *)
Theorem C4_stance_rule (random : nat -> Q)
    (Hrandom : forall k, 0 <= random k /\ random k < 1) (c : string) (k : nat) :
  let r := fst (SentimentAnalysis.classify random c k) in
  exists a b : nat,
    countsAs SentimentAnalysis.positiveWords c a /\
    countsAs SentimentAnalysis.negativeWords c b /\
    SentimentAnalysis.comment r = c /\
    ((b < a)%nat ->
       SentimentAnalysis.sentiment r = SentimentAnalysis.agreement /\
       SentimentAnalysis.confidence r
         == Qmin (95 # 100) ((6 # 10) + (1 # 10) * inject_Z (Z.of_nat a))) /\
    ((a < b)%nat ->
       SentimentAnalysis.sentiment r = SentimentAnalysis.removal /\
       SentimentAnalysis.confidence r
         == Qmin (95 # 100) ((6 # 10) + (1 # 10) * inject_Z (Z.of_nat b))) /\
    (a = b ->
       SentimentAnalysis.sentiment r = SentimentAnalysis.modification /\
       (7 # 10) <= SentimentAnalysis.confidence r /\
       SentimentAnalysis.confidence r < (9 # 10)).
Proof.
  intros r.
  exists (SentimentAnalysis.positiveMatches c), (SentimentAnalysis.negativeMatches c).
  split; [apply countsAs_filter; [apply NoDup_positiveWords | apply lowerCased_positiveWords]|].
  split; [apply countsAs_filter; [apply NoDup_negativeWords | apply lowerCased_negativeWords]|].
  subst r. unfold SentimentAnalysis.classify.
  set (a := SentimentAnalysis.positiveMatches c).
  set (b := SentimentAnalysis.negativeMatches c).
  destruct (Nat.ltb_spec b a) as [Hba|Hba]; simpl.
  - split; [reflexivity|]. repeat split; try lia.
    rewrite min_is_Qmin. apply Q.min_compat; [reflexivity | ring].
  - destruct (Nat.ltb_spec a b) as [Hab|Hab]; simpl.
    + split; [reflexivity|]. repeat split; try lia.
      rewrite min_is_Qmin. apply Q.min_compat; [reflexivity | ring].
    + split; [reflexivity|]. repeat split; try lia.
      * destruct (Hrandom k) as [H0 H1]. nra.
      * destruct (Hrandom k) as [H0 H1]. nra.
Qed.

(** The copy with the labels positive, negative and neutral classifies in
    the same way. *)
Lemma polar_classify (random : nat -> Q) (c : string) (k : nat) :
  SentimentAnalysisPolar.classify random c k
  = (relabelResult (fst (SentimentAnalysis.classify random c k)),
     snd (SentimentAnalysis.classify random c k)).
Proof.
  unfold SentimentAnalysisPolar.classify, SentimentAnalysis.classify.
  change (length (filter (fun word => JS.includes (JS.toLowerCase c) word)
                    SentimentAnalysisPolar.positiveWords))
    with (SentimentAnalysis.positiveMatches c).
  change (length (filter (fun word => JS.includes (JS.toLowerCase c) word)
                    SentimentAnalysisPolar.negativeWords))
    with (SentimentAnalysis.negativeMatches c).
  cbv zeta.
  destruct (SentimentAnalysis.negativeMatches c <? SentimentAnalysis.positiveMatches c)%nat;
    [reflexivity|].
  destruct (SentimentAnalysis.positiveMatches c <? SentimentAnalysis.negativeMatches c)%nat;
    reflexivity.
Qed.

Lemma polar_sentimentResults (random : nat -> Q) (comments : list string) (k : nat) :
  SentimentAnalysisPolar.sentimentResults random comments k
  = (map relabelResult (fst (SentimentAnalysis.sentimentResults random comments k)),
     snd (SentimentAnalysis.sentimentResults random comments k)).
Proof.
  unfold SentimentAnalysisPolar.sentimentResults, SentimentAnalysis.sentimentResults.
  revert k. induction comments as [|c l IH]; intros k; [reflexivity|].
  simpl. unfold Rand.bind. rewrite polar_classify.
  destruct (SentimentAnalysis.classify random c k) as [r k1]. simpl.
  rewrite IH.
  destruct (Rand.mapM (SentimentAnalysis.classify random) l k1) as [rs k2].
  reflexivity.
Qed.

Lemma C4_stance_rule_witness :
  (forall k, 0 <= half k /\ half k < 1) /\
  exists a b : nat,
    countsAs SentimentAnalysis.positiveWords
      "I strongly support this excellent amendment." a /\
    countsAs SentimentAnalysis.negativeWords
      "I strongly support this excellent amendment." b /\
    (b < a)%nat.
Proof.
  assert (Hh : forall k, 0 <= half k /\ half k < 1).
  { intros k; unfold half; split; [discriminate | reflexivity]. }
  split; [exact Hh|].
  destruct (C4_stance_rule half Hh "I strongly support this excellent amendment." 0)
    as [a [b [Ha [Hb _]]]].
  exists a, b. split; [exact Ha | split; [exact Hb|]].
  rewrite (countsAs_unique _ _ _ _ Ha
             (countsAs_filter _ _ NoDup_positiveWords lowerCased_positiveWords)).
  rewrite (countsAs_unique _ _ _ _ Hb
             (countsAs_filter _ _ NoDup_negativeWords lowerCased_negativeWords)).
  vm_compute. lia.
Defined.

(** C1: in the three-comment scenario the first comment is an agreement
    with confidence 0.8 (two agreement keywords), the second a removal with
    confidence 0.9 (three removal keywords: poor, harm, drive away), the
    third a modification; the summary has the one theme that the trigger
    [timeline] adds and exactly the two suggestions for a phased
    introduction and for clearer guidelines. *)
Theorem C1_scenario (random : nat -> Q) (k : nat) :
  exists r1 r2 r3 s,
    fst (SentimentAnalysis.sentimentResults random scenario k) = [r1; r2; r3] /\
    SentimentAnalysis.sentiment r1 = SentimentAnalysis.agreement /\
    SentimentAnalysis.confidence r1 == 8 # 10 /\
    SentimentAnalysis.sentiment r2 = SentimentAnalysis.removal /\
    SentimentAnalysis.confidence r2 == 9 # 10 /\
    SentimentAnalysis.sentiment r3 = SentimentAnalysis.modification /\
    SummaryGeneration.summary scenario = Some s /\
    SummaryGeneration.keyThemes s = ["Implementation Concerns"] /\
    SummaryGeneration.suggestions s =
      ["Implement changes in phases"; "Provide clearer implementation guidelines"].
Proof.
  do 4 eexists.
  split; [vm_compute; reflexivity|].
  repeat split; vm_compute; reflexivity.
Qed.

(** The scenario as the specification states it (second confidence about
    0.8, no theme) does not hold. *)
Lemma C1_scenario_as_stated_fails :
  ~ (exists r1 r2 r3 s,
       fst (SentimentAnalysis.sentimentResults half scenario 0%nat) = [r1; r2; r3] /\
       SentimentAnalysis.sentiment r1 = SentimentAnalysis.agreement /\
       near (5 # 100) (SentimentAnalysis.confidence r1) (8 # 10) /\
       SentimentAnalysis.sentiment r2 = SentimentAnalysis.removal /\
       near (5 # 100) (SentimentAnalysis.confidence r2) (8 # 10) /\
       SentimentAnalysis.sentiment r3 = SentimentAnalysis.modification /\
       SummaryGeneration.summary scenario = Some s /\
       SummaryGeneration.keyThemes s = [] /\
       In "Implement changes in phases" (SummaryGeneration.suggestions s) /\
       In "Provide clearer implementation guidelines" (SummaryGeneration.suggestions s)).
Proof.
  intros (r1 & r2 & r3 & s & _ & _ & _ & _ & _ & _ & Hs & Hthemes & _).
  vm_compute in Hs. injection Hs as <-. discriminate Hthemes.
Qed.

(** The second confidence alone already departs from 0.8 by a tenth. *)
Lemma scenario_second_confidence :
  map SentimentAnalysis.confidence
    (fst (SentimentAnalysis.sentimentResults half scenario 0%nat))
  = [80 # 100; 90 # 100; 160 # 200].
Proof. vm_compute. reflexivity. Qed.

(** C8: on the empty comment list the classifier returns the empty list
    (and draws no random number), the word-frequency list is empty and the
    summary is absent; the three functions are total, so nothing is
    raised. *)
Theorem C8_empty_input (random : nat -> Q) (k : nat) :
  SentimentAnalysis.sentimentResults random [] k = ([], k) /\
  SentimentAnalysisPolar.sentimentResults random [] k = ([], k) /\
  WordCloud.wordFrequencies [] = [] /\
  SummaryGeneration.summary [] = None.
Proof. repeat split. Qed.

(** ** The corpus summary *)

Lemma hasAny_spec (keywords : list string) (c : string) :
  lowerCased keywords ->
  (SummaryGeneration.hasAny keywords (JS.toLowerCase c) = true <-> signals keywords c).
Proof.
  intros Hlow. unfold lowerCased in Hlow. rewrite Forall_forall in Hlow.
  unfold SummaryGeneration.hasAny, signals. rewrite existsb_exists.
  split; intros [w [Hw H]]; exists w; split; trivial;
    now apply (includes_ignoring_case c w (Hlow w Hw)).
Qed.

Lemma lowerCased_positiveKeywords : lowerCased SummaryGeneration.positiveKeywords.
Proof. repeat constructor. Qed.

Lemma lowerCased_negativeKeywords : lowerCased SummaryGeneration.negativeKeywords.
Proof. repeat constructor. Qed.

Lemma step_counts (a : SummaryGeneration.Acc) (c : string) :
  let a' := SummaryGeneration.step a c in
  let hasPositive :=
    SummaryGeneration.hasAny SummaryGeneration.positiveKeywords (JS.toLowerCase c) in
  let hasNegative :=
    SummaryGeneration.hasAny SummaryGeneration.negativeKeywords (JS.toLowerCase c) in
  (SummaryGeneration.positiveCount a', SummaryGeneration.negativeCount a',
   SummaryGeneration.neutralCount a')
  = if hasPositive && negb hasNegative then
      (S (SummaryGeneration.positiveCount a), SummaryGeneration.negativeCount a,
       SummaryGeneration.neutralCount a)
    else if hasNegative && negb hasPositive then
      (SummaryGeneration.positiveCount a, S (SummaryGeneration.negativeCount a),
       SummaryGeneration.neutralCount a)
    else
      (SummaryGeneration.positiveCount a, SummaryGeneration.negativeCount a,
       S (SummaryGeneration.neutralCount a)).
Proof.
  unfold SummaryGeneration.step.
  destruct (SummaryGeneration.hasAny SummaryGeneration.positiveKeywords _),
           (SummaryGeneration.hasAny SummaryGeneration.negativeKeywords _);
    reflexivity.
Qed.

(** The loop adds a tally of the comments to the counters it starts from. *)
Lemma fold_tally (comments : list string) (a : SummaryGeneration.Acc) :
  exists p n u,
    tally comments p n u /\
    let a' := fold_left SummaryGeneration.step comments a in
    SummaryGeneration.positiveCount a' = (SummaryGeneration.positiveCount a + p)%nat /\
    SummaryGeneration.negativeCount a' = (SummaryGeneration.negativeCount a + n)%nat /\
    SummaryGeneration.neutralCount a' = (SummaryGeneration.neutralCount a + u)%nat.
Proof.
  revert a. induction comments as [|c l IH]; intros a.
  - exists 0%nat, 0%nat, 0%nat. simpl. repeat split; try constructor; lia.
  - destruct (IH (SummaryGeneration.step a c)) as (p & n & u & Ht & Hp & Hn & Hu).
    pose proof (step_counts a c) as Hstep. cbv zeta in Hstep.
    pose proof (hasAny_spec _ c lowerCased_positiveKeywords) as HP.
    pose proof (hasAny_spec _ c lowerCased_negativeKeywords) as HN.
    simpl fold_left. cbv zeta in Hp, Hn, Hu |- *.
    destruct (SummaryGeneration.hasAny SummaryGeneration.positiveKeywords _),
             (SummaryGeneration.hasAny SummaryGeneration.negativeKeywords _);
      simpl in Hstep; injection Hstep as H1 H2 H3;
      rewrite H1 in Hp; rewrite H2 in Hn; rewrite H3 in Hu.
    + exists p, n, (S u). repeat split; try lia.
      apply tally_neutral; trivial. tauto.
    + exists (S p), n, u. repeat split; try lia.
      apply tally_positive; trivial.
      * now apply HP.
      * intros H. apply HN in H. discriminate.
    + exists p, (S n), u. repeat split; try lia.
      apply tally_negative; trivial.
      * now apply HN.
      * intros H. apply HP in H. discriminate.
    + exists p, n, (S u). repeat split; try lia.
      apply tally_neutral; trivial.
      split; intros H; [apply HP in H | apply HN in H]; discriminate.
Qed.

Lemma tally_total (comments : list string) (p n u : nat) :
  tally comments p n u -> (p + n + u)%nat = length comments.
Proof. induction 1; simpl; lia. Qed.

Lemma summary_shape (comments : list string) (s : SummaryGeneration.Summary) :
  SummaryGeneration.summary comments = Some s ->
  exists p n u,
    tally comments p n u /\
    s = SummaryGeneration.mkSummary (length comments) (p, n, u)
          (SummaryGeneration.overall p n u)
          (SummaryGeneration.keyThemes s) (SummaryGeneration.mainConcerns s)
          (SummaryGeneration.suggestions s).
Proof.
  intros Hs.
  destruct (fold_tally comments SummaryGeneration.init) as (p & n & u & Ht & Hp & Hn & Hu).
  cbv zeta in Hp, Hn, Hu. exists p, n, u. split; [exact Ht|].
  destruct comments as [|c l]; [discriminate|].
  unfold SummaryGeneration.summary in Hs. cbv zeta in Hs.
  rewrite Hp, Hn, Hu in Hs. injection Hs as <-. reflexivity.
Qed.

(** C6: the three counts of a summary are the tally of the comments
    (positive: a positive signal and no negative one; negative: the
    reverse; neutral: all others), and the overall sentiment is positive
    exactly when the positive count exceeds both others, negative exactly
    when the negative count exceeds both others, and mixed in every other
    case. *)
Theorem C6_summary_counts (comments : list string) (s : SummaryGeneration.Summary)
    (Hs : SummaryGeneration.summary comments = Some s) :
  exists p n u,
    SummaryGeneration.sentimentDistribution s = (p, n, u) /\
    tally comments p n u /\
    (SummaryGeneration.overallSentiment s = SummaryGeneration.positive
       <-> (n < p /\ u < p)%nat) /\
    (SummaryGeneration.overallSentiment s = SummaryGeneration.negative
       <-> (p < n /\ u < n)%nat) /\
    (SummaryGeneration.overallSentiment s = SummaryGeneration.mixed
       <-> ~ (n < p /\ u < p)%nat /\ ~ (p < n /\ u < n)%nat).
Proof.
  destruct (summary_shape comments s Hs) as (p & n & u & Ht & Heq).
  exists p, n, u. rewrite Heq.
  cbn [SummaryGeneration.sentimentDistribution SummaryGeneration.overallSentiment].
  split; [reflexivity|]. split; [exact Ht|].
  unfold SummaryGeneration.overall.
  destruct (Nat.ltb_spec n p), (Nat.ltb_spec u p), (Nat.ltb_spec p n), (Nat.ltb_spec u n);
    simpl; repeat split; intros; try discriminate; try lia; try reflexivity;
    try (intros [? ?]; lia).
Qed.

Lemma C6_summary_counts_witness :
  exists s, SummaryGeneration.summary scenario = Some s /\
    exists p n u,
      SummaryGeneration.sentimentDistribution s = (p, n, u) /\
      tally scenario p n u /\
      (SummaryGeneration.overallSentiment s = SummaryGeneration.mixed
         <-> ~ (n < p /\ u < p)%nat /\ ~ (p < n /\ u < n)%nat).
Proof.
  destruct (SummaryGeneration.summary scenario) as [s|] eqn:Hs; [|discriminate Hs].
  exists s. split; [reflexivity|].
  destruct (C6_summary_counts scenario s Hs) as (p & n & u & Hd & Ht & _ & _ & Hm).
  exists p, n, u. auto.
Defined.

(** C10: for a non-empty comment list the summary exists, its total is the
    number of comments, and its positive, negative and neutral counts add
    up to that total. *)
Theorem C10_counts_partition (comments : list string) (Hne : comments <> []) :
  exists s p n u,
    SummaryGeneration.summary comments = Some s /\
    SummaryGeneration.totalComments s = length comments /\
    SummaryGeneration.sentimentDistribution s = (p, n, u) /\
    (p + n + u)%nat = SummaryGeneration.totalComments s.
Proof.
  destruct (SummaryGeneration.summary comments) as [s|] eqn:Hs.
  - destruct (summary_shape comments s Hs) as (p & n & u & Ht & Heq).
    exists s, p, n, u. split; [reflexivity|]. rewrite Heq.
    cbn [SummaryGeneration.totalComments SummaryGeneration.sentimentDistribution].
    repeat split. now apply tally_total.
  - destruct comments; [congruence | discriminate].
Qed.

Lemma C10_counts_partition_witness :
  scenario <> [] /\
  exists s p n u,
    SummaryGeneration.summary scenario = Some s /\
    SummaryGeneration.totalComments s = 3%nat /\
    SummaryGeneration.sentimentDistribution s = (p, n, u) /\
    (p + n + u)%nat = SummaryGeneration.totalComments s.
Proof.
  assert (Hne : scenario <> []) by discriminate.
  split; [exact Hne|]. exact (C10_counts_partition scenario Hne).
Defined.

(** ** The word-count object *)

Lemma own_set (o : WordCloud.object) (k k' : string) (v : WordCloud.value) :
  WordCloud.own (WordCloud.set o k v) k'
  = if String.eqb k' k then Some v else WordCloud.own o k'.
Proof.
  induction o as [|[k0 v0] o IH]; simpl.
  - reflexivity.
  - destruct (String.eqb_spec k k0) as [->|Hk]; simpl.
    + destruct (String.eqb_spec k' k0); reflexivity.
    + rewrite IH. destruct (String.eqb_spec k' k0) as [->|Hk'].
      * destruct (String.eqb_spec k0 k); [congruence | reflexivity].
      * reflexivity.
Qed.

Lemma keys_set (o : WordCloud.object) (k : string) (v : WordCloud.value) :
  map fst (WordCloud.set o k v)
  = match WordCloud.own o k with
    | Some _ => map fst o
    | None => map fst o ++ [k]
    end.
Proof.
  induction o as [|[k0 v0] o IH]; simpl.
  - reflexivity.
  - destruct (String.eqb_spec k k0) as [->|Hk]; simpl.
    + reflexivity.
    + rewrite IH. now destruct (WordCloud.own o k).
Qed.

Lemma own_None (o : WordCloud.object) (k : string) :
  WordCloud.own o k = None <-> ~ In k (map fst o).
Proof.
  induction o as [|[k0 v0] o IH]; simpl.
  - tauto.
  - destruct (String.eqb_spec k k0) as [->|Hk].
    + split; [discriminate | tauto].
    + rewrite IH. split; [intros H [E|E]; [congruence | tauto] | tauto].
Qed.

Lemma own_In (o : WordCloud.object) (k : string) (v : WordCloud.value) :
  NoDup (map fst o) ->
  (In (k, v) o <-> WordCloud.own o k = Some v).
Proof.
  induction o as [|[k0 v0] o IH]; simpl; intros Hnd.
  - split; [tauto | discriminate].
  - inversion Hnd as [|? ? Hk0 Hnd']; subst.
    destruct (String.eqb_spec k k0) as [->|Hk].
    + split.
      * intros [E|E]; [congruence|].
        exfalso. apply Hk0. now apply (in_map fst) in E.
      * intros E. left. congruence.
    + rewrite <- (IH Hnd'). split; [intros [E|E]; [congruence | exact E] | tauto].
Qed.

Lemma keys_countWord_NoDup (o : WordCloud.object) (w : string) :
  NoDup (map fst o) -> NoDup (map fst (WordCloud.countWord o w)).
Proof.
  intros Hnd. unfold WordCloud.countWord. rewrite keys_set.
  destruct (WordCloud.own o w) eqn:E; [exact Hnd|].
  apply own_None in E. apply NoDup_app; repeat constructor; simpl; trivial.
  - tauto.
  - intros x Hx [<-|[]]. contradiction.
Qed.

Lemma wordCount_snoc (ws : list string) (w : string) :
  WordCloud.wordCount (ws ++ [w]) = WordCloud.countWord (WordCloud.wordCount ws) w.
Proof. unfold WordCloud.wordCount. now rewrite fold_left_app. Qed.

Lemma wordCount_NoDup (ws : list string) :
  NoDup (map fst (WordCloud.wordCount ws)).
Proof.
  induction ws as [|w ws IH] using rev_ind.
  - constructor.
  - rewrite wordCount_snoc. now apply keys_countWord_NoDup.
Qed.

Lemma occurrences_snoc (ws : list string) (x w : string) :
  occurrences (ws ++ [x]) w
  = (occurrences ws w + (if String.eqb w x then 1 else 0))%Z.
Proof.
  unfold occurrences. rewrite count_occ_app. simpl.
  destruct (string_dec x w) as [->|Hx].
  - rewrite String.eqb_refl. lia.
  - destruct (String.eqb_spec w x); [congruence | lia].
Qed.

Lemma occurrences_pos (ws : list string) (w : string) :
  In w ws <-> (1 <= occurrences ws w)%Z.
Proof.
  unfold occurrences. rewrite (count_occ_In string_dec). lia.
Qed.

(** Without the word [constructor] the object maps every word of the
    sequence to the number of its occurrences and has no other property. *)
Lemma wordCount_own (ws : list string) (w : string) :
  ~ In "constructor" ws ->
  WordCloud.own (WordCloud.wordCount ws) w
  = if (occurrences ws w =? 0)%Z then None else Some (WordCloud.Num (occurrences ws w)).
Proof.
  induction ws as [|x ws IH] using rev_ind; intros Hc.
  - reflexivity.
  - assert (Hc' : ~ In "constructor" ws) by (intros H; apply Hc, in_or_app; now left).
    assert (Hx : x <> "constructor") by (intros ->; apply Hc, in_or_app; right; now left).
    rewrite wordCount_snoc. unfold WordCloud.countWord. rewrite own_set.
    rewrite occurrences_snoc.
    assert (Hpos : (0 <= occurrences ws w)%Z) by (unfold occurrences; lia).
    destruct (String.eqb_spec w x) as [->|Hwx].
    + unfold WordCloud.get. rewrite (IH Hc').
      destruct (Z.eqb_spec (occurrences ws x) 0) as [E|E].
      * destruct (String.eqb_spec x "constructor"); [congruence|].
        rewrite E. reflexivity.
      * unfold WordCloud.orElse, WordCloud.truthy.
        destruct (Z.eqb_spec (occurrences ws x) 0); [congruence|]. simpl.
        destruct (Z.eqb_spec (occurrences ws x + 1) 0); [lia | reflexivity].
    + rewrite (IH Hc'), Z.add_0_r. reflexivity.
Qed.

Lemma wordCount_entries (ws : list string) (e : string * WordCloud.value) :
  ~ In "constructor" ws ->
  (In e (WordCloud.wordCount ws)
   <-> In (fst e) ws /\ snd e = WordCloud.Num (occurrences ws (fst e))).
Proof.
  intros Hc. destruct e as [w v]. simpl.
  rewrite (own_In _ _ _ (wordCount_NoDup ws)), (wordCount_own ws w Hc).
  rewrite occurrences_pos.
  destruct (Z.eqb_spec (occurrences ws w) 0) as [E|E].
  - split; [discriminate | lia].
  - assert ((0 <= occurrences ws w)%Z) by (unfold occurrences; lia).
    split; [intros [= <-]; split; [lia | reflexivity] | intros [_ ->]; reflexivity].
Qed.

Lemma wordCount_keys (ws : list string) (w : string) :
  In w (map fst (WordCloud.wordCount ws)) <-> In w ws.
Proof.
  induction ws as [|x ws IH] using rev_ind.
  - simpl. tauto.
  - rewrite wordCount_snoc. unfold WordCloud.countWord. rewrite keys_set, in_app_iff.
    destruct (WordCloud.own (WordCloud.wordCount ws) x) eqn:E.
    + rewrite IH. simpl. split; [tauto|]. intros [H|[<-|[]]]; [exact H|].
      apply IH. destruct (in_dec string_dec x (map fst (WordCloud.wordCount ws))) as [H|H];
        [exact H | apply own_None in H; congruence].
    + rewrite in_app_iff, IH. simpl. tauto.
Qed.

Lemma wordCount_length (ws : list string) :
  length (WordCloud.wordCount ws) = length (nodup string_dec ws).
Proof.
  rewrite <- (length_map fst). apply Permutation_length, NoDup_Permutation.
  - apply wordCount_NoDup.
  - apply NoDup_nodup.
  - intros w. now rewrite wordCount_keys, nodup_In.
Qed.

(** ** Sorting and truncation *)

Lemma sign_sub (a b : Z) : JS.sign (inject_Z b - inject_Z a) = (b ?= a)%Z.
Proof.
  unfold JS.sign, Qcompare, Qminus, Qplus, Qopp, inject_Z. simpl.
  rewrite !Z.mul_1_r, (Z.compare_sub b a). reflexivity.
Qed.

Lemma after_numeric (x y : string * WordCloud.value) (a b : Z) :
  snd x = WordCloud.Num a -> snd y = WordCloud.Num b ->
  WordCloud.after x y = (a <? b)%Z.
Proof.
  intros Hx Hy. unfold WordCloud.after, WordCloud.compareFn. rewrite Hx, Hy. simpl.
  rewrite sign_sub, Z.ltb_compare, (Z.compare_antisym a b).
  now destruct (a ?= b)%Z.
Qed.

Lemma insert_perm (x : string * WordCloud.value) (l : list (string * WordCloud.value)) :
  Permutation (WordCloud.insert x l) (x :: l).
Proof.
  induction l as [|y l IH]; simpl.
  - reflexivity.
  - destruct (WordCloud.after x y).
    + rewrite IH. apply perm_swap.
    + reflexivity.
Qed.

Lemma sort_perm (l : list (string * WordCloud.value)) :
  Permutation (WordCloud.sort l) l.
Proof.
  induction l as [|x l IH]; simpl.
  - reflexivity.
  - rewrite insert_perm. now apply perm_skip.
Qed.

Lemma numeric_count (l : list (string * WordCloud.value)) (e : string * WordCloud.value) :
  numeric l -> In e l -> snd e = WordCloud.Num (count e).
Proof.
  intros Hn He. unfold numeric in Hn. rewrite Forall_forall in Hn.
  destruct (Hn e He) as [n Hn']. unfold count. now rewrite Hn'.
Qed.

Lemma insert_sorted (x : string * WordCloud.value) (l : list (string * WordCloud.value)) :
  numeric (x :: l) ->
  StronglySorted (fun a b => (count b <= count a)%Z) l ->
  StronglySorted (fun a b => (count b <= count a)%Z) (WordCloud.insert x l).
Proof.
  intros Hn Hs. induction Hs as [|y l Hs IH Hy]; simpl.
  - repeat constructor.
  - assert (Hx : snd x = WordCloud.Num (count x))
      by (apply (numeric_count _ _ Hn); now left).
    assert (Hy' : snd y = WordCloud.Num (count y))
      by (apply (numeric_count _ _ Hn); right; now left).
    rewrite (after_numeric x y _ _ Hx Hy').
    destruct (Z.ltb_spec (count x) (count y)) as [Hlt|Hge].
    + constructor.
      * apply IH. inversion Hn as [|? ? H1 H2]; subst.
        inversion H2; subst. now constructor.
      * apply (Permutation_Forall (Permutation_sym (insert_perm x l))).
        constructor; [lia | exact Hy].
    + constructor; [now constructor|].
      constructor; [lia|].
      eapply Forall_impl; [|exact Hy]. simpl. intros z Hz. lia.
Qed.

Lemma sort_sorted (l : list (string * WordCloud.value)) :
  numeric l ->
  StronglySorted (fun a b => (count b <= count a)%Z) (WordCloud.sort l).
Proof.
  induction l as [|x l IH]; simpl; intros Hn.
  - constructor.
  - inversion Hn as [|? ? H1 H2]; subst.
    apply insert_sorted; [|now apply IH].
    constructor; [exact H1|].
    apply (Permutation_Forall (Permutation_sym (sort_perm l))). exact H2.
Qed.

Lemma sorted_app {A : Type} (R : A -> A -> Prop) (l1 l2 : list A) :
  StronglySorted R (l1 ++ l2) ->
  forall x y, In x l1 -> In y l2 -> R x y.
Proof.
  induction l1 as [|a l1 IH]; simpl; intros Hs x y Hx Hy.
  - contradiction.
  - inversion Hs as [|? ? Hs' Ha]; subst.
    destruct Hx as [<-|Hx].
    + rewrite Forall_forall in Ha. apply Ha, in_or_app. now right.
    + now apply (IH Hs').
Qed.

Lemma sorted_app_l {A : Type} (R : A -> A -> Prop) (l1 l2 : list A) :
  StronglySorted R (l1 ++ l2) -> StronglySorted R l1.
Proof.
  induction l1 as [|a l1 IH]; simpl; intros Hs.
  - constructor.
  - inversion Hs as [|? ? Hs' Ha]; subst. constructor; [now apply IH|].
    apply Forall_app in Ha. tauto.
Qed.

Lemma firstn_In {A : Type} (n : nat) (l : list A) (x : A) :
  In x (firstn n l) -> In x l.
Proof.
  intros H. rewrite <- (firstn_skipn n l). apply in_or_app. now left.
Qed.

Lemma sorted_firstn {A : Type} (R : A -> A -> Prop) (n : nat) (l : list A) :
  StronglySorted R l -> StronglySorted R (firstn n l).
Proof.
  intros Hs. rewrite <- (firstn_skipn n l) in Hs. now apply sorted_app_l in Hs.
Qed.

(** In a sorted list the last element is below every element, and the
    first above. *)
Lemma sorted_last {A : Type} (R : A -> A -> Prop) (l : list A) (x d z : A) :
  StronglySorted R l -> In x l -> last l d = z -> x = z \/ R x z.
Proof.
  intros Hs Hx Hz. destruct (exists_last (l := l)) as [l' [a ->]].
  { intros ->. contradiction. }
  rewrite last_last in Hz. subst a.
  apply in_app_or in Hx. destruct Hx as [Hx|[<-|[]]]; [right | now left].
  apply (sorted_app R l' [z] Hs); [exact Hx | now left].
Qed.

Lemma sorted_head {A : Type} (R : A -> A -> Prop) (l : list A) (x z : A) :
  StronglySorted R l -> In x l -> hd_error l = Some z -> x = z \/ R z x.
Proof.
  intros Hs Hx Hz. destruct l as [|a l]; [discriminate|].
  injection Hz as ->. inversion Hs as [|? ? _ Ha]; subst.
  destruct Hx as [<-|Hx]; [now left | right].
  rewrite Forall_forall in Ha. now apply Ha.
Qed.

(** ** Display sizes *)

Lemma scale_numeric (w : string) (mn mx f : Z) :
  (mn < mx)%Z ->
  WordCloud.scale (WordCloud.Num mn) (WordCloud.Num mx) (w, WordCloud.Num f)
  = WordCloud.mkWord w (WordCloud.Num f) (JS.ofZ (specSize mn mx f)).
Proof.
  intros H. unfold WordCloud.scale, WordCloud.toNumber, JS.ofZ, JS.sub, JS.div.
  rewrite sign_sub. apply Z.compare_gt_iff in H. rewrite H. reflexivity.
Qed.

(** On a scale whose ends coincide the quotient is 0/0. *)
Lemma scale_uniform (w : string) (f : Z) :
  WordCloud.scale (WordCloud.Num f) (WordCloud.Num f) (w, WordCloud.Num f)
  = WordCloud.mkWord w (WordCloud.Num f) JS.NaN.
Proof.
  unfold WordCloud.scale, WordCloud.toNumber, JS.ofZ, JS.sub, JS.div.
  rewrite sign_sub, Z.compare_refl. reflexivity.
Qed.

Lemma position_bounds (mn mx f : Z) :
  (mn < mx)%Z -> (mn <= f <= mx)%Z ->
  0 <= (inject_Z f - inject_Z mn) / (inject_Z mx - inject_Z mn) <= 1.
Proof.
  intros Hlt [Hlo Hhi].
  rewrite Zlt_Qlt in Hlt. rewrite Zle_Qle in Hlo, Hhi.
  assert (Hd : 0 < inject_Z mx - inject_Z mn) by lra.
  split.
  - apply Qle_shift_div_l; [exact Hd | lra].
  - apply Qle_shift_div_r; [exact Hd | lra].
Qed.

Lemma specSize_bounds (mn mx f : Z) :
  (mn < mx)%Z -> (mn <= f <= mx)%Z -> (12 <= specSize mn mx f <= 36)%Z.
Proof.
  intros Hlt Hf. destruct (position_bounds mn mx f Hlt Hf) as [H0 H1].
  unfold specSize.
  set (t := (inject_Z f - inject_Z mn) / (inject_Z mx - inject_Z mn)) in *.
  clearbody t. split.
  - apply Z.le_trans with (Qfloor (12 + (1 # 2))); [discriminate|].
    apply Qfloor_resp_le. change (inject_Z 12) with 12. change (inject_Z 24) with 24. lra.
  - apply Z.le_trans with (Qfloor (36 + (1 # 2))); [|discriminate].
    apply Qfloor_resp_le. change (inject_Z 12) with 12. change (inject_Z 24) with 24. lra.
Qed.

Lemma specSize_monotone (mn mx f g : Z) :
  (mn < mx)%Z -> (f <= g)%Z -> (specSize mn mx f <= specSize mn mx g)%Z.
Proof.
  intros Hlt Hfg. unfold specSize. apply Qfloor_resp_le.
  apply Qplus_le_l, Qplus_le_r, Qmult_le_compat_r; [|discriminate].
  unfold Qdiv. apply Qmult_le_compat_r.
  - apply Qplus_le_l. rewrite <- Zle_Qle. exact Hfg.
  - apply Qinv_le_0_compat. rewrite Zlt_Qlt in Hlt. lra.
Qed.

Lemma last_map_Some {A : Type} (l : list A) (d : A) :
  l <> [] -> last (map Some l) None = Some (last l d).
Proof.
  induction l as [|a l IH]; [congruence|]. intros _.
  destruct l as [|b l]; [reflexivity|].
  change (last (map Some (b :: l)) None = Some (last (b :: l) d)).
  apply IH. discriminate.
Qed.

Lemma words_nil : WordCloud.words [] = [].
Proof. reflexivity. Qed.

(** The retained entries, without the word [constructor]: counts of at
    least one, in descending order, at most fifty of them. *)
Lemma sortedWords_shape (ws : list string) :
  ~ In "constructor" ws ->
  let sw := WordCloud.sortedWords ws in
  numeric sw /\
  Forall (fun e => In (fst e) ws /\ count e = occurrences ws (fst e)) sw /\
  StronglySorted (fun a b => (count b <= count a)%Z) sw /\
  NoDup (map fst sw) /\
  (length sw <= 50)%nat.
Proof.
  intros Hc sw.
  assert (Hall : Forall (fun e => In (fst e) ws
                           /\ snd e = WordCloud.Num (occurrences ws (fst e)))
                   (WordCloud.sort (WordCloud.wordCount ws))).
  { apply (Permutation_Forall (Permutation_sym (sort_perm _))).
    apply Forall_forall. intros e He. now apply wordCount_entries in He. }
  assert (Hnum : numeric (WordCloud.sort (WordCloud.wordCount ws))).
  { eapply Forall_impl; [|exact Hall]. simpl. intros e [_ He]. eauto. }
  assert (Hnum0 : numeric (WordCloud.wordCount ws)).
  { apply (Permutation_Forall (sort_perm _)). exact Hnum. }
  unfold sw, WordCloud.sortedWords. repeat split.
  - apply Forall_forall. intros e He. apply firstn_In in He.
    unfold numeric in Hnum. rewrite Forall_forall in Hnum. now apply Hnum.
  - apply Forall_forall. intros e He. apply firstn_In in He.
    rewrite Forall_forall in Hall. destruct (Hall e He) as [H1 H2].
    split; [exact H1|]. unfold count. now rewrite H2.
  - apply sorted_firstn. now apply sort_sorted.
  - assert (Hnd : NoDup (map fst (WordCloud.sort (WordCloud.wordCount ws)))).
    { apply (Permutation_NoDup (l := map fst (WordCloud.wordCount ws))).
      - apply Permutation_map, Permutation_sym, sort_perm.
      - apply wordCount_NoDup. }
    rewrite <- (firstn_skipn 50 (WordCloud.sort _)), map_app in Hnd.
    now apply NoDup_app_remove_r in Hnd.
  - apply firstn_le_length.
Qed.

Lemma count_positive (ws : list string) (e : string * WordCloud.value) :
  In (fst e) ws /\ count e = occurrences ws (fst e) -> (1 <= count e)%Z.
Proof. intros [H ->]. now apply occurrences_pos. Qed.

(** The result as a scaling of the retained entries between the counts of
    the last and of the first of them. *)
Lemma wordFrequencies_scaled (comments : list string) :
  ~ In "constructor" (WordCloud.words comments) ->
  let sw := WordCloud.sortedWords (WordCloud.words comments) in
  forall h, hd_error sw = Some h ->
    WordCloud.wordFrequencies comments
    = map (WordCloud.scale (WordCloud.Num (count (last sw h))) (WordCloud.Num (count h))) sw.
Proof.
  intros Hc sw h Hh.
  destruct (sortedWords_shape _ Hc) as (Hnum & Hocc & _).
  fold sw in Hnum, Hocc.
  assert (Hne : sw <> []) by (intros E; rewrite E in Hh; discriminate).
  assert (Hin : In h sw) by (destruct sw; [discriminate | injection Hh as ->; now left]).
  assert (Hlast : In (last sw h) sw).
  { destruct (exists_last Hne) as [l [a E]]. rewrite E, last_last.
    apply in_or_app. right. now left. }
  destruct comments as [|c l].
  { exfalso. apply Hne. reflexivity. }
  unfold WordCloud.wordFrequencies. cbv zeta. fold sw.
  rewrite Hh, (last_map_Some sw h Hne).
  rewrite Forall_forall in Hocc.
  assert (Htruthy : forall e, In e sw ->
            WordCloud.orElse (snd e) (WordCloud.Num 1) = WordCloud.Num (count e)).
  { intros e He. pose proof (count_positive _ _ (Hocc e He)) as Hpos.
    rewrite (numeric_count _ _ Hnum He) at 1.
    unfold WordCloud.orElse, WordCloud.truthy.
    destruct (Z.eqb_spec (count e) 0); [lia | reflexivity]. }
  assert (E1 : WordCloud.second (Some h) = snd h) by now destruct h.
  assert (E2 : WordCloud.second (Some (last sw h)) = snd (last sw h))
    by now destruct (last sw h).
  rewrite E1, E2, (Htruthy _ Hin), (Htruthy _ Hlast). reflexivity.
Qed.

Lemma scale_fields (mn mx : WordCloud.value) (e : string * WordCloud.value) :
  WordCloud.word (WordCloud.scale mn mx e) = fst e /\
  WordCloud.frequency (WordCloud.scale mn mx e) = snd e.
Proof. destruct e as [w f]. split; reflexivity. Qed.

(** Words and frequencies of the result are those of the retained entries. *)
Lemma wordFrequencies_fields (comments : list string) :
  let sw := WordCloud.sortedWords (WordCloud.words comments) in
  map WordCloud.word (WordCloud.wordFrequencies comments) = map fst sw /\
  map WordCloud.frequency (WordCloud.wordFrequencies comments) = map snd sw.
Proof.
  destruct comments as [|c l]; [split; reflexivity|].
  cbv zeta. unfold WordCloud.wordFrequencies. cbv zeta. rewrite !map_map.
  split; apply map_ext; intros e; apply scale_fields.
Qed.

Lemma sorted_map {A B : Type} (R : A -> A -> Prop) (R' : B -> B -> Prop)
    (g : A -> B) (l : list A) :
  (forall a b, R a b -> R' (g a) (g b)) ->
  StronglySorted R l -> StronglySorted R' (map g l).
Proof.
  intros Hg. induction 1 as [|a l Hs IH Ha]; simpl; constructor; trivial.
  apply Forall_map. eapply Forall_impl; [|exact Ha]. apply Hg.
Qed.

Lemma sorted_nth {A : Type} (R : A -> A -> Prop) (l : list A) (i j : nat) (x y : A) :
  StronglySorted R l ->
  nth_error l i = Some x -> nth_error l j = Some y -> (i < j)%nat -> R x y.
Proof.
  intros Hs. revert i j. induction Hs as [|a l Hs IH Ha]; intros i j Hi Hj Hij.
  - destruct i; discriminate.
  - destruct j as [|j]; [lia|]. simpl in Hj. destruct i as [|i]; simpl in Hi.
    + injection Hi as <-. rewrite Forall_forall in Ha.
      apply Ha. now apply nth_error_In in Hj.
    + apply (IH i j); trivial. lia.
Qed.

Lemma last_map {A B : Type} (f : A -> B) (l : list A) (d : A) :
  last (map f l) (f d) = f (last l d).
Proof.
  induction l as [|a l IH]; [reflexivity|].
  destruct l as [|b l]; [reflexivity|].
  change (last (map f (b :: l)) (f d) = f (last (b :: l) d)). exact IH.
Qed.

Lemma numeric_values (l : list (string * WordCloud.value)) :
  numeric l -> map snd l = map WordCloud.Num (map count l).
Proof.
  intros Hn. rewrite map_map. apply map_ext_in. intros e He.
  now apply (numeric_count l).
Qed.

(** ** The ranking *)

(** C5: without the word [constructor] in the corpus, the ranking has at
    most 50 entries and its frequencies are counts of at least one in
    descending order, equal counts being allowed; when the first and the
    last count differ, every size is the integer that the linear scale from
    12 to 36 gives, lies between 12 and 36, and the sizes descend with the
    frequencies. *)
Theorem C5_ranking_order_and_sizes (comments : list string)
    (Hc : ~ In "constructor" (WordCloud.words comments)) :
  let r := WordCloud.wordFrequencies comments in
  (length r <= 50)%nat /\
  exists fs : list Z,
    map WordCloud.frequency r = map WordCloud.Num fs /\
    Forall (fun f => (1 <= f)%Z) fs /\
    descending fs /\
    forall mx mn,
      hd_error fs = Some mx -> last fs mx = mn -> (mn < mx)%Z ->
      map WordCloud.size r = map (fun f => JS.ofZ (specSize mn mx f)) fs /\
      Forall (fun f => (12 <= specSize mn mx f <= 36)%Z) fs /\
      descending (map (specSize mn mx) fs).
Proof.
  intros r. set (sw := WordCloud.sortedWords (WordCloud.words comments)).
  destruct (sortedWords_shape _ Hc) as (Hnum & Hocc & Hsorted & _ & Hlen).
  destruct (wordFrequencies_fields comments) as [Hw Hf].
  fold sw in Hnum, Hocc, Hsorted, Hlen, Hw, Hf. fold r in Hw, Hf.
  split.
  { rewrite <- (length_map WordCloud.word), Hw, length_map. exact Hlen. }
  exists (map count sw).
  assert (Hdesc : descending (map count sw)).
  { unfold descending. eapply sorted_map; [|exact Hsorted]. auto. }
  split; [rewrite Hf; now apply numeric_values|].
  split.
  { apply Forall_map. eapply Forall_impl; [|exact Hocc].
    intros e He. exact (count_positive _ _ He). }
  split; [exact Hdesc|].
  intros mx mn Hmx Hmn Hlt.
  assert (Hh : exists h, hd_error sw = Some h /\ count h = mx).
  { destruct sw as [|h sw']; [discriminate|]. exists h. split; [reflexivity|].
    simpl in Hmx. congruence. }
  destruct Hh as [h [Hh Hch]].
  assert (Hz : count (last sw h) = mn).
  { rewrite <- Hmn, <- Hch. symmetry. apply last_map. }
  assert (Hrange : forall e, In e sw -> (mn <= count e <= mx)%Z).
  { intros e He. split.
    - destruct (sorted_last _ sw e h _ Hsorted He eq_refl) as [->|H]; lia.
    - destruct (sorted_head _ sw e h Hsorted He Hh) as [->|H]; lia. }
  split; [|split].
  - unfold r. rewrite (wordFrequencies_scaled comments Hc h Hh). fold sw.
    rewrite Hz, Hch, !map_map. apply map_ext_in. intros [w v] He.
    pose proof (numeric_count _ _ Hnum He) as Hv. simpl in Hv. rewrite Hv.
    now rewrite scale_numeric.
  - apply Forall_map, Forall_forall. intros e He.
    apply specSize_bounds; [exact Hlt | now apply Hrange].
  - unfold descending in *. eapply sorted_map; [|exact Hdesc].
    intros a b Hab. now apply specSize_monotone.
Qed.

Lemma C5_ranking_order_and_sizes_witness :
  ~ In "constructor" (WordCloud.words ["alpha alpha beta gamma"]) /\
  (length (WordCloud.wordFrequencies ["alpha alpha beta gamma"]) <= 50)%nat /\
  exists fs : list Z,
    map WordCloud.frequency (WordCloud.wordFrequencies ["alpha alpha beta gamma"])
    = map WordCloud.Num fs /\
    descending fs.
Proof.
  assert (Hc : ~ In "constructor" (WordCloud.words ["alpha alpha beta gamma"])).
  { vm_compute. intuition discriminate. }
  split; [exact Hc|].
  destruct (C5_ranking_order_and_sizes ["alpha alpha beta gamma"] Hc)
    as (Hlen & fs & Hf & _ & Hd & _).
  split; [exact Hlen|]. exists fs. split; [exact Hf | exact Hd].
Defined.

(** The ranking as the specification states it, strictly descending, fails
    on a corpus with two words of the same count. *)
Lemma C5_strict_order_fails :
  ~ (let r := WordCloud.wordFrequencies ["alpha alpha beta gamma"] in
     (length r <= 50)%nat /\
     exists fs ss : list Z,
       map WordCloud.frequency r = map WordCloud.Num fs /\
       map WordCloud.size r = map JS.ofZ ss /\
       StronglySorted (fun a b => (b < a)%Z) fs /\
       descending ss /\
       Forall (fun k => (12 <= k <= 36)%Z) ss).
Proof.
  cbv zeta. intros (_ & fs & ss & Hf & _ & Hs & _).
  vm_compute in Hf.
  destruct fs as [|a [|b [|c [|d fs]]]]; try discriminate Hf.
  injection Hf as <- <- <-.
  inversion Hs as [|? ? Hs' _]; subst. inversion Hs' as [|? ? _ Hb]; subst.
  inversion Hb as [|? ? Hlt _]; subst. lia.
Qed.

(** On that corpus the order and the sizes are these. *)
Lemma ranking_with_tie :
  WordCloud.wordFrequencies ["alpha alpha beta gamma"]
  = [WordCloud.mkWord "alpha" (WordCloud.Num 2) (JS.ofZ 36);
     WordCloud.mkWord "beta" (WordCloud.Num 1) (JS.ofZ 12);
     WordCloud.mkWord "gamma" (WordCloud.Num 1) (JS.ofZ 12)].
Proof. vm_compute. reflexivity. Qed.

(** C3: on the one-word corpus the first and the last count coincide, the
    normalised value is 0/0 and the size is [NaN], no integer between 12
    and 36. *)
Theorem C3_uniform_corpus_size_is_NaN :
  WordCloud.wordFrequencies ["transparency"]
  = [WordCloud.mkWord "transparency" (WordCloud.Num 1) JS.NaN].
Proof. vm_compute. reflexivity. Qed.

(** The same on every corpus whose retained counts are all equal. *)
Lemma uniform_sizes_NaN (comments : list string) (f : Z) :
  ~ In "constructor" (WordCloud.words comments) ->
  Forall (fun e => WordCloud.frequency e = WordCloud.Num f)
    (WordCloud.wordFrequencies comments) ->
  Forall (fun e => WordCloud.size e = JS.NaN) (WordCloud.wordFrequencies comments).
Proof.
  intros Hc Hall. set (sw := WordCloud.sortedWords (WordCloud.words comments)).
  destruct (wordFrequencies_fields comments) as [_ Hf]. fold sw in Hf.
  assert (Hsw : forall e, In e sw -> snd e = WordCloud.Num f).
  { intros e He. apply (in_map snd) in He. rewrite <- Hf in He.
    apply in_map_iff in He. destruct He as [x [<- Hx]].
    rewrite Forall_forall in Hall. now apply Hall. }
  destruct sw as [|h sw'] eqn:E.
  - assert (WordCloud.wordFrequencies comments = []) as ->; [|constructor].
    apply map_eq_nil with (f := WordCloud.frequency). exact Hf.
  - assert (Hh : hd_error sw = Some h) by now rewrite E.
    rewrite (wordFrequencies_scaled comments Hc h); [|exact Hh]. fold sw.
    assert (Hin : In h sw) by (rewrite E; now left).
    assert (Hlast : In (last sw h) sw).
    { rewrite E. destruct (exists_last (l := h :: sw')) as [l [a Ha]]; [discriminate|].
      rewrite Ha, last_last. apply in_or_app. right. now left. }
    rewrite <- E in Hsw.
    unfold count. rewrite (Hsw _ Hin), (Hsw _ Hlast).
    apply Forall_map, Forall_forall. intros [w v] He.
    pose proof (Hsw _ He) as Hv. simpl in Hv. rewrite Hv, scale_uniform. reflexivity.
Qed.

Lemma has_In (l : list string) (w : string) :
  WordCloud.has l w = true <-> In w l.
Proof.
  unfold WordCloud.has. rewrite existsb_exists. split.
  - intros [x [Hx E]]. apply String.eqb_eq in E. now subst.
  - intros H. exists w. split; [exact H | apply String.eqb_refl].
Qed.

(** C7: without the word [constructor] in the corpus, every returned word
    is a token and its frequency the number of its occurrences; no returned
    word occurs less often than the 50th-ranked one; every token that
    occurs more often than the 50th-ranked word is returned; and when there
    are at most 50 distinct tokens the returned words are all the tokens.
    Tokens that occur exactly as often as the 50th-ranked word may be cut
    off. *)
Theorem C7_truncation (comments : list string)
    (Hc : ~ In "constructor" (WordCloud.words comments)) :
  let ws := WordCloud.words comments in
  let r := WordCloud.wordFrequencies comments in
  (forall e, In e r ->
     In (WordCloud.word e) ws /\
     WordCloud.frequency e = WordCloud.Num (occurrences ws (WordCloud.word e))) /\
  NoDup (map WordCloud.word r) /\
  (forall e50, nth_error r 49 = Some e50 ->
     (forall e, In e r ->
        (occurrences ws (WordCloud.word e50) <= occurrences ws (WordCloud.word e))%Z) /\
     (forall w, In w ws ->
        (occurrences ws (WordCloud.word e50) < occurrences ws w)%Z ->
        In w (map WordCloud.word r))) /\
  ((length (nodup string_dec ws) <= 50)%nat ->
   forall w, In w (map WordCloud.word r) <-> In w ws).
Proof.
  intros ws r. set (sw := WordCloud.sortedWords ws).
  destruct (sortedWords_shape _ Hc) as (Hnum & Hocc & Hsorted & Hnd & Hlen).
  destruct (wordFrequencies_fields comments) as [Hw Hf].
  fold ws in Hnum, Hocc, Hsorted, Hnd, Hlen, Hw, Hf.
  fold sw in Hnum, Hocc, Hsorted, Hnd, Hlen, Hw, Hf. fold r in Hw, Hf.
  rewrite Forall_forall in Hocc.
  assert (Hentry : forall i e, nth_error r i = Some e ->
            exists e0, nth_error sw i = Some e0 /\
                       WordCloud.word e = fst e0 /\ WordCloud.frequency e = snd e0).
  { intros i e He.
    pose proof (map_nth_error WordCloud.word i r He) as H1.
    pose proof (map_nth_error WordCloud.frequency i r He) as H2.
    rewrite Hw in H1. rewrite Hf in H2.
    destruct (nth_error sw i) as [e0|] eqn:E0.
    - exists e0. split; [reflexivity|].
      rewrite (map_nth_error fst i sw E0) in H1.
      rewrite (map_nth_error snd i sw E0) in H2. split; congruence.
    - apply nth_error_None in E0.
      assert (i < length (map fst sw))%nat by (apply nth_error_Some; congruence).
      rewrite length_map in *. lia. }
  assert (Hin : forall e, In e r ->
            exists e0, In e0 sw /\
                       WordCloud.word e = fst e0 /\ WordCloud.frequency e = snd e0).
  { intros e He. apply In_nth_error in He. destruct He as [i Hi].
    destruct (Hentry i e Hi) as [e0 [H0 H1]]. exists e0.
    split; [now apply nth_error_In in H0 | exact H1]. }
  split; [|split; [|split]].
  - intros e He. destruct (Hin e He) as [e0 [H0 [H1 H2]]].
    destruct (Hocc e0 H0) as [H3 H4].
    rewrite H1, H2. split; [exact H3|].
    rewrite (numeric_count _ _ Hnum H0). now rewrite H4.
  - now rewrite Hw.
  - intros e50 H50. destruct (Hentry 49%nat e50 H50) as [z [Hz [Hzw _]]].
    assert (Hzin : In z sw) by now apply nth_error_In in Hz.
    destruct (Hocc z Hzin) as [_ Hzc]. rewrite Hzw, <- Hzc.
    split.
    + intros e He. destruct (Hin e He) as [e0 [H0 [H1 _]]].
      destruct (Hocc e0 H0) as [_ H0c]. rewrite H1, <- H0c.
      apply In_nth_error in H0. destruct H0 as [i Hi].
      assert (i < 50)%nat.
      { assert (i < length sw)%nat by (apply nth_error_Some; congruence). lia. }
      destruct (Nat.eq_dec i 49) as [->|Hne].
      * assert (e0 = z) by congruence. subst. lia.
      * apply (sorted_nth _ sw i 49 e0 z Hsorted Hi Hz). lia.
    + intros w Hwin Hlt.
      assert (Hsrc : In (w, WordCloud.Num (occurrences ws w))
                       (WordCloud.sort (WordCloud.wordCount ws))).
      { apply (Permutation_in _ (Permutation_sym (sort_perm _))).
        apply wordCount_entries; [exact Hc | now split]. }
      rewrite <- (firstn_skipn 50 (WordCloud.sort _)) in Hsrc.
      apply in_app_or in Hsrc. destruct Hsrc as [Hfst|Hrest].
      * rewrite Hw. apply (in_map fst) in Hfst. exact Hfst.
      * exfalso.
        assert (Hall : numeric (WordCloud.wordCount ws)).
        { apply Forall_forall. intros e He.
          apply (wordCount_entries ws e Hc) in He. destruct He as [_ He]. eauto. }
        pose proof (sort_sorted _ Hall) as Hs.
        rewrite <- (firstn_skipn 50 (WordCloud.sort _)) in Hs.
        pose proof (sorted_app _ _ _ Hs z _ Hzin Hrest) as Hle.
        unfold count at 1 in Hle. simpl in Hle. lia.
  - intros Hsmall w. rewrite Hw. unfold sw, WordCloud.sortedWords.
    rewrite firstn_all2.
    + rewrite <- (wordCount_keys ws w). split; apply Permutation_in, Permutation_map.
      * apply sort_perm.
      * apply Permutation_sym, sort_perm.
    + rewrite (Permutation_length (sort_perm _)), wordCount_length. exact Hsmall.
Qed.

Lemma C7_truncation_witness :
  ~ In "constructor" (WordCloud.words fiftyOneWords) /\
  NoDup (map WordCloud.word (WordCloud.wordFrequencies fiftyOneWords)).
Proof.
  assert (Hc : ~ In "constructor" (WordCloud.words fiftyOneWords)).
  { rewrite <- has_In. vm_compute. discriminate. }
  split; [exact Hc|].
  exact (proj1 (proj2 (C7_truncation fiftyOneWords Hc))).
Defined.

(** With fifty-one words of one occurrence each, the word that is cut off
    occurs as often as the 50th-ranked one: the returned words are not all
    the tokens of at least that frequency. *)
Lemma C7_tie_at_the_cut :
  ~ (let ws := WordCloud.words fiftyOneWords in
     let r := WordCloud.wordFrequencies fiftyOneWords in
     forall e50, nth_error r 49 = Some e50 ->
     forall w, In w (map WordCloud.word r)
               <-> In w ws /\
                   (occurrences ws (WordCloud.word e50) <= occurrences ws w)%Z).
Proof.
  cbv zeta. intros H.
  specialize (H (WordCloud.mkWord "cax" (WordCloud.Num 1) JS.NaN)).
  assert (E : nth_error (WordCloud.wordFrequencies fiftyOneWords) 49
              = Some (WordCloud.mkWord "cax" (WordCloud.Num 1) JS.NaN))
    by (vm_compute; reflexivity).
  destruct (H E "cay") as [_ Hback].
  assert (Hin : In "cay" (map WordCloud.word (WordCloud.wordFrequencies fiftyOneWords))).
  { apply Hback. split.
    - rewrite <- has_In. vm_compute. reflexivity.
    - vm_compute. discriminate. }
  rewrite <- has_In in Hin. vm_compute in Hin. discriminate Hin.
Qed.

(** C9: the ranking that a rendering of the page shows depends on the
    comment list alone: two renderings of the same list show the same
    ranking (words, frequencies, order and sizes), whatever the random
    source returns and however many numbers were drawn before. *)
Theorem C9_ranking_deterministic (random random' : nat -> Q)
    (comments : list string) (k k' : nat) :
  Index.wordCloud (fst (Index.render random comments k))
  = Index.wordCloud (fst (Index.render random' comments k')).
Proof.
  unfold Index.render, Rand.bind, Rand.ret.
  destruct (SentimentAnalysis.sentimentResults random comments k).
  destruct (SentimentAnalysis.sentimentResults random' comments k').
  reflexivity.
Qed.

(** The classification of the same rendering does depend on the source. *)
Lemma classification_depends_on_random :
  Index.sentiment (fst (Index.render half scenario 0%nat))
  <> Index.sentiment (fst (Index.render quarter scenario 0%nat)).
Proof. vm_compute. intros H. discriminate H. Qed.

(** ** The tokenizer *)

Lemma mapString_length (f : ascii -> ascii) (s : string) :
  String.length (JS.mapString f s) = String.length s.
Proof. induction s as [|c s IH]; simpl; [reflexivity | now rewrite IH]. Qed.

Lemma mapString_get (f : ascii -> ascii) (s : string) (i : nat) (c : ascii) :
  String.get i s = Some c -> String.get i (JS.mapString f s) = Some (f c).
Proof.
  revert i. induction s as [|a s IH]; intros i; simpl; [discriminate|].
  destruct i as [|i]; [intros [= ->]; reflexivity | apply IH].
Qed.

Lemma mapString_ext (f g : ascii -> ascii) (s : string) :
  (forall i c, String.get i s = Some c -> f c = g c) ->
  JS.mapString f s = JS.mapString g s.
Proof.
  induction s as [|a s IH]; intros H; simpl; [reflexivity|].
  rewrite (H 0%nat a eq_refl), IH; [reflexivity|].
  intros i c Hi. apply (H (S i)). exact Hi.
Qed.

Lemma allChars_app (p : ascii -> bool) (s t : string) :
  JS.allChars p (s ++ t) = JS.allChars p s && JS.allChars p t.
Proof.
  induction s as [|c s IH]; simpl; [reflexivity|]. now rewrite IH, andb_assoc.
Qed.

Lemma allChars_mapString (p : ascii -> bool) (f : ascii -> ascii) (s : string) :
  (forall c, p (f c) = true) -> JS.allChars p (JS.mapString f s) = true.
Proof.
  intros H. induction s as [|c s IH]; simpl; [reflexivity|]. now rewrite H, IH.
Qed.

(** The pieces of a text of word characters and white space consist of
    word characters. *)
Lemma splitRuns_pieces (s cur : string) (inRun : bool) :
  JS.allChars (fun c => JS.isWordChar c || JS.isSpace c) s = true ->
  JS.allChars JS.isWordChar cur = true ->
  Forall (fun p => JS.allChars JS.isWordChar p = true) (JS.splitRuns s cur inRun).
Proof.
  revert cur inRun. induction s as [|c s IH]; intros cur inRun Hs Hcur; simpl.
  - now constructor.
  - simpl in Hs. apply andb_true_iff in Hs. destruct Hs as [Hc Hs].
    destruct (JS.isSpace c) eqn:E.
    + destruct inRun; [|constructor; trivial]; now apply IH.
    + apply IH; [exact Hs|]. rewrite allChars_app, Hcur. simpl.
      rewrite orb_false_r in Hc. now rewrite Hc.
Qed.

(** Dropping the empty pieces of [split] leaves the maximal runs. *)
Lemma splitRuns_runs (s cur : string) (inRun : bool) :
  (inRun = true -> cur = "") ->
  filter (fun p => negb (String.eqb p "")) (JS.splitRuns s cur inRun) = runs s cur.
Proof.
  revert cur inRun. induction s as [|c s IH]; intros cur inRun H; simpl.
  - now destruct (String.eqb cur "").
  - destruct (JS.isSpace c).
    + destruct inRun.
      * rewrite (H eq_refl). simpl. now apply IH.
      * simpl. destruct (String.eqb cur ""); simpl; now rewrite IH.
    + apply IH. discriminate.
Qed.

Lemma filter_filter {A : Type} (f g : A -> bool) (l : list A) :
  (forall x, f x = true -> g x = true) ->
  filter f (filter g l) = filter f l.
Proof.
  intros H. induction l as [|x l IH]; simpl; [reflexivity|].
  destruct (g x) eqn:G; simpl; rewrite IH; [reflexivity|].
  destruct (f x) eqn:F; [|reflexivity]. apply H in F. congruence.
Qed.

Lemma meaningful_alpha (w : string) :
  WordCloud.isMeaningfulWord w = true ->
  w <> "" /\ JS.allChars JS.isAlpha w = true.
Proof.
  unfold WordCloud.isMeaningfulWord.
  destruct (String.length w <? 3)%nat; [discriminate|].
  destruct (WordCloud.has WordCloud.stopWords w); [discriminate|].
  destruct (WordCloud.isNumericOrDate w); [discriminate|].
  destruct (String.eqb_spec w "") as [->|Hne]; simpl; [discriminate|].
  destruct (JS.allChars JS.isAlpha w); simpl; [|discriminate].
  intros _. split; [exact Hne | reflexivity].
Qed.

(** On a text without digits and underscores the replacement is the one
    that the specification words. *)
Lemma blankNonWord_without_digits (s : string) :
  (forall i c, String.get i s = Some c ->
     JS.isDigit c = false /\ Nat.eqb (JS.code c) 95 = false) ->
  WordCloud.blankNonWord s = specBlank s.
Proof.
  intros H. apply mapString_ext. intros i c Hi.
  destruct (H i c Hi) as [Hd Hu]. unfold JS.isWordChar. rewrite Hd, Hu.
  now rewrite !orb_false_r.
Qed.

(** C2: in the tokenizer every character of the lower-cased text that is
    neither a word character (ASCII letter, digit, underscore) nor white
    space is replaced by one space, every other character is kept, digits
    and underscores included; the candidate tokens are the pieces of that
    text between its runs of white space, they consist of word characters,
    and the tokens that pass the filter are the meaningful ones among its
    maximal runs and consist of letters. *)
Theorem C2_replacement_keeps_word_characters (comments : list string) :
  let text := WordCloud.allText comments in
  let text' := WordCloud.blankNonWord text in
  String.length text' = String.length text /\
  (forall i c, String.get i text = Some c ->
     String.get i text'
     = Some (if JS.isAlpha c || JS.isDigit c || Nat.eqb (JS.code c) 95 || JS.isSpace c
             then c else " "%char)) /\
  WordCloud.candidates comments = JS.splitWhitespace text' /\
  Forall (fun p => JS.allChars JS.isWordChar p = true) (WordCloud.candidates comments) /\
  WordCloud.words comments = filter WordCloud.isMeaningfulWord (runs text' "") /\
  Forall (fun w => JS.allChars JS.isAlpha w = true) (WordCloud.words comments).
Proof.
  intros text text'. split; [apply mapString_length|].
  split.
  { intros i c Hi. unfold text', WordCloud.blankNonWord.
    rewrite (mapString_get _ _ _ _ Hi). reflexivity. }
  split; [reflexivity|]. split; [|split].
  - apply splitRuns_pieces; [|reflexivity].
    apply allChars_mapString. intros c.
    destruct (JS.isWordChar c || JS.isSpace c) eqn:E; [exact E | reflexivity].
  - unfold WordCloud.words, WordCloud.candidates, JS.splitWhitespace. fold text text'.
    rewrite <- (splitRuns_runs text' "" false) by discriminate.
    symmetry. apply filter_filter. intros w Hw.
    apply meaningful_alpha in Hw. destruct Hw as [Hne _].
    now destruct (String.eqb_spec w "").
  - apply Forall_forall. intros w Hw. apply filter_In in Hw.
    now apply meaningful_alpha.
Qed.

(** A digit is not replaced by a space: the text [abc1def] stays one
    candidate token, which the filter rejects, where the specification's
    wording gives the two tokens [abc] and [def]. *)
Lemma C2_digits_survive_replacement :
  ~ (WordCloud.candidates ["abc1def"] = specCandidates ["abc1def"]).
Proof. vm_compute. intros H. discriminate H. Qed.

Lemma digits_survive_tokens :
  WordCloud.candidates ["abc1def"] = ["abc1def"] /\
  specCandidates ["abc1def"] = ["abc"; "def"] /\
  WordCloud.words ["abc1def"] = [] /\
  filter WordCloud.isMeaningfulWord (specCandidates ["abc1def"]) = ["abc"; "def"].
Proof. repeat split. Qed.

(** The filter on the sample tokens of the specification. *)
Example filter_samples :
  map WordCloud.isMeaningfulWord
    ["2023"; "12/04/2023"; "a1b2c3"; "the"; "ing"; "transparency"; "compliance"]
  = [false; false; false; false; false; true; true].
Proof. reflexivity. Qed.

(** The pieces of [split] with white space at both ends of the text. *)
Example split_samples :
  JS.splitWhitespace "" = [""] /\
  JS.splitWhitespace " " = [""; ""] /\
  JS.splitWhitespace "  a  b " = [""; "a"; "b"; ""].
Proof. repeat split. Qed.

(** The word [constructor] is counted as a text, not as a number. *)
Example constructor_count :
  WordCloud.wordCount ["constructor"; "constructor"]
  = [("constructor", WordCloud.Str "function Object() { [native code] }11")].
Proof. reflexivity. Qed.

(** ** The classifier: results, counts and charts *)

Lemma mapM_Forall {A B : Type} (P : B -> Prop) (f : A -> Rand.M B) (l : list A) (k : nat) :
  (forall x j, P (fst (f x j))) -> Forall P (fst (Rand.mapM f l k)).
Proof.
  intros H. revert k. induction l as [|x l IH]; intros k; simpl.
  - constructor.
  - unfold Rand.bind. pose proof (H x k) as Hx.
    destruct (f x k) as [y k1]. pose proof (IH k1) as Hl.
    destruct (Rand.mapM f l k1) as [ys k2]. simpl in *. now constructor.
Qed.

Lemma min_cap (x : Q) :
  7 # 10 <= x -> 7 # 10 <= JS.min (95 # 100) x /\ JS.min (95 # 100) x <= 95 # 100.
Proof.
  intros H. unfold JS.min. destruct (Qle_bool (95 # 100) x) eqn:E.
  - split; [discriminate | apply Qle_refl].
  - split; [exact H|].
    apply Qlt_le_weak, Qnot_le_lt. intros Hle. apply Qle_bool_iff in Hle. congruence.
Qed.

(** X1: every confidence that the classifier returns lies between 0.7 and
    0.95: a winning label has at least one keyword, and a tie draws from
    0.7 to 0.9. *)
Theorem confidence_range (random : nat -> Q)
    (Hrandom : forall k, 0 <= random k /\ random k < 1)
    (comments : list string) (k : nat) :
  Forall (fun r => 7 # 10 <= SentimentAnalysis.confidence r
                   /\ SentimentAnalysis.confidence r <= 95 # 100)
    (fst (SentimentAnalysis.sentimentResults random comments k)).
Proof.
  apply mapM_Forall. intros c j. unfold SentimentAnalysis.classify.
  set (a := SentimentAnalysis.positiveMatches c).
  set (b := SentimentAnalysis.negativeMatches c).
  destruct (Nat.ltb_spec b a) as [Hba|Hba]; simpl.
  - apply min_cap.
    assert (H : inject_Z 1 <= inject_Z (Z.of_nat a)) by (rewrite <- Zle_Qle; lia).
    change (inject_Z 1) with 1 in H. lra.
  - destruct (Nat.ltb_spec a b) as [Hab|Hab]; simpl.
    + apply min_cap.
      assert (H : inject_Z 1 <= inject_Z (Z.of_nat b)) by (rewrite <- Zle_Qle; lia).
      change (inject_Z 1) with 1 in H. lra.
    + destruct (Hrandom j) as [H0 H1]. split; lra.
Qed.

Lemma confidence_range_witness :
  (forall k, 0 <= half k /\ half k < 1) /\
  Forall (fun r => 7 # 10 <= SentimentAnalysis.confidence r
                   /\ SentimentAnalysis.confidence r <= 95 # 100)
    (fst (SentimentAnalysis.sentimentResults half scenario 0%nat)).
Proof.
  assert (Hh : forall k, 0 <= half k /\ half k < 1).
  { intros k; unfold half; split; [discriminate | reflexivity]. }
  split; [exact Hh | exact (confidence_range half Hh scenario 0%nat)].
Defined.

(** The copy with stakeholder types classifies as the plain copy does and
    adds the type of the position. *)
Lemma charts_classify (random : nat -> Q) (i : nat) (c : string) (k : nat) :
  SentimentCharts.classify random i c k
  = (let r := fst (SentimentAnalysis.classify random c k) in
     SentimentCharts.mkResult (SentimentAnalysis.comment r) (SentimentAnalysis.sentiment r)
       (SentimentAnalysis.confidence r) (SentimentCharts.typeAt i),
     snd (SentimentAnalysis.classify random c k)).
Proof.
  unfold SentimentCharts.classify, SentimentAnalysis.classify.
  change (length (filter (fun word => JS.includes (JS.toLowerCase c) word)
                    SentimentAnalysis.positiveWords))
    with (SentimentAnalysis.positiveMatches c).
  change (length (filter (fun word => JS.includes (JS.toLowerCase c) word)
                    SentimentAnalysis.negativeWords))
    with (SentimentAnalysis.negativeMatches c).
  cbv zeta.
  destruct (SentimentAnalysis.negativeMatches c <? SentimentAnalysis.positiveMatches c)%nat;
    [reflexivity|].
  destruct (SentimentAnalysis.positiveMatches c <? SentimentAnalysis.negativeMatches c)%nat;
    reflexivity.
Qed.

Lemma classify_comment (random : nat -> Q) (c : string) (k : nat) :
  SentimentAnalysis.comment (fst (SentimentAnalysis.classify random c k)) = c.
Proof.
  unfold SentimentAnalysis.classify.
  destruct (_ <? _)%nat; [reflexivity|]. destruct (_ <? _)%nat; reflexivity.
Qed.

(** A tie draws one random number, a winning label none. *)
Lemma classify_draws (random : nat -> Q) (c : string) (k : nat) :
  snd (SentimentAnalysis.classify random c k)
  = match SentimentAnalysis.sentiment (fst (SentimentAnalysis.classify random c k)) with
    | SentimentAnalysis.modification => S k
    | _ => k
    end.
Proof.
  unfold SentimentAnalysis.classify.
  destruct (_ <? _)%nat; [reflexivity|]. destruct (_ <? _)%nat; reflexivity.
Qed.

(** The fields of the results from the position [i] on. *)
Lemma mapIndexed_fields (random : nat -> Q) (comments : list string) (i k : nat) :
  let run := SentimentCharts.mapIndexed (SentimentCharts.classify random) i comments k in
  map SentimentCharts.comment (fst run) = comments /\
  map SentimentCharts.stakeholderType (fst run)
  = map SentimentCharts.typeAt (seq i (length comments)) /\
  snd run = (k + labelled isModification (fst run))%nat.
Proof.
  revert k i. induction comments as [|c l IH]; intros k i; cbv zeta.
  - simpl. repeat split. unfold labelled. simpl. lia.
  - simpl SentimentCharts.mapIndexed. unfold Rand.bind.
    rewrite charts_classify. cbv zeta.
    pose proof (classify_comment random c k) as Hc.
    pose proof (classify_draws random c k) as Hd.
    destruct (SentimentAnalysis.classify random c k) as [r k1]. simpl in Hc, Hd |- *.
    specialize (IH k1 (S i)). cbv zeta in IH.
    destruct (SentimentCharts.mapIndexed (SentimentCharts.classify random) (S i) l k1)
      as [rs k2].
    simpl in IH |- *. destruct IH as (H1 & H2 & H3).
    rewrite H1, H2, Hc. repeat split.
    unfold labelled in *. simpl. rewrite H3, Hd.
    destruct (SentimentAnalysis.sentiment r); simpl; lia.
Qed.

(** X2: the classifier returns one result per comment, in the order of the
    comments and each with its comment; the stakeholder types go round the
    six types by position; and the run draws one random number per
    modification result and no other. *)
Theorem results_shape (random : nat -> Q) (comments : list string) (k : nat) :
  let rs := fst (SentimentCharts.sentimentResults random comments k) in
  map SentimentCharts.comment rs = comments /\
  map SentimentCharts.stakeholderType rs
  = map SentimentCharts.typeAt (seq 0 (length comments)) /\
  snd (SentimentCharts.sentimentResults random comments k)
  = (k + labelled isModification rs)%nat.
Proof.
  unfold SentimentCharts.sentimentResults.
  destruct (mapIndexed_fields random comments 0 k) as (Hcomments & Htypes & Hdraws).
  cbv zeta. split; [exact Hcomments | split; [exact Htypes | exact Hdraws]].
Qed.

Lemma fold_bump (results : list SentimentCharts.SentimentResult)
    (acc : SentimentCharts.Counts) :
  fold_left (fun acc result => SentimentCharts.bump acc (SentimentCharts.sentiment result))
    results acc
  = SentimentCharts.mkCounts
      (SentimentCharts.agreementCount acc + labelled isAgreement results)
      (SentimentCharts.removalCount acc + labelled isRemoval results)
      (SentimentCharts.modificationCount acc + labelled isModification results).
Proof.
  revert acc. induction results as [|r l IH]; intros acc.
  - unfold labelled. simpl. destruct acc. simpl. now rewrite !Nat.add_0_r.
  - simpl fold_left. rewrite IH. unfold labelled. simpl.
    destruct (SentimentCharts.sentiment r); simpl; f_equal; lia.
Qed.

Lemma labelled_total (results : list SentimentCharts.SentimentResult) :
  (labelled isAgreement results + labelled isRemoval results
   + labelled isModification results)%nat = length results.
Proof.
  unfold labelled. induction results as [|r l IH]; simpl; [reflexivity|].
  destruct (SentimentCharts.sentiment r); simpl; lia.
Qed.

Lemma counts_labelled (results : list SentimentCharts.SentimentResult) :
  let c := SentimentCharts.sentimentCounts results in
  SentimentCharts.count (SentimentCharts.agreementShare c) = labelled isAgreement results /\
  SentimentCharts.count (SentimentCharts.removalShare c) = labelled isRemoval results /\
  SentimentCharts.count (SentimentCharts.modificationShare c)
  = labelled isModification results.
Proof.
  cbv zeta. unfold SentimentCharts.sentimentCounts. rewrite fold_bump. simpl.
  repeat split.
Qed.

(** X3: the three counts of the distribution are the numbers of results
    with the labels agreement, removal and modification, and they add up to
    the number of results. *)
Theorem sentimentCounts_counts (results : list SentimentCharts.SentimentResult) :
  let c := SentimentCharts.sentimentCounts results in
  SentimentCharts.count (SentimentCharts.agreementShare c) = labelled isAgreement results /\
  SentimentCharts.count (SentimentCharts.removalShare c) = labelled isRemoval results /\
  SentimentCharts.count (SentimentCharts.modificationShare c)
  = labelled isModification results /\
  (SentimentCharts.count (SentimentCharts.agreementShare c)
   + SentimentCharts.count (SentimentCharts.removalShare c)
   + SentimentCharts.count (SentimentCharts.modificationShare c))%nat = length results.
Proof.
  cbv zeta. destruct (counts_labelled results) as (-> & -> & ->).
  repeat split. apply labelled_total.
Qed.

Lemma sign_inject (z : Z) : JS.sign (inject_Z z) = (z ?= 0)%Z.
Proof. unfold JS.sign, Qcompare, inject_Z. simpl. now rewrite Z.mul_1_r. Qed.





(** ** The stakeholder groups *)

Lemma lookup_store (g : SentimentCharts.groups) (k k' : string) (v : SentimentCharts.Group) :
  SentimentCharts.lookup (SentimentCharts.store g k v) k'
  = if String.eqb k' k then Some v else SentimentCharts.lookup g k'.
Proof.
  induction g as [|[k0 v0] g IH]; simpl.
  - reflexivity.
  - destruct (String.eqb_spec k k0) as [->|Hk]; simpl.
    + destruct (String.eqb_spec k' k0); reflexivity.
    + rewrite IH. destruct (String.eqb_spec k' k0) as [->|Hk'].
      * destruct (String.eqb_spec k0 k); [congruence | reflexivity].
      * reflexivity.
Qed.

Lemma store_store (g : SentimentCharts.groups) (k : string) (v v' : SentimentCharts.Group) :
  SentimentCharts.store (SentimentCharts.store g k v) k v' = SentimentCharts.store g k v'.
Proof.
  induction g as [|[k0 v0] g IH]; simpl.
  - now rewrite String.eqb_refl.
  - destruct (String.eqb_spec k k0) as [->|Hk]; simpl.
    + now rewrite String.eqb_refl.
    + destruct (String.eqb_spec k k0); [congruence|]. now rewrite IH.
Qed.

Lemma lookup_None (g : SentimentCharts.groups) (k : string) :
  SentimentCharts.lookup g k = None <-> ~ In k (map fst g).
Proof.
  induction g as [|[k0 v0] g IH]; simpl.
  - tauto.
  - destruct (String.eqb_spec k k0) as [->|Hk].
    + split; [discriminate | tauto].
    + rewrite IH. split; [intros H [E|E]; [congruence | tauto] | tauto].
Qed.

Lemma keys_store (g : SentimentCharts.groups) (k : string) (v : SentimentCharts.Group) :
  map fst (SentimentCharts.store g k v)
  = match SentimentCharts.lookup g k with
    | Some _ => map fst g
    | None => map fst g ++ [k]
    end.
Proof.
  induction g as [|[k0 v0] g IH]; simpl.
  - reflexivity.
  - destruct (String.eqb_spec k k0) as [->|Hk]; simpl.
    + reflexivity.
    + rewrite IH. now destruct (SentimentCharts.lookup g k).
Qed.

(** One step of the grouping stores the counted group of the result's
    type, starting from zero for a new type. *)
Lemma addResult_store (acc : SentimentCharts.groups) (r : SentimentCharts.SentimentResult) :
  SentimentCharts.addResult acc r
  = SentimentCharts.store acc (SentimentCharts.stakeholderType r)
      (counted (match SentimentCharts.lookup acc (SentimentCharts.stakeholderType r) with
                | Some v => v
                | None => SentimentCharts.mkGroup 0 0 0 0
                end)
               (SentimentCharts.sentiment r)).
Proof.
  unfold SentimentCharts.addResult, counted.
  destruct (SentimentCharts.lookup acc (SentimentCharts.stakeholderType r)) as [v|] eqn:E.
  - rewrite E. cbv zeta.
    repeat (rewrite lookup_store || rewrite String.eqb_refl || rewrite store_store).
    reflexivity.
  - cbv zeta.
    repeat (rewrite lookup_store || rewrite String.eqb_refl || rewrite store_store).
    reflexivity.
Qed.

Lemma total_app (l l' : list nat) : total (l ++ l') = (total l + total l')%nat.
Proof. unfold total. induction l as [|x l IH]; simpl; [reflexivity | rewrite IH; lia]. Qed.

Lemma column_store (f : SentimentCharts.Group -> nat) (g : SentimentCharts.groups)
    (k : string) (v : SentimentCharts.Group) :
  (column f (SentimentCharts.store g k v)
   + match SentimentCharts.lookup g k with Some v0 => f v0 | None => 0 end)%nat
  = (column f g + f v)%nat.
Proof.
  unfold column, total. induction g as [|[k0 v0] g IH]; simpl.
  - lia.
  - destruct (String.eqb_spec k k0) as [->|Hk]; simpl; lia.
Qed.

Lemma column_addResult (f : SentimentCharts.Group -> nat) (d : nat)
    (acc : SentimentCharts.groups) (r : SentimentCharts.SentimentResult) :
  f (SentimentCharts.mkGroup 0 0 0 0) = 0%nat ->
  (forall v, f (counted v (SentimentCharts.sentiment r)) = (f v + d)%nat) ->
  column f (SentimentCharts.addResult acc r) = (column f acc + d)%nat.
Proof.
  intros H0 Hd. rewrite addResult_store.
  pose proof (column_store f acc (SentimentCharts.stakeholderType r)
                (counted (match SentimentCharts.lookup acc (SentimentCharts.stakeholderType r)
                          with Some v => v | None => SentimentCharts.mkGroup 0 0 0 0 end)
                         (SentimentCharts.sentiment r))) as H.
  rewrite Hd in H.
  destruct (SentimentCharts.lookup acc (SentimentCharts.stakeholderType r)); [|rewrite H0 in H];
    lia.
Qed.

Lemma column_groups (f : SentimentCharts.Group -> nat)
    (p : SentimentAnalysis.Sentiment -> bool)
    (results : list SentimentCharts.SentimentResult) :
  f (SentimentCharts.mkGroup 0 0 0 0) = 0%nat ->
  (forall v s, f (counted v s) = (f v + if p s then 1 else 0)%nat) ->
  column f (SentimentCharts.stakeholderGroups results) = labelled p results.
Proof.
  intros H0 Hp. unfold SentimentCharts.stakeholderGroups.
  induction results as [|r l IH] using rev_ind.
  - reflexivity.
  - rewrite fold_left_app. simpl fold_left.
    rewrite (column_addResult f (if p (SentimentCharts.sentiment r) then 1 else 0)%nat);
      [|exact H0 | intros v; apply Hp].
    rewrite IH. unfold labelled. rewrite filter_app, length_app. simpl.
    destruct (p (SentimentCharts.sentiment r)); simpl; lia.
Qed.

Lemma store_Forall (P : SentimentCharts.Group -> Prop) (g : SentimentCharts.groups)
    (k : string) (v : SentimentCharts.Group) :
  Forall (fun e => P (snd e)) g -> P v ->
  Forall (fun e => P (snd e)) (SentimentCharts.store g k v).
Proof.
  intros Hg Hv. induction Hg as [|[k0 v0] g H0 Hg IH]; simpl.
  - now repeat constructor.
  - destruct (String.eqb k k0); constructor; trivial.
Qed.

Lemma lookup_Forall (P : SentimentCharts.Group -> Prop) (g : SentimentCharts.groups)
    (k : string) (v : SentimentCharts.Group) :
  Forall (fun e => P (snd e)) g -> SentimentCharts.lookup g k = Some v -> P v.
Proof.
  intros Hg. induction Hg as [|[k0 v0] g H0 Hg IH]; simpl; [discriminate|].
  destruct (String.eqb k k0); [intros [= <-]; exact H0 | exact IH].
Qed.

Lemma groups_balanced (results : list SentimentCharts.SentimentResult) :
  Forall (fun e => balanced (snd e)) (SentimentCharts.stakeholderGroups results).
Proof.
  unfold SentimentCharts.stakeholderGroups.
  induction results as [|r l IH] using rev_ind.
  - constructor.
  - rewrite fold_left_app. simpl fold_left. rewrite addResult_store.
    apply store_Forall; [exact IH|].
    destruct (SentimentCharts.lookup _ (SentimentCharts.stakeholderType r)) as [v|] eqn:E.
    + pose proof (lookup_Forall balanced _ _ _ IH E) as [Hv Hp].
      unfold balanced, counted. destruct (SentimentCharts.sentiment r); simpl; lia.
    + unfold balanced, counted. destruct (SentimentCharts.sentiment r); simpl; lia.
Qed.

Lemma distinct_In (l : list string) (x : string) : In x (distinct l) <-> In x l.
Proof.
  induction l as [|a l IH]; simpl; [tauto|].
  rewrite filter_In, IH. destruct (String.eqb_spec x a) as [->|H]; simpl.
  - split; [tauto | now left].
  - split; [intros [E|[E _]]; [now left | now right]|].
    intros [E|E]; [now left | right; now split].
Qed.

Lemma distinct_snoc (l : list string) (x : string) :
  distinct (l ++ [x])
  = if in_dec string_dec x l then distinct l else distinct l ++ [x].
Proof.
  induction l as [|a l IH]; simpl.
  - reflexivity.
  - rewrite IH. destruct (in_dec string_dec x l) as [Hin|Hnin].
    + destruct (string_dec a x); reflexivity.
    + destruct (string_dec a x) as [->|Hne].
      * rewrite filter_app. simpl. rewrite String.eqb_refl. simpl.
        now rewrite app_nil_r.
      * rewrite filter_app. simpl.
        destruct (String.eqb_spec x a) as [->|_]; [congruence | reflexivity].
Qed.

Lemma groups_keys (results : list SentimentCharts.SentimentResult) :
  map fst (SentimentCharts.stakeholderGroups results)
  = distinct (map SentimentCharts.stakeholderType results).
Proof.
  unfold SentimentCharts.stakeholderGroups.
  induction results as [|r l IH] using rev_ind.
  - reflexivity.
  - rewrite fold_left_app. simpl fold_left. rewrite addResult_store, keys_store.
    rewrite map_app. simpl map. rewrite distinct_snoc, <- IH.
    destruct (in_dec string_dec (SentimentCharts.stakeholderType r)
                (map SentimentCharts.stakeholderType l)) as [Hin|Hnin].
    + apply distinct_In in Hin. rewrite <- IH in Hin.
      destruct (SentimentCharts.lookup _ (SentimentCharts.stakeholderType r)) eqn:E;
        [reflexivity|]. apply lookup_None in E. contradiction.
    + destruct (SentimentCharts.lookup _ (SentimentCharts.stakeholderType r)) eqn:E;
        [|reflexivity].
      exfalso. apply Hnin. apply distinct_In. rewrite <- IH.
      destruct (in_dec string_dec (SentimentCharts.stakeholderType r)
                  (map fst (fold_left SentimentCharts.addResult l []))) as [H|H];
        [exact H | apply lookup_None in H; congruence].
Qed.

(** The types of the first [n] positions, without repetition, are the
    first [n] of the six types. *)
Lemma round_robin (n : nat) :
  distinct (map SentimentCharts.typeAt (seq 0 n)) = firstn n SentimentCharts.stakeholderTypes.
Proof.
  destruct (Nat.le_gt_cases n 6) as [Hle|Hgt].
  - do 7 (destruct n as [|n]; [reflexivity|]). lia.
  - replace n with (6 + (n - 6))%nat by lia. generalize (n - 6)%nat as m. clear.
    induction m as [|m IH].
    + reflexivity.
    + replace (6 + S m)%nat with (S (6 + m)) by lia.
      rewrite seq_S, map_app. cbn [map]. rewrite distinct_snoc.
      destruct (in_dec string_dec _ _) as [Hin|Hnin].
      * rewrite IH. rewrite !firstn_all2; [reflexivity | simpl; lia | simpl; lia].
      * exfalso. apply Hnin. apply in_map_iff.
        exists ((0 + (6 + m)) mod 6)%nat. split.
        -- unfold SentimentCharts.typeAt. simpl length. now rewrite Nat.Div0.mod_mod.
        -- apply in_seq. pose proof (Nat.mod_upper_bound (0 + (6 + m)) 6). lia.
Qed.

(** X5: the stakeholder chart has one row per stakeholder type met, in the
    order of the six types: with [n] comments the first [min n 6] types, a
    line feed in place of the first space.  The total of every row is the
    sum of its three counters and at least one, the totals add up to the
    number of comments, and the three columns add up to the three counts of
    the sentiment distribution. *)
Theorem stakeholderData_rows (random : nat -> Q) (comments : list string) (k : nat) :
  let results := fst (SentimentCharts.sentimentResults random comments k) in
  let rows := SentimentCharts.stakeholderData results in
  let c := SentimentCharts.sentimentCounts results in
  map SentimentCharts.rowType rows
  = map (JS.replaceFirst " " "010")
      (firstn (length comments) SentimentCharts.stakeholderTypes) /\
  Forall (fun row =>
            SentimentCharts.rowTotal row
            = (SentimentCharts.rowAgreement row + SentimentCharts.rowModification row
               + SentimentCharts.rowRemoval row)%nat
            /\ (1 <= SentimentCharts.rowTotal row)%nat) rows /\
  total (map SentimentCharts.rowTotal rows) = length comments /\
  total (map SentimentCharts.rowAgreement rows)
  = SentimentCharts.count (SentimentCharts.agreementShare c) /\
  total (map SentimentCharts.rowModification rows)
  = SentimentCharts.count (SentimentCharts.modificationShare c) /\
  total (map SentimentCharts.rowRemoval rows)
  = SentimentCharts.count (SentimentCharts.removalShare c).
Proof.
  intros results rows c.
  destruct (mapIndexed_fields random comments 0 k) as (Hcomments & Htypes & _).
  fold (SentimentCharts.sentimentResults random comments k) in Hcomments, Htypes.
  fold results in Hcomments, Htypes.
  assert (Hlen : length results = length comments).
  { rewrite <- Hcomments. now rewrite length_map. }
  assert (Hcol : forall (f : SentimentCharts.Group -> nat) (g : SentimentCharts.Row -> nat),
            (forall t v, g (SentimentCharts.mkRow t (SentimentCharts.inAgreement v)
                              (SentimentCharts.inModification v)
                              (SentimentCharts.inRemoval v) (SentimentCharts.total v)) = f v) ->
            total (map g rows) = column f (SentimentCharts.stakeholderGroups results)).
  { intros f g H. unfold rows, SentimentCharts.stakeholderData, column. rewrite map_map.
    f_equal. apply map_ext. intros [t v]. apply H. }
  destruct (counts_labelled results) as (Ca & Cr & Cm).
  fold c in Ca, Cr, Cm.
  split; [|split; [|split; [|split; [|split]]]].
  - unfold rows, SentimentCharts.stakeholderData. rewrite map_map.
    rewrite <- round_robin, <- Htypes, <- groups_keys, map_map.
    apply map_ext. now intros [t v].
  - unfold rows, SentimentCharts.stakeholderData. apply Forall_map.
    eapply Forall_impl; [|apply groups_balanced]. now intros [t v].
  - rewrite (Hcol SentimentCharts.total SentimentCharts.rowTotal) by reflexivity.
    rewrite (column_groups _ (fun _ => true)).
    + unfold labelled. rewrite <- Hlen. clear. induction results; simpl; congruence.
    + reflexivity.
    + intros v s. unfold counted. destruct s; simpl; lia.
  - rewrite (Hcol SentimentCharts.inAgreement SentimentCharts.rowAgreement) by reflexivity.
    rewrite Ca. apply column_groups; [reflexivity|].
    intros v s. unfold counted. destruct s; simpl; lia.
  - rewrite (Hcol SentimentCharts.inModification SentimentCharts.rowModification)
      by reflexivity.
    rewrite Cm. apply column_groups; [reflexivity|].
    intros v s. unfold counted. destruct s; simpl; lia.
  - rewrite (Hcol SentimentCharts.inRemoval SentimentCharts.rowRemoval) by reflexivity.
    rewrite Cr. apply column_groups; [reflexivity|].
    intros v s. unfold counted. destruct s; simpl; lia.
Qed.

(** ** The tags of the summary *)

Lemma step_sets (a : SummaryGeneration.Acc) (c : string) :
  SummaryGeneration.themesSet (SummaryGeneration.step a c)
  = applyRules (JS.toLowerCase c) themeRules (SummaryGeneration.themesSet a) /\
  SummaryGeneration.concernsSet (SummaryGeneration.step a c)
  = applyRules (JS.toLowerCase c) concernRules (SummaryGeneration.concernsSet a) /\
  SummaryGeneration.suggestionsSet (SummaryGeneration.step a c)
  = applyRules (JS.toLowerCase c) suggestionRules (SummaryGeneration.suggestionsSet a).
Proof.
  unfold SummaryGeneration.step.
  destruct (SummaryGeneration.hasAny SummaryGeneration.positiveKeywords _),
           (SummaryGeneration.hasAny SummaryGeneration.negativeKeywords _);
    repeat split.
Qed.

Lemma rule_In (lc t1 t2 tag : string) (s : list string) (t : string) :
  In t (SummaryGeneration.rule lc t1 t2 tag s)
  <-> In t s \/ (t = tag /\ JS.includes lc t1 || JS.includes lc t2 = true).
Proof.
  unfold SummaryGeneration.rule, SummaryGeneration.setAdd.
  destruct (JS.includes lc t1 || JS.includes lc t2).
  - rewrite set_add_iff. intuition.
  - intuition discriminate.
Qed.

Lemma setAdd_prefix (x : string) (s : list string) :
  prefixOf s (SummaryGeneration.setAdd x s).
Proof.
  unfold prefixOf, SummaryGeneration.setAdd. induction s as [|a s [t IH]]; simpl.
  - now exists [x].
  - destruct (string_dec x a); [exists []; now rewrite app_nil_r|].
    exists t. now rewrite IH.
Qed.

Lemma prefixOf_trans (l1 l2 l3 : list string) :
  prefixOf l1 l2 -> prefixOf l2 l3 -> prefixOf l1 l3.
Proof. intros [t ->] [u ->]. exists (t ++ u). now rewrite app_assoc. Qed.

Lemma prefixOf_refl (l : list string) : prefixOf l l.
Proof. exists []. now rewrite app_nil_r. Qed.

Lemma applyRules_In (lc : string) (rules : list (string * string * string))
    (s : list string) (t : string) :
  In t (applyRules lc rules s)
  <-> In t s \/ exists r, In r rules /\ snd r = t /\ fired lc r = true.
Proof.
  unfold applyRules. revert s. induction rules as [|r rules IH]; intros s; simpl.
  - split; [tauto | intros [H|[r [[] _]]]; exact H].
  - rewrite IH, rule_In. unfold fired. split.
    + intros [[H|[-> H]]|[r' [H1 H2]]]; [now left | right | right].
      * exists r. auto.
      * exists r'. auto.
    + intros [H|[r' [[<-|H1] [H2 H3]]]]; [tauto | left; right; auto | right].
      exists r'. auto.
Qed.

Lemma applyRules_NoDup (lc : string) (rules : list (string * string * string))
    (s : list string) :
  NoDup s -> NoDup (applyRules lc rules s).
Proof.
  unfold applyRules. revert s. induction rules as [|r rules IH]; intros s Hs; simpl.
  - exact Hs.
  - apply IH. unfold SummaryGeneration.rule, SummaryGeneration.setAdd.
    destruct (_ || _); [now apply set_add_nodup | exact Hs].
Qed.

Lemma applyRules_prefix (lc : string) (rules : list (string * string * string))
    (s : list string) :
  prefixOf s (applyRules lc rules s).
Proof.
  unfold applyRules. revert s. induction rules as [|r rules IH]; intros s; simpl.
  - apply prefixOf_refl.
  - eapply prefixOf_trans; [|apply IH]. unfold SummaryGeneration.rule.
    destruct (_ || _); [apply setAdd_prefix | apply prefixOf_refl].
Qed.

Section TagSet.

(** One of the three tag sets of the loop with its rule table. *)
Variable proj : SummaryGeneration.Acc -> list string.
Variable rules : list (string * string * string).
Hypothesis proj_step : forall a c,
  proj (SummaryGeneration.step a c) = applyRules (JS.toLowerCase c) rules (proj a).

Lemma fold_tags_In (comments : list string) (a : SummaryGeneration.Acc) (t : string) :
  In t (proj (fold_left SummaryGeneration.step comments a))
  <-> In t (proj a)
      \/ exists c r, In c comments /\ In r rules /\ snd r = t
                     /\ fired (JS.toLowerCase c) r = true.
Proof.
  revert a. induction comments as [|c l IH]; intros a; simpl.
  - split; [tauto | intros [H|[c [r [[] _]]]]; exact H].
  - rewrite IH, proj_step, applyRules_In. split.
    + intros [[H|[r H]]|[c' [r H]]]; [now left | right | right].
      * exists c, r. tauto.
      * exists c', r. tauto.
    + intros [H|[c' [r [[<-|H1] H2]]]]; [tauto | left; right; exists r; tauto | right].
      exists c', r. tauto.
Qed.

Lemma fold_tags_NoDup (comments : list string) (a : SummaryGeneration.Acc) :
  NoDup (proj a) -> NoDup (proj (fold_left SummaryGeneration.step comments a)).
Proof.
  revert a. induction comments as [|c l IH]; intros a Ha; simpl; [exact Ha|].
  apply IH. rewrite proj_step. now apply applyRules_NoDup.
Qed.

Lemma fold_tags_prefix (comments : list string) (a : SummaryGeneration.Acc) :
  prefixOf (proj a) (proj (fold_left SummaryGeneration.step comments a)).
Proof.
  revert a. induction comments as [|c l IH]; intros a; simpl; [apply prefixOf_refl|].
  eapply prefixOf_trans; [|apply IH]. rewrite proj_step. apply applyRules_prefix.
Qed.

End TagSet.

Lemma fired_triggers (rules : list (string * string * string))
    (r : string * string * string) (c : string) :
  lowerTriggers rules -> In r rules ->
  (fired (JS.toLowerCase c) r = true <-> triggers r c).
Proof.
  intros Hlow Hr. unfold lowerTriggers in Hlow. rewrite Forall_forall in Hlow.
  destruct (Hlow r Hr) as [H1 H2]. unfold fired, triggers.
  rewrite orb_true_iff, (includes_ignoring_case c _ H1), (includes_ignoring_case c _ H2).
  reflexivity.
Qed.

(** A tag of a table with distinct tags is in the set exactly when some
    comment triggers its rule. *)
Lemma tag_present (proj : SummaryGeneration.Acc -> list string)
    (rules : list (string * string * string)) (comments : list string)
    (r : string * string * string) :
  (forall a c, proj (SummaryGeneration.step a c)
               = applyRules (JS.toLowerCase c) rules (proj a)) ->
  proj SummaryGeneration.init = [] ->
  lowerTriggers rules -> NoDup (tags rules) -> In r rules ->
  (In (snd r) (proj (fold_left SummaryGeneration.step comments SummaryGeneration.init))
   <-> exists c, In c comments /\ triggers r c).
Proof.
  intros Hstep Hinit Hlow Hnd Hr.
  rewrite (fold_tags_In proj rules Hstep), Hinit. split.
  - intros [[]|[c [r' [Hc [Hr' [Htag Hf]]]]]].
    assert (r' = r) as ->.
    { clear - Hnd Hr Hr' Htag. unfold tags in Hnd.
      induction rules as [|x rules IH]; [contradiction|].
      simpl in Hnd. inversion Hnd as [|? ? Hx Hnd']; subst.
      destruct Hr as [->|Hr], Hr' as [->|Hr']; trivial.
      - exfalso. apply Hx. rewrite <- Htag. now apply in_map.
      - exfalso. apply Hx. rewrite Htag. now apply in_map.
      - now apply IH. }
    exists c. split; [exact Hc|]. now apply (fired_triggers rules).
  - intros [c [Hc Ht]]. right. exists c, r. repeat split; trivial.
    now apply (fired_triggers rules).
Qed.

Lemma lowerTriggers_tables :
  lowerTriggers themeRules /\ lowerTriggers concernRules /\ lowerTriggers suggestionRules.
Proof. repeat split; repeat constructor. Qed.

Lemma NoDup_tags :
  NoDup (tags themeRules) /\ NoDup (tags concernRules) /\ NoDup (tags suggestionRules).
Proof.
  repeat split; unfold tags; simpl;
    repeat (constructor; [simpl; intuition discriminate|]); constructor.
Qed.

Lemma summary_sets (comments : list string) (s : SummaryGeneration.Summary) :
  SummaryGeneration.summary comments = Some s ->
  let a := fold_left SummaryGeneration.step comments SummaryGeneration.init in
  SummaryGeneration.keyThemes s = SummaryGeneration.themesSet a /\
  SummaryGeneration.mainConcerns s = SummaryGeneration.concernsSet a /\
  SummaryGeneration.suggestions s = SummaryGeneration.suggestionsSet a /\
  SummaryGeneration.sentimentDistribution s
  = (SummaryGeneration.positiveCount a, SummaryGeneration.negativeCount a,
     SummaryGeneration.neutralCount a).
Proof.
  intros Hs. destruct comments as [|c l]; [discriminate|].
  unfold SummaryGeneration.summary in Hs. injection Hs as <-. repeat split.
Qed.

(** X6: a theme, concern or suggestion is in the summary exactly when some
    comment contains one of the two triggers of its rule, in whatever
    letter case. *)
Theorem summary_tags (comments : list string) (s : SummaryGeneration.Summary)
    (Hs : SummaryGeneration.summary comments = Some s) :
  (forall r, In r themeRules ->
     (In (snd r) (SummaryGeneration.keyThemes s)
      <-> exists c, In c comments /\ triggers r c)) /\
  (forall r, In r concernRules ->
     (In (snd r) (SummaryGeneration.mainConcerns s)
      <-> exists c, In c comments /\ triggers r c)) /\
  (forall r, In r suggestionRules ->
     (In (snd r) (SummaryGeneration.suggestions s)
      <-> exists c, In c comments /\ triggers r c)).
Proof.
  destruct (summary_sets comments s Hs) as (-> & -> & -> & _).
  destruct lowerTriggers_tables as (L1 & L2 & L3).
  destruct NoDup_tags as (N1 & N2 & N3).
  split; [|split]; intros r Hr.
  - apply (tag_present SummaryGeneration.themesSet themeRules); trivial.
    intros a c. apply step_sets.
  - apply (tag_present SummaryGeneration.concernsSet concernRules); trivial.
    intros a c. apply step_sets.
  - apply (tag_present SummaryGeneration.suggestionsSet suggestionRules); trivial.
    intros a c. apply step_sets.
Qed.

Lemma summary_tags_witness :
  exists s, SummaryGeneration.summary scenario = Some s /\
    (In "Implementation Concerns" (SummaryGeneration.keyThemes s)
     <-> exists c, In c scenario
                   /\ triggers ("implementation", "timeline", "Implementation Concerns") c).
Proof.
  destruct (SummaryGeneration.summary scenario) as [s|] eqn:Hs; [|discriminate Hs].
  exists s. split; [reflexivity|].
  apply (proj1 (summary_tags scenario s Hs)
           ("implementation", "timeline", "Implementation Concerns")).
  simpl. tauto.
Defined.

Lemma tags_bounded (proj : SummaryGeneration.Acc -> list string)
    (rules : list (string * string * string)) (comments : list string) :
  (forall a c, proj (SummaryGeneration.step a c)
               = applyRules (JS.toLowerCase c) rules (proj a)) ->
  proj SummaryGeneration.init = [] ->
  let set := proj (fold_left SummaryGeneration.step comments SummaryGeneration.init) in
  NoDup set /\ incl set (tags rules) /\ (length set <= length rules)%nat.
Proof.
  intros Hstep Hinit set.
  assert (Hnd : NoDup set).
  { apply (fold_tags_NoDup proj rules Hstep). rewrite Hinit. constructor. }
  assert (Hincl : incl set (tags rules)).
  { intros t Ht. apply (fold_tags_In proj rules Hstep) in Ht. rewrite Hinit in Ht.
    destruct Ht as [[]|[c [r [_ [Hr [<- _]]]]]]. unfold tags. now apply in_map. }
  split; [exact Hnd | split; [exact Hincl|]].
  rewrite <- (length_map snd rules). now apply NoDup_incl_length.
Qed.

(** X7: the three tag sets of a summary have no duplicates and contain
    tags of their rule tables only: at most six themes, four concerns and
    four suggestions, however many comments there are. *)
Theorem summary_sets_bounded (comments : list string) (s : SummaryGeneration.Summary)
    (Hs : SummaryGeneration.summary comments = Some s) :
  (NoDup (SummaryGeneration.keyThemes s) /\
   incl (SummaryGeneration.keyThemes s) (tags themeRules) /\
   (length (SummaryGeneration.keyThemes s) <= 6)%nat) /\
  (NoDup (SummaryGeneration.mainConcerns s) /\
   incl (SummaryGeneration.mainConcerns s) (tags concernRules) /\
   (length (SummaryGeneration.mainConcerns s) <= 4)%nat) /\
  (NoDup (SummaryGeneration.suggestions s) /\
   incl (SummaryGeneration.suggestions s) (tags suggestionRules) /\
   (length (SummaryGeneration.suggestions s) <= 4)%nat).
Proof.
  destruct (summary_sets comments s Hs) as (-> & -> & -> & _).
  split; [|split].
  - apply (tags_bounded SummaryGeneration.themesSet themeRules); [|reflexivity].
    intros a c. apply step_sets.
  - apply (tags_bounded SummaryGeneration.concernsSet concernRules); [|reflexivity].
    intros a c. apply step_sets.
  - apply (tags_bounded SummaryGeneration.suggestionsSet suggestionRules); [|reflexivity].
    intros a c. apply step_sets.
Qed.

Lemma summary_sets_bounded_witness :
  exists s, SummaryGeneration.summary scenario = Some s /\
    NoDup (SummaryGeneration.suggestions s) /\
    (length (SummaryGeneration.suggestions s) <= 4)%nat.
Proof.
  destruct (SummaryGeneration.summary scenario) as [s|] eqn:Hs; [|discriminate Hs].
  exists s. split; [reflexivity|].
  destruct (summary_sets_bounded scenario s Hs) as (_ & _ & H1 & _ & H2).
  split; [exact H1 | exact H2].
Defined.

(** X8: further comments extend a summary: each tag set of the summary of
    the longer list begins with the tag set of the shorter one, and each
    of the three counts grows by the tally of the added comments. *)
Theorem summary_extends (comments more : list string) (s s' : SummaryGeneration.Summary)
    (Hs : SummaryGeneration.summary comments = Some s)
    (Hs' : SummaryGeneration.summary (comments ++ more) = Some s') :
  prefixOf (SummaryGeneration.keyThemes s) (SummaryGeneration.keyThemes s') /\
  prefixOf (SummaryGeneration.mainConcerns s) (SummaryGeneration.mainConcerns s') /\
  prefixOf (SummaryGeneration.suggestions s) (SummaryGeneration.suggestions s') /\
  exists p n u p' n' u',
    SummaryGeneration.sentimentDistribution s = (p, n, u) /\
    tally more p' n' u' /\
    SummaryGeneration.sentimentDistribution s' = (p + p', n + n', u + u')%nat.
Proof.
  destruct (summary_sets _ s Hs) as (-> & -> & -> & Hd).
  destruct (summary_sets _ s' Hs') as (-> & -> & -> & Hd').
  rewrite fold_left_app in *.
  set (a := fold_left SummaryGeneration.step comments SummaryGeneration.init) in *.
  split; [|split; [|split]].
  - apply (fold_tags_prefix SummaryGeneration.themesSet themeRules).
    intros a0 c. apply step_sets.
  - apply (fold_tags_prefix SummaryGeneration.concernsSet concernRules).
    intros a0 c. apply step_sets.
  - apply (fold_tags_prefix SummaryGeneration.suggestionsSet suggestionRules).
    intros a0 c. apply step_sets.
  - destruct (fold_tally more a) as (p' & n' & u' & Ht & Hp & Hn & Hu).
    cbv zeta in Hp, Hn, Hu.
    exists (SummaryGeneration.positiveCount a), (SummaryGeneration.negativeCount a),
           (SummaryGeneration.neutralCount a), p', n', u'.
    split; [exact Hd | split; [exact Ht|]]. rewrite Hd', Hp, Hn, Hu. reflexivity.
Qed.

Lemma summary_extends_witness :
  exists s s',
    SummaryGeneration.summary scenario = Some s /\
    SummaryGeneration.summary (scenario ++ scenario) = Some s' /\
    prefixOf (SummaryGeneration.keyThemes s) (SummaryGeneration.keyThemes s').
Proof.
  destruct (SummaryGeneration.summary scenario) as [s|] eqn:Hs; [|discriminate Hs].
  destruct (SummaryGeneration.summary (scenario ++ scenario)) as [s'|] eqn:Hs';
    [|discriminate Hs'].
  exists s, s'. split; [reflexivity | split; [reflexivity|]].
  exact (proj1 (summary_extends scenario scenario s s' Hs Hs')).
Defined.

(** ** Letter case *)

Lemma toLowerChar_not_upper (c : ascii) : JS.isUpper (JS.toLowerChar c) = false.
Proof. destruct c as [[] [] [] [] [] [] [] []]; reflexivity. Qed.

Lemma toLowerChar_idem (c : ascii) : JS.toLowerChar (JS.toLowerChar c) = JS.toLowerChar c.
Proof.
  unfold JS.toLowerChar at 1. now rewrite toLowerChar_not_upper.
Qed.

Lemma toLowerCase_idem (s : string) : JS.toLowerCase (JS.toLowerCase s) = JS.toLowerCase s.
Proof.
  unfold JS.toLowerCase. induction s as [|c s IH]; simpl; [reflexivity|].
  now rewrite toLowerChar_idem, IH.
Qed.

Lemma toLowerCase_app (s t : string) :
  JS.toLowerCase (s ++ t) = (JS.toLowerCase s ++ JS.toLowerCase t)%string.
Proof. apply mapString_app. Qed.

Lemma toLowerCase_join (l : list string) :
  JS.toLowerCase (JS.join " " (map JS.toLowerCase l)) = JS.toLowerCase (JS.join " " l).
Proof.
  induction l as [|x l IH]; [reflexivity|].
  destruct l as [|y l].
  - apply toLowerCase_idem.
  - change (JS.toLowerCase
              (JS.toLowerCase x ++ " " ++ JS.join " " (map JS.toLowerCase (y :: l)))
            = JS.toLowerCase (x ++ " " ++ JS.join " " (y :: l))).
    rewrite !toLowerCase_app, IH, toLowerCase_idem. reflexivity.
Qed.

Lemma step_lower (a : SummaryGeneration.Acc) (c : string) :
  SummaryGeneration.step a (JS.toLowerCase c) = SummaryGeneration.step a c.
Proof. unfold SummaryGeneration.step. now rewrite toLowerCase_idem. Qed.

Lemma fold_step_lower (comments : list string) (a : SummaryGeneration.Acc) :
  fold_left SummaryGeneration.step (map JS.toLowerCase comments) a
  = fold_left SummaryGeneration.step comments a.
Proof.
  revert a. induction comments as [|c l IH]; intros a; simpl; [reflexivity|].
  now rewrite step_lower, IH.
Qed.

(** X9: the three analyses do not depend on the letter case of the
    comments: the lower-cased comments give the same ranking and the same
    summary, and a lower-cased comment gets the same label and confidence
    and draws as many random numbers. *)
Theorem analyses_ignore_case (comments : list string) :
  WordCloud.wordFrequencies (map JS.toLowerCase comments)
  = WordCloud.wordFrequencies comments /\
  SummaryGeneration.summary (map JS.toLowerCase comments)
  = SummaryGeneration.summary comments /\
  forall random c k,
    let r := fst (SentimentAnalysis.classify random c k) in
    let r' := fst (SentimentAnalysis.classify random (JS.toLowerCase c) k) in
    SentimentAnalysis.sentiment r' = SentimentAnalysis.sentiment r /\
    SentimentAnalysis.confidence r' = SentimentAnalysis.confidence r /\
    snd (SentimentAnalysis.classify random (JS.toLowerCase c) k)
    = snd (SentimentAnalysis.classify random c k).
Proof.
  split; [|split].
  - assert (Hw : WordCloud.words (map JS.toLowerCase comments) = WordCloud.words comments).
    { unfold WordCloud.words, WordCloud.candidates, WordCloud.allText.
      now rewrite toLowerCase_join. }
    destruct comments as [|c l]; [reflexivity|].
    unfold WordCloud.wordFrequencies. simpl map. rewrite <- Hw. reflexivity.
  - destruct comments as [|c l]; [reflexivity|].
    unfold SummaryGeneration.summary.
    change (map JS.toLowerCase (c :: l)) with (JS.toLowerCase c :: map JS.toLowerCase l).
    cbv zeta.
    change (JS.toLowerCase c :: map JS.toLowerCase l) with (map JS.toLowerCase (c :: l)).
    rewrite fold_step_lower, length_map. reflexivity.
  - intros random c k. cbv zeta. unfold SentimentAnalysis.classify.
    unfold SentimentAnalysis.positiveMatches, SentimentAnalysis.negativeMatches.
    rewrite toLowerCase_idem.
    destruct (_ <? _)%nat; [repeat split|]. destruct (_ <? _)%nat; repeat split.
Qed.

(** ** The ranked words *)

Lemma splitRuns_all (p : ascii -> bool) (s cur : string) (inRun : bool) :
  JS.allChars p s = true -> JS.allChars p cur = true ->
  Forall (fun t => JS.allChars p t = true) (JS.splitRuns s cur inRun).
Proof.
  revert cur inRun. induction s as [|c s IH]; intros cur inRun Hs Hcur; simpl.
  - now constructor.
  - simpl in Hs. apply andb_true_iff in Hs. destruct Hs as [Hc Hs].
    destruct (JS.isSpace c).
    + destruct inRun; [|constructor; trivial]; now apply IH.
    + apply IH; [exact Hs|]. rewrite allChars_app, Hcur. simpl. now rewrite Hc.
Qed.

Lemma allChars_both (p q r : ascii -> bool) (s : string) :
  (forall c, p c = true -> q c = true -> r c = true) ->
  JS.allChars p s = true -> JS.allChars q s = true -> JS.allChars r s = true.
Proof.
  intros H. induction s as [|c s IH]; simpl; [reflexivity|].
  rewrite !andb_true_iff. intros [Hp Hps] [Hq Hqs]. split; [now apply H | now apply IH].
Qed.

Lemma candidates_no_capitals (comments : list string) :
  Forall (fun t => JS.allChars (fun c => negb (JS.between 65 90 (JS.code c))) t = true)
    (WordCloud.candidates comments).
Proof.
  unfold WordCloud.candidates, JS.splitWhitespace. apply splitRuns_all; [|reflexivity].
  unfold WordCloud.blankNonWord, WordCloud.allText, JS.toLowerCase.
  induction (JS.join " " comments) as [|c s IH]; simpl; [reflexivity|].
  rewrite IH, andb_true_r.
  pose proof (toLowerChar_not_upper c) as H. unfold JS.isUpper in H.
  apply orb_false_elim in H. destruct H as [H _].
  destruct (JS.isWordChar (JS.toLowerChar c) || JS.isSpace (JS.toLowerChar c));
    [now rewrite H | reflexivity].
Qed.

Lemma meaningful_parts (w : string) :
  WordCloud.isMeaningfulWord w = true ->
  (3 <= String.length w)%nat /\ ~ In w WordCloud.stopWords /\ ~ In w WordCloud.suffixes
  /\ JS.allChars JS.isAlpha w = true.
Proof.
  unfold WordCloud.isMeaningfulWord.
  destruct (Nat.ltb_spec (String.length w) 3); [discriminate|].
  destruct (WordCloud.has WordCloud.stopWords w) eqn:E1; [discriminate|].
  destruct (WordCloud.isNumericOrDate w); [discriminate|].
  destruct (negb (negb (w =? "")%string && JS.allChars JS.isAlpha w)) eqn:E2; [discriminate|].
  destruct (WordCloud.has WordCloud.suffixes w) eqn:E3; [discriminate|].
  intros _. apply negb_false_iff, andb_true_iff in E2.
  repeat split; trivial.
  - intros H'. apply has_In in H'. congruence.
  - intros H'. apply has_In in H'. congruence.
  - tauto.
Qed.

Lemma ranked_words_are_tokens (comments : list string) (e : WordCloud.WordFrequency) :
  In e (WordCloud.wordFrequencies comments) ->
  In (WordCloud.word e) (WordCloud.words comments).
Proof.
  intros He. apply (in_map WordCloud.word) in He.
  rewrite (proj1 (wordFrequencies_fields comments)) in He.
  unfold WordCloud.sortedWords in He. rewrite <- firstn_map in He.
  apply firstn_In in He.
  apply (Permutation_in _ (Permutation_map fst (sort_perm _))) in He.
  apply (wordCount_keys (WordCloud.words comments)). exact He.
Qed.

(** X10: every word of the ranking is a token of the corpus of at least
    three characters, all of them letters a to z, and is neither a stop
    word nor one of the separated suffixes. *)
Theorem ranked_words_meaningful (comments : list string) (e : WordCloud.WordFrequency) :
  In e (WordCloud.wordFrequencies comments) ->
  let w := WordCloud.word e in
  In w (WordCloud.words comments) /\
  (3 <= String.length w)%nat /\
  JS.allChars isLower w = true /\
  ~ In w WordCloud.stopWords /\
  ~ In w WordCloud.suffixes.
Proof.
  intros He w. pose proof (ranked_words_are_tokens comments e He) as Hw. fold w in Hw.
  split; [exact Hw|].
  unfold WordCloud.words in Hw. apply filter_In in Hw. destruct Hw as [Hcand Hm].
  destruct (meaningful_parts w Hm) as (H3 & Hstop & Hsuf & Halpha).
  repeat split; trivial.
  pose proof (candidates_no_capitals comments) as Hcap. rewrite Forall_forall in Hcap.
  refine (allChars_both _ _ _ w _ (Hcap w Hcand) Halpha).
  intros c Hc Ha. unfold JS.isAlpha in Ha. unfold isLower.
  destruct (JS.between 65 90 (JS.code c)); [discriminate Hc | exact Ha].
Qed.

Lemma ranked_words_meaningful_witness :
  In (WordCloud.mkWord "transparency" (WordCloud.Num 1) JS.NaN)
     (WordCloud.wordFrequencies ["transparency"]) /\
  JS.allChars isLower "transparency" = true.
Proof.
  assert (H : In (WordCloud.mkWord "transparency" (WordCloud.Num 1) JS.NaN)
                (WordCloud.wordFrequencies ["transparency"])) by (left; reflexivity).
  split; [exact H|].
  exact (proj1 (proj2 (proj2 (ranked_words_meaningful ["transparency"] _ H)))).
Defined.

(** ** Order of equal counts, and sums *)

Lemma wordCount_keys_distinct (ws : list string) :
  map fst (WordCloud.wordCount ws) = distinct ws.
Proof.
  induction ws as [|x ws IH] using rev_ind.
  - reflexivity.
  - rewrite wordCount_snoc. unfold WordCloud.countWord. rewrite keys_set, distinct_snoc, <- IH.
    destruct (in_dec string_dec x ws) as [Hin|Hnin].
    + apply wordCount_keys in Hin.
      destruct (WordCloud.own (WordCloud.wordCount ws) x) eqn:E; [reflexivity|].
      apply own_None in E. contradiction.
    + destruct (WordCloud.own (WordCloud.wordCount ws) x) eqn:E; [|reflexivity].
      exfalso. apply Hnin. apply wordCount_keys.
      destruct (in_dec string_dec x (map fst (WordCloud.wordCount ws))) as [H|H];
        [exact H | apply own_None in H; congruence].
Qed.

(** Insertion moves an entry past entries of a greater count only: the
    entries of one count keep their order. *)
Lemma insert_stable (n : Z) (x : string * WordCloud.value)
    (l : list (string * WordCloud.value)) :
  numeric (x :: l) ->
  filter (fun e => (count e =? n)%Z) (WordCloud.insert x l)
  = filter (fun e => (count e =? n)%Z) (x :: l).
Proof.
  intros Hn. induction l as [|y l IH]; [reflexivity|].
  assert (Hx : snd x = WordCloud.Num (count x)) by (apply (numeric_count _ _ Hn); now left).
  assert (Hy : snd y = WordCloud.Num (count y))
    by (apply (numeric_count _ _ Hn); right; now left).
  cbn [WordCloud.insert]. rewrite (after_numeric x y _ _ Hx Hy).
  destruct (Z.ltb_spec (count x) (count y)) as [Hlt|Hge]; [|reflexivity].
  cbn [filter]. rewrite IH.
  - cbn [filter].
    destruct (Z.eqb_spec (count x) n), (Z.eqb_spec (count y) n); try reflexivity. lia.
  - inversion Hn as [|? ? H1 H2]; subst. inversion H2; subst. now constructor.
Qed.

Lemma sort_stable (n : Z) (l : list (string * WordCloud.value)) :
  numeric l ->
  filter (fun e => (count e =? n)%Z) (WordCloud.sort l)
  = filter (fun e => (count e =? n)%Z) l.
Proof.
  induction l as [|x l IH]; intros Hn; [reflexivity|].
  inversion Hn as [|? ? H1 H2]; subst.
  cbn [WordCloud.sort]. rewrite insert_stable.
  - cbn [filter]. now rewrite IH.
  - constructor; [exact H1|].
    apply (Permutation_Forall (Permutation_sym (sort_perm l))). exact H2.
Qed.

Lemma filter_map_fst {B : Type} (q : string -> bool) (l : list (string * B)) :
  filter q (map fst l) = map fst (filter (fun e => q (fst e)) l).
Proof.
  induction l as [|e l IH]; simpl; [reflexivity|].
  destruct (q (fst e)); simpl; now rewrite IH.
Qed.

Lemma wordCount_numeric (ws : list string) :
  ~ In "constructor" ws -> numeric (WordCloud.wordCount ws).
Proof.
  intros Hc. apply Forall_forall. intros e He.
  apply (wordCount_entries ws e Hc) in He. destruct He as [_ He]. eauto.
Qed.

(** X11: without the word [constructor] in the corpus, words of equal
    frequency are ranked in the order of their first occurrence: for every
    count, the ranked words of that count are, in their ranked order, the
    first of the corpus words of that count in the order of first
    occurrence. *)
Theorem ties_in_first_occurrence_order (comments : list string)
    (Hc : ~ In "constructor" (WordCloud.words comments)) (n : Z) :
  let ws := WordCloud.words comments in
  prefixOf (withCount ws n (map WordCloud.word (WordCloud.wordFrequencies comments)))
           (withCount ws n (distinct ws)).
Proof.
  intros ws. unfold withCount.
  rewrite (proj1 (wordFrequencies_fields comments)). fold ws.
  unfold WordCloud.sortedWords.
  set (srt := WordCloud.sort (WordCloud.wordCount ws)).
  assert (Hcount : forall e, In e srt ->
            (occurrences ws (fst e) =? n)%Z = (count e =? n)%Z).
  { intros e He. apply (Permutation_in _ (sort_perm _)) in He.
    apply (wordCount_entries ws e Hc) in He. destruct He as [_ He].
    unfold count. now rewrite He. }
  assert (Hall : filter (fun w => (occurrences ws w =? n)%Z) (distinct ws)
                 = map fst (filter (fun e => (count e =? n)%Z) srt)).
  { unfold srt. rewrite sort_stable by now apply wordCount_numeric.
    rewrite <- wordCount_keys_distinct, filter_map_fst. f_equal.
    apply filter_ext_in. intros e He. apply Hcount.
    apply (Permutation_in _ (Permutation_sym (sort_perm _))). exact He. }
  rewrite Hall, filter_map_fst.
  rewrite (filter_ext_in _ (fun e => (count e =? n)%Z) (firstn 50 srt))
    by (intros e He; apply Hcount; now apply firstn_In in He).
  exists (map fst (filter (fun e => (count e =? n)%Z) (skipn 50 srt))).
  rewrite <- map_app, <- filter_app, firstn_skipn. reflexivity.
Qed.

Lemma ties_in_first_occurrence_order_witness :
  ~ In "constructor" (WordCloud.words ["alpha alpha beta gamma"]) /\
  prefixOf ["beta"; "gamma"]
    (withCount (WordCloud.words ["alpha alpha beta gamma"]) 1
       (distinct (WordCloud.words ["alpha alpha beta gamma"]))).
Proof.
  assert (Hc : ~ In "constructor" (WordCloud.words ["alpha alpha beta gamma"])).
  { vm_compute. intuition discriminate. }
  split; [exact Hc|].
  exact (ties_in_first_occurrence_order ["alpha alpha beta gamma"] Hc 1).
Defined.

Lemma sumZ_app (l l' : list Z) : sumZ (l ++ l') = (sumZ l + sumZ l')%Z.
Proof. unfold sumZ. induction l as [|x l IH]; simpl; [reflexivity | rewrite IH; lia]. Qed.

Lemma sumZ_perm (l l' : list Z) : Permutation l l' -> sumZ l = sumZ l'.
Proof. unfold sumZ. induction 1; simpl; lia. Qed.

Lemma sumZ_nonneg (l : list Z) : Forall (fun z => (0 <= z)%Z) l -> (0 <= sumZ l)%Z.
Proof. unfold sumZ. induction 1; simpl; lia. Qed.

Lemma sumZ_map_add {A : Type} (f g : A -> Z) (l : list A) :
  sumZ (map (fun w => (f w + g w)%Z) l) = (sumZ (map f l) + sumZ (map g l))%Z.
Proof. unfold sumZ. induction l as [|x l IH]; simpl; [reflexivity | rewrite IH; lia]. Qed.

Lemma indicator_sum (a : string) (l : list string) :
  NoDup l ->
  sumZ (map (fun w => if string_dec a w then 1%Z else 0%Z) l)
  = if in_dec string_dec a l then 1%Z else 0%Z.
Proof.
  unfold sumZ. induction 1 as [|x l Hx Hnd IH]; [reflexivity|].
  cbn [map fold_right]. rewrite IH.
  destruct (string_dec a x) as [->|Hne].
  - destruct (in_dec string_dec x l) as [H|_]; [contradiction|].
    destruct (in_dec string_dec x (x :: l)) as [_|H]; [reflexivity|].
    exfalso. apply H. now left.
  - destruct (in_dec string_dec a l) as [H|H];
      destruct (in_dec string_dec a (x :: l)) as [H'|H']; try reflexivity.
    + exfalso. apply H'. now right.
    + destruct H' as [H'|H']; [congruence | contradiction].
Qed.

(** Over the distinct words the occurrences add up to the length. *)
Lemma occurrences_sum (ws l : list string) :
  NoDup l -> incl ws l -> sumZ (map (occurrences ws) l) = Z.of_nat (length ws).
Proof.
  intros Hnd. induction ws as [|a ws IH]; intros Hincl.
  - unfold occurrences, sumZ. simpl. clear. induction l; simpl; lia.
  - assert (Ha : In a l) by (apply Hincl; now left).
    assert (Hws : incl ws l) by (intros x Hx; apply Hincl; now right).
    rewrite (map_ext (occurrences (a :: ws))
               (fun w => (occurrences ws w + if string_dec a w then 1 else 0)%Z)).
    + rewrite sumZ_map_add, (IH Hws), (indicator_sum a l Hnd).
      destruct (in_dec string_dec a l); [|contradiction]. simpl length. lia.
    + intros w. unfold occurrences. cbn [count_occ].
      destruct (string_dec a w); lia.
Qed.

(** X12: without the word [constructor] in the corpus, the frequencies of
    the ranking add up to at most the number of tokens, and to that number
    when the corpus has at most fifty distinct tokens. *)
Theorem frequencies_sum (comments : list string)
    (Hc : ~ In "constructor" (WordCloud.words comments)) :
  let ws := WordCloud.words comments in
  let r := WordCloud.wordFrequencies comments in
  map WordCloud.frequency r = map WordCloud.Num (map shown r) /\
  (sumZ (map shown r) <= Z.of_nat (length ws))%Z /\
  ((length (distinct ws) <= 50)%nat -> sumZ (map shown r) = Z.of_nat (length ws)).
Proof.
  intros ws r. set (srt := WordCloud.sort (WordCloud.wordCount ws)).
  destruct (sortedWords_shape ws Hc) as (Hnum & _).
  destruct (wordFrequencies_fields comments) as [_ Hf]. fold ws r in Hf.
  assert (Hshown : map shown r = map count (firstn 50 srt)).
  { unfold shown. rewrite <- (map_map WordCloud.frequency
                                (fun v => match v with WordCloud.Num n => n | _ => 0%Z end)).
    rewrite Hf, map_map. reflexivity. }
  assert (Hall : sumZ (map count srt) = Z.of_nat (length ws)).
  { unfold srt. rewrite (sumZ_perm _ _ (Permutation_map count (sort_perm _))).
    rewrite <- (occurrences_sum ws (distinct ws)).
    - rewrite <- wordCount_keys_distinct, map_map. f_equal.
      apply map_ext_in. intros e He.
      apply (wordCount_entries ws e Hc) in He. destruct He as [_ He].
      unfold count. now rewrite He.
    - rewrite <- wordCount_keys_distinct. apply wordCount_NoDup.
    - intros x Hx. now apply distinct_In. }
  split; [|split].
  - rewrite Hf, Hshown. apply numeric_values. exact Hnum.
  - rewrite Hshown, <- Hall. rewrite <- (firstn_skipn 50 srt) at 2.
    rewrite map_app, sumZ_app.
    assert (0 <= sumZ (map count (skipn 50 srt)))%Z; [|lia].
    apply sumZ_nonneg, Forall_map, Forall_forall. intros e He.
    assert (HeS : In e srt) by (rewrite <- (firstn_skipn 50 srt); apply in_or_app; now right).
    apply (Permutation_in _ (sort_perm _)) in HeS.
    apply (wordCount_entries ws e Hc) in HeS. destruct HeS as [_ HeS].
    unfold count. rewrite HeS. unfold occurrences. lia.
  - intros Hsmall. rewrite Hshown, <- Hall. rewrite firstn_all2; [reflexivity|].
    unfold srt. rewrite (Permutation_length (sort_perm _)).
    rewrite <- (length_map fst), wordCount_keys_distinct. exact Hsmall.
Qed.

Lemma frequencies_sum_witness :
  ~ In "constructor" (WordCloud.words ["alpha alpha beta gamma"]) /\
  (sumZ (map shown (WordCloud.wordFrequencies ["alpha alpha beta gamma"]))
   <= Z.of_nat (length (WordCloud.words ["alpha alpha beta gamma"])))%Z.
Proof.
  assert (Hc : ~ In "constructor" (WordCloud.words ["alpha alpha beta gamma"])).
  { vm_compute. intuition discriminate. }
  split; [exact Hc|].
  exact (proj1 (proj2 (frequencies_sum ["alpha alpha beta gamma"] Hc))).
Defined.

(** ** The ends of the scale *)

Lemma specSize_top (mn mx : Z) : (mn < mx)%Z -> specSize mn mx mx = 36%Z.
Proof.
  intros H. unfold specSize. rewrite Zlt_Qlt in H.
  assert (E : inject_Z 12
              + (inject_Z mx - inject_Z mn) / (inject_Z mx - inject_Z mn) * inject_Z 24
              + (1 # 2) == 36 + (1 # 2)).
  { change (inject_Z 12) with 12. change (inject_Z 24) with 24. field. lra. }
  rewrite E. reflexivity.
Qed.

Lemma specSize_bottom (mn mx : Z) : (mn < mx)%Z -> specSize mn mx mn = 12%Z.
Proof.
  intros H. unfold specSize. rewrite Zlt_Qlt in H.
  assert (E : inject_Z 12
              + (inject_Z mn - inject_Z mn) / (inject_Z mx - inject_Z mn) * inject_Z 24
              + (1 # 2) == 12 + (1 # 2)).
  { change (inject_Z 12) with 12. change (inject_Z 24) with 24. field. lra. }
  rewrite E. reflexivity.
Qed.

Lemma hd_error_map {A B : Type} (f : A -> B) (l : list A) :
  hd_error (map f l) = option_map f (hd_error l).
Proof. now destruct l. Qed.

Lemma scale_entry (e : string * WordCloud.value) (mn mx f : Z) :
  (mn < mx)%Z -> snd e = WordCloud.Num f ->
  WordCloud.scale (WordCloud.Num mn) (WordCloud.Num mx) e
  = WordCloud.mkWord (fst e) (WordCloud.Num f) (JS.ofZ (specSize mn mx f)).
Proof.
  intros H He. destruct e as [w v]. simpl in He. subst v. now apply scale_numeric.
Qed.

(** The first and the last entry of a non-empty ranking, without the word
    [constructor]. *)
Lemma ranking_ends (comments : list string) (e1 : WordCloud.WordFrequency) :
  ~ In "constructor" (WordCloud.words comments) ->
  hd_error (WordCloud.wordFrequencies comments) = Some e1 ->
  let sw := WordCloud.sortedWords (WordCloud.words comments) in
  exists h,
    hd_error sw = Some h /\
    WordCloud.wordFrequencies comments
    = map (WordCloud.scale (WordCloud.Num (count (last sw h))) (WordCloud.Num (count h))) sw /\
    (count (last sw h) <= count h)%Z /\
    (1 <= count h)%Z /\
    (forall e, In e sw -> snd e = WordCloud.Num (count e)
                          /\ (count (last sw h) <= count e <= count h)%Z) /\
    In (last sw h) sw.
Proof.
  intros Hc H1 sw.
  destruct (sortedWords_shape _ Hc) as (Hnum & Hocc & Hsorted & _). fold sw in Hnum, Hocc, Hsorted.
  destruct (wordFrequencies_fields comments) as [Hw _]. fold sw in Hw.
  destruct sw as [|h sw'] eqn:E.
  { destruct (WordCloud.wordFrequencies comments); [discriminate H1 | discriminate Hw]. }
  rewrite <- E in *. assert (Hh : hd_error sw = Some h) by now rewrite E.
  assert (Hin : In h sw) by (rewrite E; now left).
  assert (Hlast : In (last sw h) sw).
  { rewrite E. destruct (exists_last (l := h :: sw')) as [l [a Ha]]; [discriminate|].
    rewrite Ha, last_last. apply in_or_app. right. now left. }
  exists h. split; [exact Hh|]. split; [exact (wordFrequencies_scaled comments Hc h Hh)|].
  assert (Hrange : forall e, In e sw -> (count (last sw h) <= count e <= count h)%Z).
  { intros e He. split.
    - destruct (sorted_last _ sw e h _ Hsorted He eq_refl) as [->|H]; lia.
    - destruct (sorted_head _ sw e h Hsorted He Hh) as [->|H]; lia. }
  split; [apply (Hrange _ Hlast)|]. split.
  { rewrite Forall_forall in Hocc. exact (count_positive _ _ (Hocc h Hin)). }
  split; [|exact Hlast].
  intros e He. split; [exact (numeric_count _ _ Hnum He) | now apply Hrange].
Qed.

(** X13: without the word [constructor] in the corpus, when the first and
    the last frequency of the ranking differ, the first word has the size
    36 and the last word the size 12. *)
Theorem size_extremes (comments : list string)
    (Hc : ~ In "constructor" (WordCloud.words comments))
    (e1 eN : WordCloud.WordFrequency)
    (H1 : hd_error (WordCloud.wordFrequencies comments) = Some e1)
    (HN : last (WordCloud.wordFrequencies comments) e1 = eN)
    (Hdiff : WordCloud.frequency e1 <> WordCloud.frequency eN) :
  WordCloud.size e1 = JS.ofZ 36 /\ WordCloud.size eN = JS.ofZ 12.
Proof.
  destruct (ranking_ends comments e1 Hc H1) as (h & Hh & Hr & Hle & _ & Hall & Hlast).
  set (sw := WordCloud.sortedWords (WordCloud.words comments)) in *.
  set (mn := count (last sw h)) in *. set (mx := count h) in *.
  assert (Hin : In h sw) by (destruct sw; [discriminate | injection Hh as ->; now left]).
  assert (E1 : e1 = WordCloud.scale (WordCloud.Num mn) (WordCloud.Num mx) h).
  { rewrite Hr, hd_error_map, Hh in H1. simpl in H1. congruence. }
  assert (EN : eN = WordCloud.scale (WordCloud.Num mn) (WordCloud.Num mx) (last sw h)).
  { rewrite <- HN, Hr, E1. apply last_map. }
  destruct (Hall h Hin) as [Hvh _]. destruct (Hall _ Hlast) as [Hvl _].
  fold mx in Hvh. fold mn in Hvl.
  assert (Hlt : (mn < mx)%Z).
  { destruct (Z.eq_dec mn mx) as [Heq|Hne]; [|lia].
    exfalso. apply Hdiff. rewrite E1, EN.
    rewrite (proj2 (scale_fields _ _ h)), (proj2 (scale_fields _ _ (last sw h))).
    now rewrite Hvh, Hvl, Heq. }
  rewrite E1, EN, (scale_entry h mn mx mx Hlt Hvh), (scale_entry _ mn mx mn Hlt Hvl).
  cbn [WordCloud.size]. now rewrite specSize_top, specSize_bottom.
Qed.

Lemma size_extremes_witness :
  ~ In "constructor" (WordCloud.words ["alpha alpha beta gamma"]) /\
  WordCloud.size (WordCloud.mkWord "alpha" (WordCloud.Num 2) (JS.ofZ 36)) = JS.ofZ 36 /\
  WordCloud.size (WordCloud.mkWord "gamma" (WordCloud.Num 1) (JS.ofZ 12)) = JS.ofZ 12.
Proof.
  assert (Hc : ~ In "constructor" (WordCloud.words ["alpha alpha beta gamma"])).
  { vm_compute. intuition discriminate. }
  split; [exact Hc|].
  apply (size_extremes ["alpha alpha beta gamma"] Hc).
  - vm_compute. reflexivity.
  - vm_compute. reflexivity.
  - vm_compute. intros H. discriminate H.
Defined.

(** ** The cloud *)

Lemma gt_ofZ (x y : Z) : JS.gt (JS.ofZ y) (JS.ofZ x) = (x <? y)%Z.
Proof.
  unfold JS.gt, JS.ofZ, Qcompare, inject_Z. cbn [Qnum Qden].
  rewrite !Z.mul_1_r, Z.ltb_compare, (Z.compare_antisym x y).
  now destruct (x ?= y)%Z.
Qed.

Lemma max2_ofZ (m z : Z) : (z <= m)%Z -> JS.max2 (JS.ofZ m) (JS.ofZ z) = JS.ofZ m.
Proof.
  intros H. unfold JS.max2. change (JS.ofZ m) with (JS.Fin (inject_Z m)) at 1.
  change (JS.ofZ z) with (JS.Fin (inject_Z z)) at 1.
  fold (JS.ofZ m). fold (JS.ofZ z). rewrite gt_ofZ.
  destruct (Z.ltb_spec m z); [lia | reflexivity].
Qed.

Lemma max_ofZ (m : Z) (l : list Z) :
  Forall (fun z => (z <= m)%Z) l -> JS.max (map JS.ofZ (m :: l)) = JS.ofZ m.
Proof.
  intros H. unfold JS.max. cbn [map fold_left].
  change (JS.max2 JS.NegInf (JS.ofZ m)) with (JS.ofZ m).
  induction H as [|z l Hz Hl IH]; [reflexivity|].
  cbn [map fold_left]. now rewrite max2_ofZ.
Qed.

Lemma ratio_gt (f a : Z) (p b : positive) :
  JS.gt (JS.Fin (inject_Z f / inject_Z (Zpos p))) (JS.Fin (a # b))
  = (a * Zpos p <? Zpos b * f)%Z.
Proof.
  unfold JS.gt, Qcompare, Qdiv, Qmult, Qinv, inject_Z. cbn [Qnum Qden].
  rewrite Z.ltb_compare, Pos.mul_1_l.
  replace (f * 1 * Z.pos b)%Z with (Z.pos b * f)%Z by lia.
  rewrite (Z.compare_antisym (a * Z.pos p) (Z.pos b * f)).
  destruct (a * Z.pos p ?= Z.pos b * f)%Z; reflexivity.
Qed.

Lemma getWordColor_shade (f top : Z) :
  (1 <= top)%Z ->
  CloudView.getWordColor (JS.ofZ f) (JS.ofZ top) = shade f top.
Proof.
  intros H. destruct top as [|p|p]; try lia.
  unfold CloudView.getWordColor, JS.ofZ, JS.div. rewrite sign_inject.
  cbn [Z.compare]. rewrite !ratio_gt. unfold shade. reflexivity.
Qed.

(** X14: without the word [constructor] in the corpus, the cloud shows the
    first thirty words of the ranking with their sizes and the keyword
    table the first twelve with their frequencies; the colour of a word is
    given by the tenths of the highest count that its count exceeds (more
    than seven, four, two tenths, or less), and the first word of the cloud
    has the strongest colour. *)
Theorem cloud_view (comments : list string)
    (Hc : ~ In "constructor" (WordCloud.words comments))
    (v : CloudView.View) (Hv : CloudView.render comments = Some v) :
  let r := WordCloud.wordFrequencies comments in
  let top := match r with [] => 0%Z | e :: _ => shown e end in
  CloudView.cloud v
  = map (fun e => CloudView.mkSpan (WordCloud.word e) (shade (shown e) top)
                    (WordCloud.size e))
      (firstn 30 r) /\
  CloudView.topKeywords v
  = map (fun e => (WordCloud.word e, WordCloud.frequency e)) (firstn 12 r) /\
  (length (CloudView.cloud v) <= 30)%nat /\
  (length (CloudView.topKeywords v) <= 12)%nat /\
  (forall s, hd_error (CloudView.cloud v) = Some s ->
             CloudView.className s = "text-primary").
Proof.
  cbv zeta. remember (WordCloud.wordFrequencies comments) as r eqn:Er.
  assert (Hview : v = CloudView.mkView
            (map (fun wordData =>
                    CloudView.mkSpan (WordCloud.word wordData)
                      (CloudView.getWordColor
                         (WordCloud.toNumber (WordCloud.frequency wordData))
                         (CloudView.maxFreq r))
                      (WordCloud.size wordData)) (firstn 30 r))
            (map (fun wordData => (WordCloud.word wordData, WordCloud.frequency wordData))
                 (firstn 12 r))).
  { rewrite Er. destruct comments; [discriminate Hv|]. injection Hv as <-. reflexivity. }
  rewrite Hview. cbn [CloudView.cloud CloudView.topKeywords].
  rewrite !length_map.
  assert (Hlen30 : (length (firstn 30 r) <= 30)%nat) by apply firstn_le_length.
  assert (Hlen12 : (length (firstn 12 r) <= 12)%nat) by apply firstn_le_length.
  destruct r as [|e1 r'].
  { repeat split; trivial. intros s Hs. discriminate Hs. }
  assert (H1 : hd_error (WordCloud.wordFrequencies comments) = Some e1) by now rewrite <- Er.
  destruct (ranking_ends comments e1 Hc H1) as (h & Hh & Hr & _ & Hpos & Hall & _).
  set (sw := WordCloud.sortedWords (WordCloud.words comments)) in *.
  assert (Hshown : forall e, In e sw ->
            let e' := WordCloud.scale (WordCloud.Num (count (last sw h)))
                        (WordCloud.Num (count h)) e in
            WordCloud.frequency e' = WordCloud.Num (count e) /\ shown e' = count e).
  { intros e He. cbv zeta. destruct (Hall e He) as [Hv' _].
    unfold shown. rewrite (proj2 (scale_fields _ _ e)), Hv'. split; reflexivity. }
  assert (Hin : In h sw) by (destruct sw; [discriminate | injection Hh as ->; now left]).
  assert (Htop : shown e1 = count h).
  { rewrite Hr, hd_error_map, Hh in H1. injection H1 as <-. apply (Hshown h Hin). }
  assert (Hmax : CloudView.maxFreq (e1 :: r') = JS.ofZ (count h)).
  { unfold CloudView.maxFreq. rewrite Er, Hr, map_map.
    rewrite (map_ext_in _ (fun e => JS.ofZ (count e)))
      by (intros e He; now rewrite (proj1 (Hshown e He))).
    rewrite <- (map_map count JS.ofZ).
    destruct sw as [|h' sw']; [discriminate|]. injection Hh as ->.
    cbn [map]. apply max_ofZ. apply Forall_map, Forall_forall. intros e He.
    apply Hall. now right. }
  assert (Hcolour : forall e, In e (e1 :: r') ->
            CloudView.getWordColor (WordCloud.toNumber (WordCloud.frequency e))
              (CloudView.maxFreq (e1 :: r'))
            = shade (shown e) (shown e1)).
  { intros e He. rewrite Er, Hr in He. apply in_map_iff in He.
    destruct He as [e0 [<- He0]]. destruct (Hshown e0 He0) as [Hf Hs].
    rewrite Hmax, Hf, Hs, Htop. cbn [WordCloud.toNumber].
    now rewrite getWordColor_shade. }
  split; [|split; [reflexivity | split; [exact Hlen30 | split; [exact Hlen12|]]]].
  - apply map_ext_in. intros e He. apply firstn_In in He.
    now rewrite Hcolour.
  - intros s Hs. cbn [firstn map hd_error] in Hs. injection Hs as <-.
    cbn [CloudView.className]. rewrite Hcolour by now left.
    rewrite Htop. unfold shade.
    destruct (Z.ltb_spec (7 * count h) (10 * count h)); [reflexivity | lia].
Qed.

Lemma cloud_view_witness :
  ~ In "constructor" (WordCloud.words ["alpha alpha beta gamma"]) /\
  exists v, CloudView.render ["alpha alpha beta gamma"] = Some v /\
    (length (CloudView.cloud v) <= 30)%nat.
Proof.
  assert (Hc : ~ In "constructor" (WordCloud.words ["alpha alpha beta gamma"])).
  { vm_compute. intuition discriminate. }
  split; [exact Hc|].
  destruct (CloudView.render ["alpha alpha beta gamma"]) as [v|] eqn:Hv; [|discriminate Hv].
  exists v. split; [reflexivity|].
  exact (proj1 (proj2 (proj2 (cloud_view ["alpha alpha beta gamma"] Hc v Hv)))).
Defined.

(** ** The upload *)

Lemma trimStart_blank (s : string) :
  JS.trimStart s = "" <-> blank s.
Proof.
  unfold blank. induction s as [|c s IH]; simpl; [tauto|].
  destruct (JS.isSpace c); simpl; [exact IH|]. split; discriminate.
Qed.

Lemma trimEnd_blank (s : string) :
  JS.trimEnd s = "" <-> blank s.
Proof.
  unfold blank. induction s as [|c s IH]; simpl; [tauto|].
  destruct (JS.trimEnd s) eqn:E.
  - destruct (JS.isSpace c); simpl; [rewrite <- IH; tauto|]. split; discriminate.
  - split; [discriminate|]. intros H. apply andb_true_iff in H. destruct H as [_ H].
    apply IH in H. discriminate.
Qed.

Lemma trimStart_all (p : ascii -> bool) (s : string) :
  JS.allChars p s = true -> JS.allChars p (JS.trimStart s) = true.
Proof.
  induction s as [|c s IH]; simpl; [trivial|]. intros H.
  destruct (JS.isSpace c); [apply IH|]; simpl.
  - apply andb_true_iff in H. tauto.
  - exact H.
Qed.

Lemma trimEnd_all (p : ascii -> bool) (s : string) :
  JS.allChars p s = true -> JS.allChars p (JS.trimEnd s) = true.
Proof.
  induction s as [|c s IH]; simpl; [trivial|]. intros H.
  apply andb_true_iff in H. destruct H as [Hc Hs]. specialize (IH Hs).
  destruct (JS.trimEnd s) as [|d t].
  - destruct (JS.isSpace c); simpl; [reflexivity | now rewrite Hc].
  - simpl in IH |- *. now rewrite Hc, IH.
Qed.

Lemma trimEnd_cons (c : ascii) (s : string) :
  JS.trimEnd (String c s)
  = match JS.trimEnd s with
    | EmptyString => if JS.isSpace c then EmptyString else String c EmptyString
    | t => String c t
    end.
Proof. reflexivity. Qed.

Lemma trimEnd_idem (s : string) : JS.trimEnd (JS.trimEnd s) = JS.trimEnd s.
Proof.
  induction s as [|c s IH]; [reflexivity|]. rewrite trimEnd_cons.
  destruct (JS.trimEnd s) as [|d t] eqn:E.
  - destruct (JS.isSpace c) eqn:Ec; [reflexivity|].
    rewrite trimEnd_cons. cbn [JS.trimEnd]. now rewrite Ec.
  - rewrite trimEnd_cons, IH. reflexivity.
Qed.

(** A text that starts with a character that is not white space keeps its
    start under [trimEnd]. *)
Lemma trimEnd_head (c : ascii) (s : string) :
  JS.isSpace c = false -> exists t, JS.trimEnd (String c s) = String c t.
Proof.
  intros Hc. rewrite trimEnd_cons. destruct (JS.trimEnd s) as [|d t].
  - rewrite Hc. now exists "".
  - now exists (String d t).
Qed.

Lemma trimStart_head (s : string) :
  JS.trimStart s = "" \/ exists c t, JS.trimStart s = String c t /\ JS.isSpace c = false.
Proof.
  induction s as [|c s IH]; simpl; [now left|].
  destruct (JS.isSpace c) eqn:E; [exact IH|]. right. now exists c, s.
Qed.

Lemma trim_idem (s : string) : JS.trim (JS.trim s) = JS.trim s.
Proof.
  unfold JS.trim. destruct (trimStart_head s) as [->|[c [t [-> Hc]]]]; [reflexivity|].
  destruct (trimEnd_head c t Hc) as [u Hu]. rewrite Hu.
  cbn [JS.trimStart]. rewrite Hc, <- Hu. apply trimEnd_idem.
Qed.

Lemma trim_blank (s : string) : JS.trim s = "" <-> blank s.
Proof.
  unfold JS.trim. rewrite trimEnd_blank. unfold blank. split.
  - intros H. induction s as [|c s IH]; [reflexivity|]. simpl in H |- *.
    destruct (JS.isSpace c) eqn:E; simpl; [now apply IH|].
    simpl in H. rewrite E in H. discriminate.
  - apply trimStart_all.
Qed.

Lemma trim_all (p : ascii -> bool) (s : string) :
  JS.allChars p s = true -> JS.allChars p (JS.trim s) = true.
Proof. intros H. unfold JS.trim. now apply trimEnd_all, trimStart_all. Qed.

Lemma splitAt_all (p : ascii -> bool) (sep : ascii) (s cur : string) :
  JS.allChars p s = true -> JS.allChars p cur = true ->
  Forall (fun t => JS.allChars p t = true) (JS.splitAt sep s cur).
Proof.
  revert cur. induction s as [|c s IH]; intros cur Hs Hcur; simpl.
  - now constructor.
  - simpl in Hs. apply andb_true_iff in Hs. destruct Hs as [Hc Hs].
    destruct (Ascii.eqb c sep).
    + constructor; [exact Hcur | now apply IH].
    + apply IH; [exact Hs|]. rewrite allChars_app, Hcur. simpl. now rewrite Hc.
Qed.

(** The pieces contain no separator. *)
Lemma splitAt_pieces (sep : ascii) (s cur : string) :
  JS.allChars (fun c => negb (Ascii.eqb c sep)) cur = true ->
  Forall (fun t => JS.allChars (fun c => negb (Ascii.eqb c sep)) t = true)
    (JS.splitAt sep s cur).
Proof.
  revert cur. induction s as [|c s IH]; intros cur Hcur; simpl.
  - now constructor.
  - destruct (Ascii.eqb c sep) eqn:E.
    + constructor; [exact Hcur | now apply IH].
    + apply IH. rewrite allChars_app, Hcur. simpl. now rewrite E.
Qed.

(** A text with a character that is not white space has a piece with one. *)
Lemma splitAt_blank (sep : ascii) (s cur : string) :
  JS.isSpace sep = true ->
  (Forall blank (JS.splitAt sep s cur) <-> blank s /\ blank cur).
Proof.
  intros Hsep. unfold blank. revert cur. induction s as [|c s IH]; intros cur; simpl.
  - split; [intros H; inversion H; tauto | intros [_ H]; now constructor].
  - destruct (Ascii.eqb_spec c sep) as [->|Hne].
    + rewrite Hsep. simpl. split.
      * intros H. inversion H as [|? ? H1 H2]; subst. apply IH in H2. tauto.
      * intros [H1 H2]. constructor; [exact H2 | apply IH; tauto].
    + rewrite IH, allChars_app. simpl. rewrite !andb_true_iff. tauto.
Qed.

Lemma string_app_assoc (a b c : string) : ((a ++ b) ++ c = a ++ (b ++ c))%string.
Proof. induction a as [|x a IH]; simpl; [reflexivity | now rewrite IH]. Qed.

Lemma string_app_nil_r (a : string) : (a ++ "")%string = a.
Proof. induction a as [|x a IH]; simpl; [reflexivity | now rewrite IH]. Qed.

Lemma splitAt_app (sep : ascii) (x rest cur : string) :
  JS.allChars (fun c => negb (Ascii.eqb c sep)) x = true ->
  JS.splitAt sep (x ++ rest) cur = JS.splitAt sep rest (cur ++ x).
Proof.
  revert cur. induction x as [|c x IH]; intros cur Hx; simpl.
  - now rewrite string_app_nil_r.
  - simpl in Hx. apply andb_true_iff in Hx. destruct Hx as [Hc Hx].
    apply negb_true_iff in Hc. rewrite Hc, IH by exact Hx.
    now rewrite string_app_assoc.
Qed.

(** Joining lines without line feeds and splitting again gives the lines. *)
Lemma splitAt_join (sep : ascii) (l : list string) :
  l <> [] ->
  Forall (fun t => JS.allChars (fun c => negb (Ascii.eqb c sep)) t = true) l ->
  JS.splitAt sep (JS.join (String sep "") l) "" = l.
Proof.
  intros Hne Hl. induction Hl as [|x l Hx Hl IH]; [congruence|].
  destruct l as [|y l].
  - simpl. rewrite <- (string_app_nil_r x) at 1. rewrite splitAt_app by exact Hx.
    reflexivity.
  - change (JS.join (String sep "") (x :: y :: l))
      with (x ++ String sep "" ++ JS.join (String sep "") (y :: l))%string.
    rewrite splitAt_app by exact Hx. cbn [append JS.splitAt].
    rewrite Ascii.eqb_refl. simpl append. rewrite IH by discriminate. reflexivity.
Qed.

Lemma extract_lines (text : string) :
  Forall (fun c => c <> "" /\ trimmed c /\ JS.allChars notLF c = true)
    (UploadSection.extract text).
Proof.
  unfold UploadSection.extract. apply Forall_forall. intros c Hc.
  apply firstn_In, filter_In in Hc. destruct Hc as [Hc Hlen].
  apply in_map_iff in Hc. destruct Hc as [line [<- Hline]].
  split; [|split].
  - intros E. rewrite E in Hlen. discriminate.
  - apply trim_idem.
  - apply trim_all.
    pose proof (splitAt_pieces "010" text "" eq_refl) as H.
    rewrite Forall_forall in H. now apply H.
Qed.

(** A successful upload hands on the extracted comments, of which there
    is at least one. *)
Lemma processFile_extract (text : string) (comments : list string) :
  UploadSection.processFile text = Some comments ->
  comments = UploadSection.extract text /\ (1 <= length comments)%nat.
Proof.
  intros Hok. unfold UploadSection.processFile in Hok. cbv zeta in Hok.
  destruct (Nat.eqb_spec (length (UploadSection.extract text)) 0) as [E|E]; [discriminate|].
  injection Hok as <-. split; [reflexivity | lia].
Qed.

Lemma extract_length (text : string) : (length (UploadSection.extract text) <= 100)%nat.
Proof. unfold UploadSection.extract. apply firstn_le_length. Qed.

(** X15: the comments that a successful upload hands on are between one
    and a hundred, none of them empty, each without white space at its
    ends and without a line feed. *)
Theorem upload_comments (text : string) (comments : list string)
    (Hok : UploadSection.processFile text = Some comments) :
  (1 <= length comments <= 100)%nat /\
  Forall (fun c => c <> "" /\ trimmed c /\ JS.allChars notLF c = true) comments.
Proof.
  destruct (processFile_extract text comments Hok) as [-> Hlo].
  split; [split; [exact Hlo | apply extract_length]|].
  apply extract_lines.
Qed.

Lemma upload_comments_witness :
  UploadSection.processFile "  first line  " = Some ["first line"] /\
  (1 <= length ["first line"] <= 100)%nat.
Proof.
  assert (H : UploadSection.processFile "  first line  " = Some ["first line"])
    by reflexivity.
  split; [exact H | exact (proj1 (upload_comments _ _ H))].
Defined.

(** X16: the upload fails exactly for a text that consists of white space
    only (the empty text included). *)
Theorem upload_fails_iff_blank (text : string) :
  UploadSection.processFile text = None <-> blank text.
Proof.
  unfold UploadSection.processFile. cbv zeta.
  assert (Hsplit : Forall blank (JS.splitAt "010" text "") <-> blank text).
  { rewrite (splitAt_blank "010" text "" eq_refl). unfold blank. simpl. tauto. }
  rewrite <- Hsplit. unfold UploadSection.extract.
  set (lines := JS.splitAt "010" text "").
  set (kept := filter (fun line => (0 <? String.length line)%nat) (map JS.trim lines)).
  assert (Hkept : kept = [] <-> Forall blank lines).
  { unfold kept. clearbody lines. induction lines as [|x l IH]; simpl.
    - split; [constructor | reflexivity].
    - destruct (JS.trim x) eqn:E; simpl.
      + apply trim_blank in E. rewrite IH. split.
        * intros H. now constructor.
        * intros H. now inversion H.
      + split; [discriminate|]. intros H. inversion H as [|? ? Hx _]; subst.
        apply trim_blank in Hx. congruence. }
  rewrite <- Hkept.
  destruct (Nat.eqb_spec (length (firstn 100 kept)) 0) as [E|E].
  - split; [intros _|reflexivity]. destruct kept; [reflexivity | discriminate E].
  - split; [discriminate|]. intros H. rewrite H in E. now elim E.
Qed.

(** X17: uploading the comments of a successful upload again, one per
    line, hands on the same comments. *)
Theorem upload_round_trip (text : string) (comments : list string)
    (Hok : UploadSection.processFile text = Some comments) :
  UploadSection.processFile (JS.join (String "010" "") comments) = Some comments.
Proof.
  destruct (processFile_extract text comments Hok) as [Hext Hlo].
  pose proof (extract_length text) as Hhi. pose proof (extract_lines text) as Hall.
  rewrite <- Hext in Hhi, Hall. clear Hok Hext.
  unfold UploadSection.processFile, UploadSection.extract.
  rewrite splitAt_join.
  - assert (Hmap : map JS.trim comments = comments).
    { clear Hlo Hhi. induction Hall as [|c l [_ [Hc _]] Hl IH]; simpl; [reflexivity|].
      now rewrite Hc, IH. }
    assert (Hfilter : filter (fun line => (0 <? String.length line)%nat) comments
                      = comments).
    { clear Hlo Hhi Hmap. induction Hall as [|c l [Hc _] Hl IH]; simpl; [reflexivity|].
      destruct c; [congruence|]. simpl. now rewrite IH. }
    rewrite Hmap, Hfilter, firstn_all2 by exact Hhi.
    destruct comments; [simpl in Hlo; lia | reflexivity].
  - intros ->. simpl in Hlo. lia.
  - eapply Forall_impl; [|exact Hall]. intros c [_ [_ H]]. exact H.
Qed.

Lemma upload_round_trip_witness :
  UploadSection.processFile "  first line  
 second " = Some ["first line"; "second"] /\
  UploadSection.processFile (JS.join (String "010" "") ["first line"; "second"])
  = Some ["first line"; "second"].
Proof.
  assert (H : UploadSection.processFile "  first line  
 second " = Some ["first line"; "second"]) by reflexivity.
  split; [exact H | exact (upload_round_trip _ _ H)].
Defined.



(** ** The three copies of the classifier *)

Lemma mapIndexed_mapM (random : nat -> Q) (comments : list string) (i k : nat) :
  let run := SentimentCharts.mapIndexed (SentimentCharts.classify random) i comments k in
  map (fun r => SentimentAnalysis.mkResult (SentimentCharts.comment r)
                  (SentimentCharts.sentiment r) (SentimentCharts.confidence r)) (fst run)
  = fst (Rand.mapM (SentimentAnalysis.classify random) comments k) /\
  snd run = snd (Rand.mapM (SentimentAnalysis.classify random) comments k).
Proof.
  revert i k. induction comments as [|c l IH]; intros i k; cbv zeta.
  - split; reflexivity.
  - simpl. unfold Rand.bind. rewrite charts_classify. cbv zeta.
    destruct (SentimentAnalysis.classify random c k) as [r k1]. simpl.
    specialize (IH (S i) k1). cbv zeta in IH. destruct IH as [H1 H2].
    destruct (SentimentCharts.mapIndexed (SentimentCharts.classify random) (S i) l k1)
      as [rs k2].
    destruct (Rand.mapM (SentimentAnalysis.classify random) l k1) as [rs' k2'].
    simpl in *. subst. destruct r. split; reflexivity.
Qed.

(** X19: the three copies of the classifier agree: the copy with the
    labels positive, negative and neutral returns the results of the copy
    with agreement, removal and modification under that renaming, the copy
    with stakeholder types returns them with a type added, and all three
    leave the random source in the same state. *)
Theorem classifier_copies_agree (random : nat -> Q) (comments : list string) (k : nat) :
  let reference := SentimentAnalysis.sentimentResults random comments k in
  SentimentAnalysisPolar.sentimentResults random comments k
  = (map relabelResult (fst reference), snd reference) /\
  map (fun r => SentimentAnalysis.mkResult (SentimentCharts.comment r)
                  (SentimentCharts.sentiment r) (SentimentCharts.confidence r))
      (fst (SentimentCharts.sentimentResults random comments k))
  = fst reference /\
  snd (SentimentCharts.sentimentResults random comments k) = snd reference.
Proof.
  cbv zeta. split; [apply polar_sentimentResults|].
  unfold SentimentCharts.sentimentResults, SentimentAnalysis.sentimentResults.
  exact (mapIndexed_mapM random comments 0 k).
Qed.
